(** * Satellite collision avoidance: table-driven agent and simulation loop

    A shallow embedding of [agent.py] ([TableAgent], [Agent]) and of
    [space_navigator/simulator/simulator.py] ([Simulator.__init__],
    [Simulator.run] and its logging helpers), with the properties of the
    control loop and of schedule replay stated over it.

    Conventions.
    - Epochs and velocity deltas are Python floats.  The embedding is
      parametric in the scalar arithmetic ([Scalar]); the instance
      [binary64] is IEEE-754 double precision, which is what the interpreter
      computes with.
    - [pk.epoch(x, "mjd2000").mjd2000] is taken to give back [x]: an epoch
      object is represented by its mjd2000 value.
    - The environment and the policy are collaborators that live outside
      these files; they are interfaces ([Environment], [Policy]) whose
      methods thread the collaborator's own state.  A space object (an
      element of [self.env.debris]) is known by its name.
    - Every call made on a collaborator, every log record, every line
      printed and every drawing request is appended to a journal, newest
      entry first, so that "what was called, and when" can be stated. *)

From Stdlib Require Import ZArith QArith Qround String List Bool Lia Lqa.
From Stdlib Require Import SpecFloat.
Import ListNotations.

Set Implicit Arguments.
Open Scope Z_scope.

(** ** Scalars *)

(** The float operations the two source files use: decimal literals,
    [+], [<=] (and [>=], its mirror), and [<] for the strict comparisons the
    properties speak about. *)
Class Scalar (F : Type) : Type := {
  f_decimal : Z -> nat -> F;      (* the literal  n * 10^-k  *)
  f_add : F -> F -> F;            (* a + b *)
  f_leb : F -> F -> bool;         (* a <= b *)
  f_ltb : F -> F -> bool          (* a < b *)
}.

Definition f_zero {F} `{Scalar F} : F := f_decimal 0 0.
(** Python's [a >= b]. *)
Definition f_geb {F} `{Scalar F} (a b : F) : bool := f_leb b a.

(** What the properties need of the order: a strict inequality gives the
    weak one, and excludes the converse weak one.  Both hold of binary64
    (a NaN compares false with everything). *)
Class ScalarOrder (F : Type) `{Scalar F} : Prop := {
  f_ltb_leb : forall a b, f_ltb a b = true -> f_leb a b = true;
  f_ltb_not_geb : forall a b, f_ltb a b = true -> f_geb a b = false
}.
Arguments ScalarOrder F {_}.

(** *** IEEE-754 binary64 *)
Module B64.
Definition prec : Z := 53.
Definition emax : Z := 1024.
Definition of_Z (z : Z) : spec_float := binary_normalize prec emax z 0 false.
(** A decimal literal is the correctly rounded quotient of two integers
    that binary64 holds exactly (numerator and power of ten below 2^53). *)
Definition decimal (n : Z) (k : nat) : spec_float :=
  SFdiv prec emax (of_Z n) (of_Z (10 ^ Z.of_nat k)).
Definition add : spec_float -> spec_float -> spec_float := SFadd prec emax.
(** A canonical representation: every value the interpreter holds is one. *)
Definition valid (x : spec_float) : bool := valid_binary prec emax x.
(** Neither an infinity nor a NaN. *)
Definition finite (x : spec_float) : bool :=
  match x with
  | S754_finite _ _ _ | S754_zero _ => true
  | _ => false
  end.
(** The rational a finite binary64 value stands for (0 for the others). *)
Definition to_Q (x : spec_float) : Q :=
  match x with
  | S754_finite s m e =>
      let v := if 0 <=? e then inject_Z (Z.pos m * 2 ^ e)
               else (inject_Z (Z.pos m) / inject_Z (2 ^ (- e)))%Q in
      if s then (- v)%Q else v
  | _ => 0%Q
  end.
End B64.

#[export] Instance binary64 : Scalar spec_float := {
  f_decimal := B64.decimal;
  f_add := B64.add;
  f_leb := SFleb;
  f_ltb := SFltb
}.

(** *** The rounding of binary64, for the proofs about its addition *)
Module Rounding.
(** The exponent of the format for a number of [e] binary digits. *)
Definition fexp64 : Z -> Z := fexp B64.prec B64.emax.

(** [shr_inv N k mrs]: the record [mrs] is what [k] right shifts make of
    the integer [N]: its mantissa is the quotient of [N] by [2 ^ k], and
    both its round and sticky bits are clear when the division is exact. *)
Definition shr_inv (N k : Z) (mrs : shr_record) : Prop :=
  0 <= shr_m mrs /\
  exists R, N = shr_m mrs * 2 ^ k + R /\ 0 <= R < 2 ^ k /\
            (R = 0 -> shr_r mrs = false /\ shr_s mrs = false).

(** The end of [binary_round_aux]: the renormalisation of the rounded
    mantissa [m2] at exponent [e1], and the overflow test. *)
Definition finish (s : bool) (m2 e1 : Z) : spec_float :=
  let '(mrs, e) := shr_fexp B64.prec B64.emax m2 e1 loc_Exact in
  match shr_m mrs with
  | Z0 => S754_zero s
  | Zpos m =>
      if e <=? B64.emax - B64.prec then S754_finite s m e
      else S754_infinity s
  | Zneg _ => S754_nan
  end.

(** The comparison of two numbers that are not NaN is the lexicographic
    comparison of their keys. *)
Definition key (x : spec_float) : Z * Z * Z :=
  match x with
  | S754_infinity true => (-2, 0, 0)
  | S754_finite true m e => (-1, - e, - Zpos m)
  | S754_zero _ => (0, 0, 0)
  | S754_finite false m e => (1, e, Zpos m)
  | S754_infinity false => (2, 0, 0)
  | S754_nan => (3, 0, 0)
  end.

Definition lex_le (a b : Z * Z * Z) : Prop :=
  let '(a1, a2, a3) := a in
  let '(b1, b2, b3) := b in
  a1 < b1 \/ (a1 = b1 /\ (a2 < b2 \/ (a2 = b2 /\ a3 <= b3))).
End Rounding.

(** ** Data model *)
Section Model.
Context {F : Type} `{Scalar F}.

(** One row of the action table, [(epoch, dVx, dVy, dVz)]: the table is the
    two-dimensional array [pd.read_csv(table_path, index_col=0).values]. *)
Record Row : Type := mkRow {
  row_epoch : F; row_dVx : F; row_dVy : F; row_dVz : F
}.
Definition Table : Type := list Row.

(** [np.array([dVx, dVy, dVz, epoch, time_to_req])]. *)
Record Action : Type := mkAction {
  dVx : F; dVy : F; dVz : F; maneuver_epoch : F; time_to_req : F
}.

(** The state dictionary documented in [get_action]. *)
Record Coord : Type := mkCoord { st : list F; debr : list (list F) }.
Record State : Type := mkState {
  coord : Coord; trajectory_deviation_coef : F; epoch : F; fuel : F
}.

(** ** agent.py *)

(** What [TableAgent.get_action] writes on the standard output. *)
Inductive Output : Type :=
| Printed_epoch (e : F)                 (* print(epoch) *)
| Printed_maneuver (a : Action).        (* print("maneuver!:", action) *)

(** The objects a call of [TableAgent.get_action] can reach: [self.table],
    the [state] dictionary it is handed, and the standard output (newest
    line first). *)
Record Heap : Type := mkHeap {
  self_table : Table; state_obj : State; stdout : list Output
}.

Definition print (o : Output) (h : Heap) : Heap :=
  mkHeap (self_table h) (state_obj h) (o :: stdout h).
Definition set_table (t : Table) (h : Heap) : Heap :=
  mkHeap t (state_obj h) (stdout h).

(** [np.array([0, 0, 0, epoch, 0])  # : default action] *)
Definition default_action (epoch : F) : Action :=
  mkAction f_zero f_zero f_zero epoch f_zero.

(** [np.hstack([self.table[0, 1:], epoch, 0])] *)
Definition row_action (r : Row) (epoch : F) : Action :=
  mkAction (row_dVx r) (row_dVy r) (row_dVz r) epoch f_zero.

(** [TableAgent.get_action].  [self.table.size] is non-zero exactly when
    the array has a first row. *)
Definition TableAgent_get_action (h : Heap) : Action * Heap :=
  let epoch := epoch (state_obj h) in
  let h := print (Printed_epoch epoch) h in
  let action := default_action epoch in
  match self_table h with
  | row :: rest =>
      if f_geb epoch (row_epoch row) then
        let action := row_action row epoch in
        let h := print (Printed_maneuver action) h in
        (action, set_table rest h)
      else (action, h)
  | [] => (action, h)
  end.

(** [Agent.get_action]: [time_to_req = 0.001]. *)
Definition Agent_get_action (state : State) : Action :=
  mkAction f_zero f_zero f_zero (epoch state) (f_decimal 1 3).

(** A call "fires" when it prints the maneuver line. *)
Definition is_maneuver (o : Output) : bool :=
  match o with Printed_maneuver _ => true | Printed_epoch _ => false end.

(** Number of maneuver lines printed, i.e. of fires. *)
Definition fires (h : Heap) : nat := length (filter is_maneuver (stdout h)).

End Model.

(** ** simulator.py *)
Section Simulation.
Context {F : Type} `{Scalar F}.

(** Exceptions the interpreter raises inside [run]. *)
Inductive Exn : Type :=
| TypeError            (* int % None *)
| ZeroDivisionError.   (* int % 0 *)

(** A space object, known by the name its [get_name()] gives. *)
Definition SpaceObject : Type := string.

(** The journal: calls on the collaborators with what they returned, log
    records ([simulator.log]), printed lines, and drawing requests. *)
Inductive Event : Type :=
| Call_propagate_forward (epoch : F) (update_r_p_step : option Z)
| Call_get_next_action (ret : F)
| Call_get_state (ret : @State F)
| Call_get_action (state : @State F) (ret : @Action F)
| Call_get_reward (ret : F)
| Call_act (action : @Action F) (ret : option string)
| Call_get_fuel_consumption (ret : F)
| Call_get_trajectory_deviation (ret : F)
| Call_get_collision_probability (ret : F)
| Log_bad_action (dVx dVy dVz : F) (message : string)             (* warning *)
| Log_reward_action (iteration : Z) (reward : F) (action : @Action F) (* info *)
| Log_iteration (iteration : Z) (epoch : F) (probability : F)     (* debug *)
| Log_protected_position (epoch : F)                              (* info *)
| Log_debris_positions (obj : SpaceObject) (epoch : F)            (* info *)
| Print_started (start_time end_time step : F)
| Print_protected                       (* print("Protected SpaceObject: ...") *)
| Print_debris_header                   (* print("Debris objects:") *)
| Print_debris (obj : SpaceObject)      (* print(spaceObject.satellite) *)
| Print_ended (probability reward fuel deviation : F)
| Vis_new
| Vis_run
| Plot_protected (epoch : F)
| Plot_debris (obj : SpaceObject) (epoch : F)    (* vis.plot_planet, size 25 *)
| Plot_earth
| Plot_prob_fuel_reward (time_arr prob_arr fuel_cons_arr reward_arr : option (list F))
| Pause_and_clear
| Plot_iteration (epoch last_update p f d : F) (rc : F * F * F) (r : F).

(** The Environment Port: what [Simulator] asks of [self.env].  Methods
    return their value and the environment after the call; attributes are
    plain reads. *)
Class Environment (E : Type) : Type := {
  init_start_time : E -> F;                 (* init_params["start_time"] *)
  init_end_time : E -> F;                   (* init_params["end_time"] *)
  propagate_forward : F -> option Z -> E -> E;
  get_next_action : E -> F * E;
  get_state : E -> @State F * E;
  get_reward : E -> F * E;
  act : @Action F -> E -> option string * E;
  get_fuel_consumption : E -> F * E;
  get_trajectory_deviation : E -> F * E;
  get_collision_probability : E -> F * E;
  total_collision_probability : E -> F;
  reward : E -> F;
  reward_components : E -> F * F * F;
  last_r_p_update : E -> F;
  debris : E -> list SpaceObject            (* the list [self.env.debris] *)
}.

(** The Policy Port: [self.agent.get_action(s)]. *)
Class Policy (A : Type) : Type := {
  get_action : @State F -> A -> @Action F * A
}.

Context {A E : Type} `{Environment E} `{Policy A}.

(** The [Simulator] object, with the journal as a ghost field. *)
Record Simulator : Type := mkSimulator {
  agent : A;
  env : E;
  start_time : F;
  end_time : F;
  curr_time : F;
  print_out : bool;
  update_r_p_step : option Z;
  vis : bool;                          (* None / a Visualizer *)
  time_arr : option (list F);
  prob_arr : option (list F);
  fuel_cons_arr : option (list F);
  reward_arr : option (list F);
  journal : list Event
}.

(** [Simulator.__init__]: it stores its arguments and the two epochs of the
    environment's [init_params]; [step] is not among its parameters. *)
Definition Simulator_init (agent : A) (environment : E)
    (update_r_p_step : option Z) (print_out : bool) : Simulator :=
  mkSimulator agent environment
    (init_start_time environment) (init_end_time environment)
    (init_start_time environment)
    print_out update_r_p_step false None None None None [].

Definition set_agent (a : A) (s : Simulator) : Simulator :=
  mkSimulator a (env s) (start_time s) (end_time s) (curr_time s)
    (print_out s) (update_r_p_step s) (vis s)
    (time_arr s) (prob_arr s) (fuel_cons_arr s) (reward_arr s) (journal s).
Definition set_env (e : E) (s : Simulator) : Simulator :=
  mkSimulator (agent s) e (start_time s) (end_time s) (curr_time s)
    (print_out s) (update_r_p_step s) (vis s)
    (time_arr s) (prob_arr s) (fuel_cons_arr s) (reward_arr s) (journal s).
Definition set_curr_time (t : F) (s : Simulator) : Simulator :=
  mkSimulator (agent s) (env s) (start_time s) (end_time s) t
    (print_out s) (update_r_p_step s) (vis s)
    (time_arr s) (prob_arr s) (fuel_cons_arr s) (reward_arr s) (journal s).
Definition set_journal (j : list Event) (s : Simulator) : Simulator :=
  mkSimulator (agent s) (env s) (start_time s) (end_time s) (curr_time s)
    (print_out s) (update_r_p_step s) (vis s)
    (time_arr s) (prob_arr s) (fuel_cons_arr s) (reward_arr s) j.
Definition set_vis (v : bool) (ta pa fa ra : option (list F)) (s : Simulator)
    : Simulator :=
  mkSimulator (agent s) (env s) (start_time s) (end_time s) (curr_time s)
    (print_out s) (update_r_p_step s) v ta pa fa ra (journal s).

(** *** A state and exception monad over the [Simulator] object *)
Inductive Outcome (X : Type) : Type :=
| Ok (x : X) (s : Simulator)
| Raise (e : Exn) (s : Simulator).
Arguments Raise {X} e s.

Definition M (X : Type) : Type := Simulator -> Outcome X.
Definition ret {X} (x : X) : M X := fun s => Ok x s.
Definition bind {X Y} (c : M X) (k : X -> M Y) : M Y :=
  fun s => match c s with Ok x s' => k x s' | Raise e s' => Raise e s' end.
Definition raise {X} (e : Exn) : M X := fun s => Raise e s.
Definition gets {X} (f : Simulator -> X) : M X := fun s => Ok (f s) s.
Definition modify (f : Simulator -> Simulator) : M unit := fun s => Ok tt (f s).
Definition emit (ev : Event) : M unit :=
  modify (fun s => set_journal (ev :: journal s) s).
(** A method call on [self.env], journalled with its result. *)
Definition call_env {X} (f : E -> X * E) (ev : X -> Event) : M X :=
  fun s => let '(x, e) := f (env s) in
           Ok x (set_journal (ev x :: journal s) (set_env e s)).
(** An attribute read on [self.env]. *)
Definition read_env {X} (f : E -> X) : M X := gets (fun s => f (env s)).
(** [self.agent.get_action(state)]. *)
Definition call_agent (state : @State F) : M (@Action F) :=
  fun s => let '(a, ag) := get_action state (agent s) in
           Ok a (set_journal (Call_get_action state a :: journal s)
                             (set_agent ag s)).

Notation "x <- c ;; k" := (bind c (fun x => k))
  (at level 61, c at next level, right associativity).
Notation "c ;; k" := (bind c (fun _ => k))
  (at level 61, right associativity).

(** [for obj in objs: body(obj)]. *)
Fixpoint for_each {X : Type} (objs : list X) (body : X -> M unit) : M unit :=
  match objs with
  | [] => ret tt
  | obj :: rest => body obj ;; for_each rest body
  end.

(** *** Logging helpers *)
Definition log_protected_position : M unit :=
  t <- gets curr_time ;; emit (Log_protected_position t).
(** One info record for each object of [self.env.debris], in list order. *)
Definition log_debris_positions : M unit :=
  objs <- read_env debris ;;
  for_each objs
    (fun obj => t <- gets curr_time ;; emit (Log_debris_positions obj t)).
Definition log_iteration (iteration : Z) : M unit :=
  t <- gets curr_time ;;
  p <- read_env total_collision_probability ;;
  emit (Log_iteration iteration t p).
Definition log_reward_action (iteration : Z) (reward : F) (action : @Action F)
    : M unit :=
  emit (Log_reward_action iteration reward action).
Definition log_bad_action (message : string) (action : @Action F) : M unit :=
  emit (Log_bad_action (dVx action) (dVy action) (dVz action) message).

(** *** Plotting helpers *)
Definition plot_protected : M unit :=
  t <- gets curr_time ;; emit (Plot_protected t).
(** One [vis.plot_planet] call for each object of [self.env.debris]. *)
Definition plot_debris : M unit :=
  objs <- read_env debris ;;
  for_each objs (fun obj => t <- gets curr_time ;; emit (Plot_debris obj t)).
Definition plot_prob_fuel_reward : M unit :=
  ta <- gets time_arr ;; pa <- gets prob_arr ;;
  fa <- gets fuel_cons_arr ;; ra <- gets reward_arr ;;
  emit (Plot_prob_fuel_reward ta pa fa ra).

(** [list.append]. *)
Definition append (x : F) (l : option (list F)) : option (list F) :=
  option_map (fun l => l ++ [x]) l.

(** Python's [if err:] on the value [act] returns: [None] and the empty
    string are false. *)
Definition truthy (err : option string) : option string :=
  match err with
  | Some EmptyString => None
  | Some message => Some message
  | None => None
  end.

(** [iteration % self.update_r_p_step].  [Z.modulo] has the sign of the
    divisor, as Python's [%] on integers. *)
Definition py_mod (a : Z) (b : option Z) : M Z :=
  match b with
  | None => raise TypeError
  | Some 0 => raise ZeroDivisionError
  | Some k => ret (a mod k)
  end.

(** *** [run] *)

(** Lines 183-190: the policy is polled and its action applied. *)
Definition poll_and_act (iteration : Z) : M unit :=
  s <- call_env get_state Call_get_state ;;
  action <- call_agent s ;;
  r <- call_env get_reward Call_get_reward ;;
  err <- call_env (act action) (Call_act action) ;;
  match truthy err with
  | Some message => log_bad_action message action
  | None => ret tt
  end ;;
  log_reward_action iteration r action.

(** Lines 197-216: one frame of the visualisation. *)
Definition draw_frame (iteration : Z) : M unit :=
  plot_protected ;;
  plot_debris ;;
  emit Plot_earth ;;
  p <- read_env total_collision_probability ;;
  f <- call_env get_fuel_consumption Call_get_fuel_consumption ;;
  d <- call_env get_trajectory_deviation Call_get_trajectory_deviation ;;
  rc <- read_env reward_components ;;
  r <- read_env reward ;;
  ups <- gets update_r_p_step ;;
  m <- py_mod iteration ups ;;
  (if m =? 0 then
     t <- gets curr_time ;;
     modify (fun s => set_vis (vis s) (append t (time_arr s))
                        (append p (prob_arr s)) (append f (fuel_cons_arr s))
                        (append r (reward_arr s)) s)
   else ret tt) ;;
  plot_prob_fuel_reward ;;
  emit Pause_and_clear ;;
  t <- gets curr_time ;;
  lu <- read_env last_r_p_update ;;
  emit (Plot_iteration t lu p f d rc r).

(** Lines 179-219: the body of the [while]. *)
Definition loop_body (step : F) (visualize : bool) (iteration : Z) : M unit :=
  t <- gets curr_time ;;
  ups <- gets update_r_p_step ;;
  call_env (fun e => (tt, propagate_forward t ups e))
           (fun _ => Call_propagate_forward t ups) ;;
  next <- call_env get_next_action Call_get_next_action ;;
  (if f_geb t next then poll_and_act iteration else ret tt) ;;
  log_iteration iteration ;;
  log_protected_position ;;
  log_debris_positions ;;
  (if visualize then draw_frame iteration else ret tt) ;;
  modify (set_curr_time (f_add t step)).

(** How an execution of [run] bounded by [fuel] loop tests stands. *)
Inductive Run (X : Type) : Type :=
| Done (x : X) (iterations : Z) (s : Simulator)       (* left the loop *)
| Raised (e : Exn) (iterations : Z) (s : Simulator)   (* an exception escaped *)
| OutOfFuel (iterations : Z) (s : Simulator).         (* still inside the loop *)
Arguments Raised {X} e iterations s.
Arguments OutOfFuel {X} iterations s.

(** Lines 178-221: [while self.curr_time.mjd2000 <= self.end_time.mjd2000]. *)
Fixpoint while_loop (fuel : nat) (step : F) (visualize : bool)
    (iteration : Z) (s : Simulator) : Run unit :=
  match fuel with
  | O => OutOfFuel iteration s
  | S fuel' =>
      if f_leb (curr_time s) (end_time s) then
        match loop_body step visualize iteration s with
        | Ok _ s' => while_loop fuel' step visualize (iteration + 1) s'
        | Raise e s' => Raised e iteration s'
        end
      else Done tt iteration s
  end.

(** Lines 175-176: [for spaceObject in self.env.debris: print(...)]. *)
Definition print_debris : M unit :=
  objs <- read_env debris ;;
  for_each objs (fun obj => emit (Print_debris obj)).

(** Lines 160-176: what precedes the loop. *)
Definition prologue (step : F) (visualize : bool) : M unit :=
  (if visualize then
     emit Vis_new ;;
     emit Vis_run ;;
     t <- gets curr_time ;;
     p <- read_env total_collision_probability ;;
     f <- call_env get_fuel_consumption Call_get_fuel_consumption ;;
     r <- read_env reward ;;
     modify (set_vis true (Some [t]) (Some [p]) (Some [f]) (Some [r]))
   else ret tt) ;;
  po <- gets print_out ;;
  if po then
    st <- gets start_time ;; en <- gets end_time ;;
    emit (Print_started st en step) ;;
    emit Print_protected ;;
    emit Print_debris_header ;;
    print_debris
  else ret tt.

(** Lines 223-231: what follows the loop. *)
Definition epilogue : M F :=
  log_protected_position ;;
  po <- gets print_out ;;
  (if po then
     p <- call_env get_collision_probability Call_get_collision_probability ;;
     r <- call_env get_reward Call_get_reward ;;
     f <- call_env get_fuel_consumption Call_get_fuel_consumption ;;
     d <- call_env get_trajectory_deviation Call_get_trajectory_deviation ;;
     emit (Print_ended p r f d)
   else ret tt) ;;
  call_env get_reward Call_get_reward.

(** [Simulator.run(step, visualize)]. *)
Definition run (fuel : nat) (step : F) (visualize : bool) (s : Simulator)
    : Run F :=
  match prologue step visualize s with
  | Raise e s0 => Raised e 0 s0
  | Ok _ s0 =>
      match while_loop fuel step visualize 0 s0 with
      | Done _ n s1 =>
          match epilogue s1 with
          | Ok r s2 => Done r n s2
          | Raise e s2 => Raised e n s2
          end
      | Raised e n s1 => Raised e n s1
      | OutOfFuel n s1 => OutOfFuel n s1
      end
  end.

(** What a [for] over the debris objects leaves in the journal (newest
    entry first): one entry per object, the entry of the last object on
    top. *)
Definition per_object (entry : SpaceObject -> Event)
    (objs : list SpaceObject) : list Event :=
  rev (map entry objs).
(** The records of one [log_debris_positions] call, the drawing requests
    of one [plot_debris] call, and the lines of the prologue's [for]. *)
Definition debris_records (objs : list SpaceObject) (t : F) : list Event :=
  per_object (fun obj => Log_debris_positions obj t) objs.
Definition debris_plots (objs : list SpaceObject) (t : F) : list Event :=
  per_object (fun obj => Plot_debris obj t) objs.
Definition debris_prints (objs : list SpaceObject) : list Event :=
  per_object Print_debris objs.

(** Journal queries. *)
Definition is_propagate (ev : Event) : bool :=
  match ev with Call_propagate_forward _ _ => true | _ => false end.
Definition is_log_iteration (ev : Event) : bool :=
  match ev with Log_iteration _ _ _ => true | _ => false end.
Definition is_policy_call (ev : Event) : bool :=
  match ev with
  | Call_get_state _ | Call_get_action _ _ | Call_act _ _ => true
  | _ => false
  end.
Definition count (p : Event -> bool) (j : list Event) : nat :=
  List.length (filter p j).

(** How a bounded execution ended. *)
Inductive Kind : Type := Completed | Failed (e : Exn) | Unfinished.
Definition kind_of {X} (r : Run X) : Kind :=
  match r with
  | Done _ _ _ => Completed
  | Raised e _ _ => Failed e
  | OutOfFuel _ _ => Unfinished
  end.

Definition iterations_of {X} (r : Run X) : Z :=
  match r with Done _ n _ | Raised _ n _ | OutOfFuel n _ => n end.
Definition final {X} (r : Run X) : Simulator :=
  match r with Done _ _ s | Raised _ _ s | OutOfFuel _ s => s end.

(** What an execution started in [s] shows of its course: how it ended, the
    value of [iteration], and how many [propagate_forward] calls and
    iteration records it added to the journal. *)
Definition summary {X} (r : Run X) (s : Simulator) : Kind * Z * nat * nat :=
  (kind_of r, iterations_of r,
   (count is_propagate (journal (final r)) - count is_propagate (journal s))%nat,
   (count is_log_iteration (journal (final r))
    - count is_log_iteration (journal s))%nat).

End Simulation.

Arguments Raise {F A E X} e s.
Arguments Raised {F A E X} e iterations s.
Arguments OutOfFuel {F A E X} iterations s.

(** ** Replay sessions and stand-in collaborators *)
Section Sessions.
Context {F : Type} `{Scalar F}.

(** A state dictionary for a given epoch (the other entries are not read by
    the agents). *)
Definition state_at (e : F) : @State F :=
  mkState (mkCoord [] []) f_zero e f_zero.

(** A replay session with per-call detail: for each state, the action
    returned and whether that call printed the maneuver line. *)
Fixpoint replay (states : list (@State F)) (h : @Heap F)
    : list (@Action F * bool) * @Heap F :=
  match states with
  | [] => ([], h)
  | s :: rest =>
      let '(a, h1) :=
        TableAgent_get_action (mkHeap (self_table h) s (stdout h)) in
      let '(log, h2) := replay rest h1 in
      ((a, Nat.ltb (fires h) (fires h1)) :: log, h2)
  end.

Definition fire_count (log : list (@Action F * bool)) : nat :=
  List.length (filter snd log).

(** Every row's epoch is strictly below [e]. *)
Definition exceeds_all (t : @Table F) (e : F) : bool :=
  forallb (fun r => f_ltb (row_epoch r) e) t.

(** Row epochs strictly increase down the table. *)
Fixpoint strictly_increasing (t : @Table F) : bool :=
  match t with
  | r1 :: ((r2 :: _) as rest) =>
      f_ltb (row_epoch r1) (row_epoch r2) && strictly_increasing rest
  | _ => true
  end.

(** [TableAgent] behind the Policy Port: the table is the agent's state. *)
#[export] Instance TableAgent_policy : Policy (@Table F) := {
  get_action s t :=
    let '(a, h) := TableAgent_get_action (mkHeap t s []) in (a, self_table h)
}.

(** [Agent] behind the Policy Port. *)
#[export] Instance Agent_policy : Policy unit := {
  get_action s u := (Agent_get_action s, u)
}.

(** A scripted environment, used to run the loop on concrete inputs: it
    remembers the epoch it was propagated to, asks for an action from
    [sc_next] on, and answers [act] with [sc_verdict]. *)
Record Scripted : Type := mkScripted {
  sc_start : F; sc_end : F; sc_now : F; sc_next : F;
  sc_verdict : option string; sc_reward : F;
  sc_debris : list SpaceObject
}.

#[export] Instance Scripted_environment : Environment Scripted := {
  init_start_time := sc_start;
  init_end_time := sc_end;
  propagate_forward t _ e :=
    mkScripted (sc_start e) (sc_end e) t (sc_next e) (sc_verdict e)
               (sc_reward e) (sc_debris e);
  get_next_action e := (sc_next e, e);
  get_state e := (state_at (sc_now e), e);
  get_reward e := (sc_reward e, e);
  act _ e := (sc_verdict e, e);
  get_fuel_consumption e := (f_zero, e);
  get_trajectory_deviation e := (f_zero, e);
  get_collision_probability e := (f_zero, e);
  total_collision_probability _ := f_zero;
  reward := sc_reward;
  reward_components _ := (f_zero, f_zero, f_zero);
  last_r_p_update := sc_now;
  debris := sc_debris
}.

(** The loop's clock on its own: the number of times the test
    [curr_time <= end_time] succeeds when [step] is added after each
    success, within [fuel] tests. *)
Fixpoint ticks (fuel : nat) (t end_t step : F) : option nat :=
  match fuel with
  | O => None
  | S fuel' =>
      if f_leb t end_t
      then option_map S (ticks fuel' (f_add t step) end_t step)
      else Some O
  end.

(** Number of passes through the body within [fuel] tests, when the body
    does not raise. *)
Definition passes (fuel : nat) (t end_t step : F) : nat :=
  match ticks fuel t end_t step with Some n => n | None => fuel end.

(** Reading a journal for the decision check.  [Gate] remembers the epoch
    handed to the latest [propagate_forward] call and the answer of the
    [get_next_action] call that followed it; a call of [get_state],
    [get_action] or [act] is in order only if that epoch is [>=] that
    answer.  [audit] reads a journal (newest entry first) from its oldest
    entry on, and gives [None] as soon as a call is out of order. *)
Record Gate : Type := mkGate { g_epoch : option F; g_next : option F }.
Definition gate_open (g : Gate) : bool :=
  match g_epoch g, g_next g with
  | Some t, Some n => f_geb t n
  | _, _ => false
  end.
Definition gate_step (g : Gate) (ev : @Event F) : option Gate :=
  match ev with
  | Call_propagate_forward t _ => Some (mkGate (Some t) None)
  | Call_get_next_action n => Some (mkGate (g_epoch g) (Some n))
  | Call_get_state _ | Call_get_action _ _ | Call_act _ _ =>
      if gate_open g then Some g else None
  | _ => Some g
  end.
Fixpoint audit (j : list (@Event F)) : option Gate :=
  match j with
  | [] => Some (mkGate None None)
  | ev :: older =>
      match audit older with
      | Some g => gate_step g ev
      | None => None
      end
  end.

(** The exception, if any, that one frame of the visualisation raises. *)
Definition frame_exn (visualize : bool) (update_r_p_step : option Z)
    : option Exn :=
  if visualize then
    match update_r_p_step with
    | None => Some TypeError
    | Some 0 => Some ZeroDivisionError
    | Some _ => None
    end
  else None.

(** The course of an execution as the clock and the visualisation settings
    alone determine it. *)
Definition schedule (fuel : nat) (step : F) (visualize : bool)
    (update_r_p_step : option Z) (t end_t : F) : Kind * Z * nat * nat :=
  match frame_exn visualize update_r_p_step with
  | Some e =>
      match fuel with
      | O => (Unfinished, 0, O, O)
      | S _ => if f_leb t end_t then (Failed e, 0, 1%nat, 1%nat)
               else (Completed, 0, O, O)
      end
  | None =>
      match ticks fuel t end_t step with
      | Some n => (Completed, Z.of_nat n, n, n)
      | None => (Unfinished, Z.of_nat fuel, fuel, fuel)
      end
  end.

End Sessions.

(** The closed form the specification gives for the number of iterations,
    [ceil((end_epoch - start_epoch) / step) + 1], on exact values. *)
Definition spec_iterations (start_epoch end_epoch step : Q) : Z :=
  Qceiling ((end_epoch - start_epoch) / step) + 1.

(** The closed form that holds: [floor((end_epoch - start_epoch) / step) + 1]. *)
Definition floor_iterations (start_epoch end_epoch step : Q) : Z :=
  Qfloor ((end_epoch - start_epoch) / step) + 1.

(** ** Concrete inputs *)

(** *** Tables and polls (binary64) *)

(** The single-row table [(6600.0, 1.0, 0.0, 0.0)]. *)
Definition table_6600 : @Table spec_float :=
  [mkRow (f_decimal 66000 1) (f_decimal 10 1) f_zero f_zero].

(** Polls at epochs 5999.9, 6600.0 and 6600.0001. *)
Definition polls_6600 : list (@State spec_float) :=
  [state_at (f_decimal 59999 1); state_at (f_decimal 66000 1);
   state_at (f_decimal 66000001 4)].

(** A two-row table with epochs 1.0 and 2.0, polled at epochs 0.0 and 5.0. *)
Definition table_1_2 : @Table spec_float :=
  [mkRow (f_decimal 1 0) (f_decimal 10 1) f_zero f_zero;
   mkRow (f_decimal 2 0) f_zero (f_decimal 10 1) f_zero].
Definition polls_0_5 : list (@State spec_float) :=
  [state_at (f_decimal 0 0); state_at (f_decimal 5 0)].

(** *** Sessions on the scripted environment *)

(** Two debris objects. *)
Definition two_debris : list SpaceObject := ["DEBRIS1"; "DEBRIS2"]%string.

(** A session from 6599.95 to 6600.05 whose environment asks for an action
    from [next] on and answers [act] with [verdict]; the agent replays
    [table_6600]. *)
Definition session (next : spec_float) (verdict : option string)
    (update_r_p_step : option Z) : @Simulator spec_float (@Table spec_float) Scripted :=
  Simulator_init table_6600
    (mkScripted (f_decimal 659995 2) (f_decimal 660005 2)
                (f_decimal 659995 2) next verdict f_zero two_debris)
    update_r_p_step false.

(** The same with the two epochs exchanged: [end_time < start_time]. *)
Definition backwards_session
    : @Simulator spec_float (@Table spec_float) Scripted :=
  Simulator_init table_6600
    (mkScripted (f_decimal 660005 2) (f_decimal 659995 2)
                (f_decimal 660005 2) (f_decimal 660005 2) None f_zero
                two_debris)
    None false.

(** A session from 0.0 to 0.75. *)
Definition short_session : @Simulator spec_float unit Scripted :=
  Simulator_init tt
    (mkScripted (f_decimal 0 0) (f_decimal 75 2) (f_decimal 0 0)
                (f_decimal 0 0) None f_zero two_debris)
    None false.

(** ** Further readings of a journal, a replay and the log records *)
Section Coverage.
Context {F : Type} `{Scalar F}.

(** Length of the longest run of rows, from the top of the table, whose
    epoch has been reached at [e]. *)
Fixpoint due_prefix (e : F) (t : @Table F) : nat :=
  match t with
  | row :: rest => if f_geb e (row_epoch row) then S (due_prefix e rest) else O
  | [] => O
  end.

(** The epochs handed to [propagate_forward], in call order. *)
Fixpoint propagated (j : list (@Event F)) : list F :=
  match j with
  | Call_propagate_forward t _ :: older => propagated older ++ [t]
  | _ :: older => propagated older
  | [] => []
  end.

(** The clock after [n] additions of [step], and the [n] values it takes
    before them. *)
Fixpoint clock_after (n : nat) (t step : F) : F :=
  match n with
  | O => t
  | S n' => clock_after n' (f_add t step) step
  end.
Fixpoint clock_seq (n : nat) (t step : F) : list F :=
  match n with
  | O => []
  | S n' => t :: clock_seq n' (f_add t step) step
  end.

(** Classes of journal entries. *)
Definition is_get_state (ev : @Event F) : bool :=
  match ev with Call_get_state _ => true | _ => false end.
Definition is_get_action (ev : @Event F) : bool :=
  match ev with Call_get_action _ _ => true | _ => false end.
Definition is_act (ev : @Event F) : bool :=
  match ev with Call_act _ _ => true | _ => false end.
Definition is_rejection (ev : @Event F) : bool :=
  match ev with Call_act _ (Some (String _ _)) => true | _ => false end.
Definition is_bad_action (ev : @Event F) : bool :=
  match ev with Log_bad_action _ _ _ _ => true | _ => false end.
Definition is_reward_action (ev : @Event F) : bool :=
  match ev with Log_reward_action _ _ _ => true | _ => false end.
Definition is_get_next_action (ev : @Event F) : bool :=
  match ev with Call_get_next_action _ => true | _ => false end.
Definition is_protected_position (ev : @Event F) : bool :=
  match ev with Log_protected_position _ => true | _ => false end.
Definition is_debris_positions (ev : @Event F) : bool :=
  match ev with Log_debris_positions _ _ => true | _ => false end.
Definition is_drawing (ev : @Event F) : bool :=
  match ev with
  | Vis_new | Vis_run | Plot_protected _ | Plot_debris _ _ | Plot_earth
  | Plot_prob_fuel_reward _ _ _ _ | Pause_and_clear
  | Plot_iteration _ _ _ _ _ _ _ => true
  | _ => false
  end.
Definition is_report_getter (ev : @Event F) : bool :=
  match ev with
  | Call_get_fuel_consumption _ | Call_get_trajectory_deviation _
  | Call_get_collision_probability _ => true
  | _ => false
  end.

(** The state an outcome leaves, returned or raised. *)
Definition after {A E X : Type} (o : @Outcome F A E X) : @Simulator F A E :=
  match o with Ok _ s => s | Raise _ s => s end.

(** 1 for an execution that returned, 0 otherwise. *)
Definition returns {A E X : Type} (r : @Run F A E X) : nat :=
  match r with Done _ _ _ => 1 | _ => 0 end.

(** Number of [i] in [0, n) with [i % k == 0], for [k <> 0] and [n >= 0]. *)
Definition samples (k n : Z) : Z := (n + Z.abs k - 1) / Z.abs k.

(** Length of a telemetry series ([None] before the first visualised run). *)
Definition series_length (l : option (list F)) : option nat :=
  option_map (@List.length F) l.

(** [polls_balanced j]: the journal [j] has as many [get_state] calls as
    [get_action] calls, as [act] calls and as reward records, and as many
    bad-action warnings as [act] calls answered with a non-empty string. *)
Definition polls_balanced (j : list (@Event F)) : Prop :=
  count is_get_state j = count is_get_action j /\
  count is_get_action j = count is_act j /\
  count is_act j = count is_reward_action j /\
  count is_bad_action j = count is_rejection j.

(** [telemetry_level j x]: the journal [j] has as many [get_next_action]
    calls and iteration records as [propagate_forward] calls, and [x] more
    protected-position records.  [debris_level n j]: it has [n] debris
    records for each [propagate_forward] call. *)
Definition telemetry_level (j : list (@Event F)) (x : nat) : Prop :=
  count is_get_next_action j = count is_propagate j /\
  count is_log_iteration j = count is_propagate j /\
  count is_protected_position j = (count is_propagate j + x)%nat.
Definition debris_level (n : nat) (j : list (@Event F)) : Prop :=
  count is_debris_positions j = (n * count is_propagate j)%nat.

(** [debris_steady E]: no method of the environment changes the number of
    objects in its [debris] list. *)
Definition debris_steady (E : Type) `{@Environment F E} : Prop :=
  forall e : E,
    let n := List.length (debris e) in
    (forall t ups, List.length (debris (propagate_forward t ups e)) = n) /\
    List.length (debris (snd (get_next_action e))) = n /\
    List.length (debris (snd (get_state e))) = n /\
    List.length (debris (snd (get_reward e))) = n /\
    (forall a, List.length (debris (snd (act a e))) = n) /\
    List.length (debris (snd (get_fuel_consumption e))) = n /\
    List.length (debris (snd (get_trajectory_deviation e))) = n /\
    List.length (debris (snd (get_collision_probability e))) = n.

(** [same_settings s0 s]: [s] has the start and end epochs, [print_out] and
    [update_r_p_step] of [s0].  [undrawn s0 s]: it also has its visualiser
    and telemetry series, and no more drawing requests in its journal. *)
Definition same_settings {A E : Type} (s0 s : @Simulator F A E) : Prop :=
  start_time s = start_time s0 /\ end_time s = end_time s0 /\
  print_out s = print_out s0 /\ update_r_p_step s = update_r_p_step s0.
Definition undrawn {A E : Type} (s0 s : @Simulator F A E) : Prop :=
  vis s = vis s0 /\ time_arr s = time_arr s0 /\ prob_arr s = prob_arr s0 /\
  fuel_cons_arr s = fuel_cons_arr s0 /\ reward_arr s = reward_arr s0 /\
  count is_drawing (journal s) = count is_drawing (journal s0).

(** The four series after [i] passes of a visualised run with
    [update_r_p_step = k]: equally long, one entry from the prologue and one
    for each pass whose number is a multiple of [k]; the time series starts
    with the start epoch [t0], twice once a pass is made. *)
Definition series_at {A E : Type} (k : Z) (t0 : F) (i : Z)
    (s : @Simulator F A E) : Prop :=
  0 <= i /\ update_r_p_step s = Some k /\
  exists ta pa fa ra : list F,
    time_arr s = Some ta /\ prob_arr s = Some pa /\
    fuel_cons_arr s = Some fa /\ reward_arr s = Some ra /\
    List.length ta = S (Z.to_nat (samples k i)) /\
    List.length pa = List.length ta /\
    List.length fa = List.length ta /\
    List.length ra = List.length ta /\
    (i = 0 -> ta = [t0] /\ curr_time s = t0) /\
    (0 < i -> exists rest, ta = t0 :: t0 :: rest).

(** [threaded j]: in the journal [j] (newest entry first) every [act] call
    comes right after a [get_reward] call, itself right after the
    [get_action] call that returned the action given to [act], itself right
    after the [get_state] call that returned the state given to
    [get_action]. *)
Fixpoint threaded (j : list (@Event F)) : Prop :=
  match j with
  | [] => True
  | Call_act a _ :: older =>
      match older with
      | Call_get_reward _ :: Call_get_action st a' :: Call_get_state st' :: _ =>
          a' = a /\ st' = st
      | _ => False
      end /\ threaded older
  | _ :: older => threaded older
  end.

(** *** The text of the log records *)

(** A value handed to [str.format]. *)
Inductive Value : Type :=
| V_int (z : Z)
| V_float (x : F)
| V_str (s : string).

(** [str.format] on a text with [fields] automatically numbered fields
    and the positional arguments [args]: field [i] shows [args[i]];
    arguments beyond the fields are ignored, and a missing argument raises
    [IndexError] ([None]). *)
Definition format_fields (fields : nat) (args : list Value)
    : option (list Value) :=
  if Nat.ltb (List.length args) fields then None
  else Some (firstn fields args).

(** [*action]: the five entries of the array. *)
Definition unpack (action : @Action F) : list Value :=
  [V_float (dVx action); V_float (dVy action); V_float (dVz action);
   V_float (maneuver_epoch action); V_float (time_to_req action)].

(** The six fields of the text of [log_reward_action], each named by the
    words that precede it there. *)
Definition reward_action_labels : list string :=
  ["Iter"; "Reward"; "dVx"; "dVy"; "dVz"; "time_to_request"]%string.

(** [log_reward_action]: the arguments are [iteration], [reward] and the
    unpacked [action]. *)
Definition reward_action_text (iteration : Z) (reward : F)
    (action : @Action F) : option (list (string * Value)) :=
  option_map (combine reward_action_labels)
    (format_fields 6 (V_int iteration :: V_float reward :: unpack action)).

(** The four fields of the text of [log_bad_action]. *)
Definition bad_action_labels : list string :=
  ["dVx"; "dVy"; "dVz"; "reason"]%string.

(** [log_bad_action]:
    [.format(action[0], action[1], action[2], message)]. *)
Definition bad_action_text (message : string) (action : @Action F)
    : option (list (string * Value)) :=
  option_map (combine bad_action_labels)
    (format_fields 4 [V_float (dVx action); V_float (dVy action);
                      V_float (dVz action); V_str message]).

End Coverage.

Arguments debris_steady {F} E {_}.

(** ** The training scripts *)

(** [str.lower] on the characters A-Z (the other bytes are kept, and none of
    them lowers to one of the letters of ["true"]). *)
Definition lower_ascii (c : Ascii.ascii) : Ascii.ascii :=
  let n := Ascii.nat_of_ascii c in
  if (Nat.leb 65 n && Nat.leb n 90)%bool then Ascii.ascii_of_nat (n + 32)
  else c.
Fixpoint lower (s : string) : string :=
  match s with
  | EmptyString => EmptyString
  | String c rest => String (lower_ascii c) (lower rest)
  end.

(** [print_out = args.print_out.lower() == "true"], in both scripts. *)
Definition parse_print_out (arg : string) : bool :=
  String.eqb (lower arg) "true".

(** *** Further tables, polls and sessions *)

(** A table whose first row, due at 6600.0, has three zero deltas. *)
Definition table_zero_deltas : @Table spec_float :=
  [mkRow (f_decimal 66000 1) f_zero f_zero f_zero;
   mkRow (f_decimal 67000 1) (f_decimal 10 1) f_zero f_zero].

(** The table with a row due at 2.0 in front of a row due at 1.0, and three
    polls at 1.5. *)
Definition table_2_1 : @Table spec_float :=
  [mkRow (f_decimal 2 0) (f_decimal 10 1) f_zero f_zero;
   mkRow (f_decimal 1 0) f_zero (f_decimal 10 1) f_zero].
Definition polls_15 : list (@State spec_float) :=
  [state_at (f_decimal 15 1); state_at (f_decimal 15 1);
   state_at (f_decimal 15 1)].

(** A session from 6600.0 to 6600.05 on which [table_6600] is due at once,
    and whose environment answers [act] with [verdict]. *)
Definition late_session (verdict : option string)
    : @Simulator spec_float (@Table spec_float) Scripted :=
  Simulator_init table_6600
    (mkScripted (f_decimal 66000 1) (f_decimal 660005 2)
                (f_decimal 66000 1) (f_decimal 66000 1) verdict f_zero
                two_debris)
    None false.

(** * Properties *)

(** ** Order laws of binary64 *)
Module B64Facts.
Lemma compare_antisym (a b : spec_float) :
  SFcompare b a = option_map CompOpp (SFcompare a b).
Proof.
  destruct a as [sa|sa| |sa ma ea], b as [sb|sb| |sb mb eb]; simpl;
    try reflexivity; try (destruct sa; reflexivity);
    try (destruct sb; reflexivity);
    try (destruct sa, sb; reflexivity).
  destruct sa, sb; simpl; try reflexivity;
    rewrite (Z.compare_antisym ea eb);
    destruct (ea ?= eb)%Z; simpl; try reflexivity;
    rewrite (Pos.compare_cont_antisym ma mb Eq); simpl;
    try rewrite CompOpp_involutive; reflexivity.
Qed.
End B64Facts.

#[export] Instance binary64_order : ScalarOrder spec_float.
Proof.
  split; intros a b; unfold f_geb; simpl; unfold SFltb, SFleb.
  - destruct (SFcompare a b) as [[ | | ]|]; congruence.
  - rewrite (B64Facts.compare_antisym a b).
    destruct (SFcompare a b) as [[ | | ]|]; simpl; congruence.
Qed.

(** ** The addition of binary64 *)
Unset Implicit Arguments.
Module RoundingFacts.
Import Rounding.
Lemma fexp_eq (e : Z) : fexp64 e = Z.max (e - 53) (-1074).
Proof. reflexivity. Qed.

Lemma digits_bounds (p : positive) :
  2 ^ (Zpos (digits2_pos p) - 1) <= Zpos p < 2 ^ Zpos (digits2_pos p).
Proof.
  induction p as [p IH|p IH|]; cbn [digits2_pos].
  - rewrite Pos2Z.inj_succ. replace (Z.succ (Zpos (digits2_pos p)) - 1)
      with (Z.succ (Zpos (digits2_pos p) - 1)) by lia.
    rewrite !Z.pow_succ_r by lia. lia.
  - rewrite Pos2Z.inj_succ. replace (Z.succ (Zpos (digits2_pos p)) - 1)
      with (Z.succ (Zpos (digits2_pos p) - 1)) by lia.
    rewrite !Z.pow_succ_r by lia. lia.
  - simpl. lia.
Qed.

Lemma digits_unique (p : positive) (d : Z) :
  2 ^ (d - 1) <= Zpos p < 2 ^ d -> Zpos (digits2_pos p) = d.
Proof.
  intros [Hlo Hhi]. pose proof (digits_bounds p) as [Blo Bhi].
  set (d' := Zpos (digits2_pos p)) in *.
  assert (Hd : 0 < d).
  { destruct (Z_lt_le_dec 0 d) as [|Hle]; [assumption|].
    exfalso. destruct (Z.eq_dec d 0) as [->|Hn].
    - simpl in Hhi. lia.
    - rewrite Z.pow_neg_r in Hhi by lia. lia. }
  destruct (Z.lt_trichotomy d' d) as [Hlt|[Heq|Hgt]]; [|assumption|].
  - exfalso. assert (2 ^ d' <= 2 ^ (d - 1)) by (apply Z.pow_le_mono_r; lia).
    lia.
  - exfalso. assert (2 ^ d <= 2 ^ (d' - 1)) by (apply Z.pow_le_mono_r; lia).
    lia.
Qed.

Lemma digits_pos (p : positive) : 0 < Zpos (digits2_pos p).
Proof. lia. Qed.

(** Digits are monotone. *)
Lemma digits_le (p q : positive) :
  Zpos p <= Zpos q -> Zpos (digits2_pos p) <= Zpos (digits2_pos q).
Proof.
  intros Hle. pose proof (digits_bounds p) as [Plo _].
  pose proof (digits_bounds q) as [_ Qhi].
  destruct (Z_le_gt_dec (Zpos (digits2_pos p)) (Zpos (digits2_pos q)))
    as [|Hgt]; [assumption|exfalso].
  assert (2 ^ Zpos (digits2_pos q) <= 2 ^ (Zpos (digits2_pos p) - 1))
    by (apply Z.pow_le_mono_r; lia).
  lia.
Qed.

Lemma digits_shift (p q : positive) (k : Z) :
  0 <= k -> Zpos q = Zpos p * 2 ^ k ->
  Zpos (digits2_pos q) = Zpos (digits2_pos p) + k.
Proof.
  intros Hk Hq. apply digits_unique. rewrite Hq.
  pose proof (digits_bounds p) as [Plo Phi].
  replace (Zpos (digits2_pos p) + k - 1)
    with ((Zpos (digits2_pos p) - 1) + k) by lia.
  rewrite !Z.pow_add_r by lia.
  assert (0 < 2 ^ k) by (apply Z.pow_pos_nonneg; lia).
  split; nia.
Qed.

Lemma iter_xO (p d : positive) :
  Zpos (Pos.iter xO p d) = Zpos p * 2 ^ Zpos d.
Proof.
  induction d as [|d IH] using Pos.peano_ind.
  - simpl. lia.
  - rewrite Pos.iter_succ, Pos2Z.inj_succ, Z.pow_succ_r by lia.
    rewrite Pos2Z.inj_xO, IH. lia.
Qed.

(** *** Shifting right *)

Lemma shr_1_inv (N k : Z) (mrs : shr_record) :
  0 <= k -> shr_inv N k mrs -> shr_inv N (k + 1) (shr_1 mrs).
Proof.
  intros Hk (Hm & R & HN & HR & Hex). unfold shr_inv.
  destruct mrs as [m r s]. cbn [shr_m shr_r shr_s] in *.
  rewrite Z.pow_add_r by lia. change (2 ^ 1) with 2.
  assert (Hp : 0 < 2 ^ k) by (apply Z.pow_pos_nonneg; lia).
  assert (Hfin : forall m' r' R',
            0 <= m' -> N = m' * (2 ^ k * 2) + R' -> 0 <= R' < 2 ^ k * 2 ->
            (R' = 0 -> r' = false /\ R = 0) ->
            0 <= m' /\
            exists R0, N = m' * (2 ^ k * 2) + R0 /\ 0 <= R0 < 2 ^ k * 2 /\
                       (R0 = 0 -> r' = false /\ (r || s)%bool = false)).
  { intros m' r' R' Hm' HN' HR' Hex'. split; [assumption|].
    exists R'. repeat split; try lia.
    - apply Hex'; assumption.
    - destruct (Hex' H) as [_ HR0]. destruct (Hex HR0) as [-> ->].
      reflexivity. }
  destruct m as [|[p|p|]|p]; cbn [shr_1 shr_m shr_r shr_s]; try lia.
  - apply (Hfin 0 false R); try lia; auto.
  - apply (Hfin (Zpos p) true (2 ^ k + R)); try lia.
  - apply (Hfin (Zpos p) false R); try lia; auto.
  - apply (Hfin 0 true (2 ^ k + R)); try lia.
Qed.

Lemma iter_shr_inv (N : Z) (p : positive) :
  forall (mrs : shr_record) (k : Z),
    0 <= k -> shr_inv N k mrs ->
    shr_inv N (k + Zpos p) (iter_pos shr_1 p mrs).
Proof.
  induction p as [p IH|p IH|]; intros mrs k Hk Hinv; cbn [iter_pos].
  - replace (k + Zpos p~1) with (((k + 1) + Zpos p) + Zpos p) by lia.
    apply IH; [lia|]. apply IH; [lia|]. now apply shr_1_inv.
  - replace (k + Zpos p~0) with ((k + Zpos p) + Zpos p) by lia.
    apply IH; [lia|]. now apply IH.
  - now apply shr_1_inv.
Qed.


(** *** After the rounding: the renormalisation and the overflow test *)
Lemma finish_zero (s : bool) (e1 : Z) :
  -1074 <= e1 -> finish s 0 e1 = S754_zero s.
Proof.
  intros He. unfold finish, shr_fexp, shr. cbn [Zdigits2 shr_record_of_loc].
  destruct (fexp B64.prec B64.emax (0 + e1) - e1) eqn:Hd; try reflexivity.
  exfalso. change (fexp B64.prec B64.emax (0 + e1)) with (fexp64 (0 + e1)) in Hd.
  rewrite fexp_eq in Hd. lia.
Qed.

Lemma finish_small (s : bool) (p : positive) (e1 : Z) :
  -1074 <= e1 -> Zpos p < 2 ^ 53 -> (-1074 < e1 -> 2 ^ 52 <= Zpos p) ->
  canonical_mantissa B64.prec B64.emax p e1 = true /\
  finish s (Zpos p) e1 =
    if e1 <=? B64.emax - B64.prec then S754_finite s p e1
    else S754_infinity s.
Proof.
  intros He Hp Hn.
  assert (Hf : fexp64 (Zpos (digits2_pos p) + e1) = e1).
  { rewrite fexp_eq. pose proof (digits_bounds p) as [Blo Bhi].
    destruct (Z_lt_le_dec (-1074) e1) as [Hlt|Hle].
    - rewrite (digits_unique p 53); [lia|]. split; [apply Hn; lia|exact Hp].
    - assert (Zpos (digits2_pos p) <= 53); [|lia].
      destruct (Z_le_gt_dec (Zpos (digits2_pos p)) 53) as [|Hgt];
        [assumption|exfalso].
      assert (2 ^ 53 <= 2 ^ (Zpos (digits2_pos p) - 1))
        by (apply Z.pow_le_mono_r; lia).
      lia. }
  split.
  - unfold canonical_mantissa.
    change (fexp B64.prec B64.emax) with fexp64. rewrite Hf. apply Z.eqb_refl.
  - unfold finish, shr_fexp, shr. cbn [Zdigits2 shr_record_of_loc].
    change (fexp B64.prec B64.emax) with fexp64. rewrite Hf, Z.sub_diag.
    reflexivity.
Qed.

Lemma finish_carry (s : bool) (e1 : Z) :
  -1074 <= e1 ->
  canonical_mantissa B64.prec B64.emax 4503599627370496 (e1 + 1) = true /\
  finish s (2 ^ 53) e1 =
    if e1 + 1 <=? B64.emax - B64.prec
    then S754_finite s 4503599627370496 (e1 + 1)
    else S754_infinity s.
Proof.
  intros He. split.
  - unfold canonical_mantissa. change (fexp B64.prec B64.emax) with fexp64.
    rewrite fexp_eq. change (Zpos (digits2_pos 4503599627370496)) with 53.
    apply Z.eqb_eq. lia.
  - change (2 ^ 53) with 9007199254740992.
    unfold finish, shr_fexp, shr. cbn [Zdigits2 shr_record_of_loc].
    change (fexp B64.prec B64.emax) with fexp64. rewrite fexp_eq.
    change (Zpos (digits2_pos 9007199254740992)) with 54.
    replace (Z.max (54 + e1 - 53) (-1074) - e1) with 1 by lia.
    reflexivity.
Qed.

(** *** The rounding itself *)

Lemma round_nearest_even_cases (m : Z) (mrs : shr_record) :
  let m2 := round_nearest_even m (loc_of_shr_record mrs) in
  m <= m2 <= m + 1 /\
  (shr_r mrs = false /\ shr_s mrs = false -> m2 = m).
Proof.
  destruct mrs as [m0 [] []]; cbn [loc_of_shr_record round_nearest_even shr_r shr_s].
  - split; [lia|]. intros [H _]. discriminate.
  - split; [destruct (Z.even m); lia|]. intros [H _]. discriminate.
  - split; [lia|]. intros [_ H]. discriminate.
  - split; [lia|]. reflexivity.
Qed.

(** [binary_round_aux] on an exact input whose exponent is at most the
    target exponent [e1]: the mantissa is divided by [2 ^ (e1 - ez)] and
    rounded to a neighbour, to the quotient itself when the division is
    exact. *)
Lemma aux_spec (s : bool) (mz : positive) (ez : Z) :
  let e1 := fexp64 (Zpos (digits2_pos mz) + ez) in
  ez <= e1 ->
  exists m1 m2 R,
    Zpos mz = m1 * 2 ^ (e1 - ez) + R /\ 0 <= R < 2 ^ (e1 - ez) /\
    0 <= m1 /\ m1 <= m2 <= m1 + 1 /\ (R = 0 -> m2 = m1) /\
    binary_round_aux B64.prec B64.emax s (Zpos mz) ez loc_Exact =
      finish s m2 e1.
Proof.
  intros e1 Hle.
  unfold binary_round_aux, shr_fexp. cbn [Zdigits2 shr_record_of_loc].
  change (fexp B64.prec B64.emax (Zpos (digits2_pos mz) + ez)) with e1.
  destruct (e1 - ez) as [|p|p] eqn:Hk; [| |lia].
  - cbn [shr shr_m loc_of_shr_record round_nearest_even].
    exists (Zpos mz), (Zpos mz), 0.
    replace e1 with ez by lia. simpl. repeat split; try lia.
  - cbn [shr].
    assert (Hinv : shr_inv (Zpos mz) (0 + Zpos p)
                     (iter_pos shr_1 p
                        {| shr_m := Zpos mz; shr_r := false; shr_s := false |})).
    { apply iter_shr_inv; [lia|]. split; [simpl; lia|].
      exists 0. simpl. repeat split; lia. }
    rewrite Z.add_0_l in Hinv.
    destruct Hinv as (Hm & R & HN & HR & Hex).
    set (mrs := iter_pos shr_1 p _) in *.
    pose proof (round_nearest_even_cases (shr_m mrs) mrs) as [Hb Hexact].
    exists (shr_m mrs), (round_nearest_even (shr_m mrs) (loc_of_shr_record mrs)), R.
    replace (ez + Zpos p) with e1 by lia.
    repeat split; try lia; try assumption.
    intros HR0. apply Hexact. apply Hex. exact HR0.
Qed.

(** [binary_round]: the same, from any exponent. *)
Lemma round_spec (s : bool) (mx : positive) (ex : Z) :
  let e1 := fexp64 (Zpos (digits2_pos mx) + ex) in
  let b := Z.min ex e1 in
  exists m1 m2 R,
    Zpos mx * 2 ^ (ex - b) = m1 * 2 ^ (e1 - b) + R /\
    0 <= R < 2 ^ (e1 - b) /\
    0 <= m1 /\ m1 <= m2 <= m1 + 1 /\ (R = 0 -> m2 = m1) /\
    binary_round B64.prec B64.emax s mx ex = finish s m2 e1.
Proof.
  intros e1 b. unfold binary_round, shl_align.
  change (fexp B64.prec B64.emax (Zpos (digits2_pos mx) + ex)) with e1.
  destruct (e1 - ex) as [|p|p] eqn:Hk.
  - destruct (aux_spec s mx ex) as (m1 & m2 & R & H1 & H2 & H3 & H4 & H5 & H6).
    { fold e1. lia. }
    fold e1 in H1, H2, H6. exists m1, m2, R.
    replace b with ex by (unfold b; lia). rewrite Z.sub_diag, Z.mul_1_r.
    repeat split; try lia; assumption.
  - destruct (aux_spec s mx ex) as (m1 & m2 & R & H1 & H2 & H3 & H4 & H5 & H6).
    { fold e1. lia. }
    fold e1 in H1, H2, H6. exists m1, m2, R.
    replace b with ex by (unfold b; lia). rewrite Z.sub_diag, Z.mul_1_r.
    repeat split; try lia; assumption.
  - pose proof (iter_xO mx p) as Hz.
    assert (Hd : Zpos (digits2_pos (Pos.iter xO mx p)) =
                 Zpos (digits2_pos mx) + Zpos p)
      by (apply digits_shift; [lia | exact Hz]).
    destruct (aux_spec s (Pos.iter xO mx p) e1)
      as (m1 & m2 & R & H1 & H2 & H3 & H4 & H5 & H6).
    { rewrite Hd. replace (Zpos (digits2_pos mx) + Zpos p + e1)
        with (Zpos (digits2_pos mx) + ex) by lia. fold e1. lia. }
    rewrite Hd in H1, H2, H6.
    replace (Zpos (digits2_pos mx) + Zpos p + e1)
      with (Zpos (digits2_pos mx) + ex) in H1, H2, H6 by lia.
    fold e1 in H1, H2, H6. rewrite Z.sub_diag in H1, H2.
    exists m1, m2, R. replace b with e1 by (unfold b; lia).
    rewrite Z.sub_diag. replace (ex - e1) with (Zpos p) by lia.
    rewrite <- Hz. repeat split; try lia; assumption.
Qed.

Lemma pow2_pos (k : Z) : 0 <= k -> 0 < 2 ^ k.
Proof. intros Hk. apply Z.pow_pos_nonneg; lia. Qed.

Lemma pow2_split (a b : Z) : 0 <= a -> 0 <= b -> 2 ^ (a + b) = 2 ^ a * 2 ^ b.
Proof. intros Ha Hb. apply Z.pow_add_r; assumption. Qed.

(** The rounded mantissa fits the format. *)
Lemma round_bounds (mx : positive) (ex m1 R : Z) :
  let e1 := fexp64 (Zpos (digits2_pos mx) + ex) in
  let b := Z.min ex e1 in
  Zpos mx * 2 ^ (ex - b) = m1 * 2 ^ (e1 - b) + R ->
  0 <= R < 2 ^ (e1 - b) -> 0 <= m1 ->
  -1074 <= e1 /\ m1 < 2 ^ 53 /\ (-1074 < e1 -> 2 ^ 52 <= m1).
Proof.
  intros e1 b Hv HR Hm1.
  pose proof (digits_bounds mx) as [Blo Bhi].
  set (dx := Zpos (digits2_pos mx)) in *.
  assert (Hdx : 0 < dx) by (unfold dx; lia).
  assert (He1 : e1 = Z.max (dx + ex - 53) (-1074)) by apply fexp_eq.
  assert (Hb1 : b <= ex) by (unfold b; lia).
  assert (Hb2 : b <= e1) by (unfold b; lia).
  pose proof (pow2_pos (e1 - b) ltac:(lia)) as HP.
  pose proof (pow2_pos (ex - b) ltac:(lia)) as HQ.
  set (P := 2 ^ (e1 - b)) in *. set (Q := 2 ^ (ex - b)) in *.
  split; [lia|]. split.
  - assert (Hle : 2 ^ dx * Q <= 2 ^ 53 * P).
    { unfold P, Q. rewrite <- !pow2_split by lia.
      apply Z.pow_le_mono_r; lia. }
    nia.
  - intros Hn.
    assert (Heq : 2 ^ (dx - 1) * Q = 2 ^ 52 * P).
    { unfold P, Q. rewrite <- !pow2_split by lia. f_equal. lia. }
    nia.
Qed.

(** What [finish] returns, by the size of the rounded mantissa. *)
Lemma finish_cases (s : bool) (m2 e1 : Z) :
  -1074 <= e1 -> 0 <= m2 <= 2 ^ 53 -> (-1074 < e1 -> 2 ^ 52 <= m2) ->
  (m2 = 0 /\ finish s m2 e1 = S754_zero s) \/
  (exists p, m2 = Zpos p /\ m2 < 2 ^ 53 /\
     canonical_mantissa B64.prec B64.emax p e1 = true /\
     finish s m2 e1 =
       if e1 <=? B64.emax - B64.prec then S754_finite s p e1
       else S754_infinity s) \/
  (m2 = 2 ^ 53 /\
   canonical_mantissa B64.prec B64.emax 4503599627370496 (e1 + 1) = true /\
   finish s m2 e1 =
     if e1 + 1 <=? B64.emax - B64.prec
     then S754_finite s 4503599627370496 (e1 + 1)
     else S754_infinity s).
Proof.
  intros He Hm Hn.
  destruct (Z.eq_dec m2 0) as [->|Hnz].
  - left. split; [reflexivity|]. now apply finish_zero.
  - destruct (Z.eq_dec m2 (2 ^ 53)) as [->|Hnc].
    + right. right. split; [reflexivity|]. now apply finish_carry.
    + right. left. destruct m2 as [|p|p]; try lia.
      exists p. split; [reflexivity|]. split; [lia|].
      apply finish_small; try assumption. lia.
Qed.

Lemma bounded_facts (m0 : positive) (e0 : Z) :
  bounded B64.prec B64.emax m0 e0 = true ->
  fexp64 (Zpos (digits2_pos m0) + e0) = e0 /\ e0 <= 971 /\ -1074 <= e0 /\
  Zpos m0 < 2 ^ 53 /\ (-1074 < e0 -> 2 ^ 52 <= Zpos m0).
Proof.
  unfold bounded, canonical_mantissa. intros Hb.
  apply andb_true_iff in Hb. destruct Hb as [Hc He].
  apply Z.eqb_eq in Hc. apply Z.leb_le in He.
  change (fexp B64.prec B64.emax) with fexp64 in Hc.
  change (B64.emax - B64.prec) with 971 in He.
  pose proof (digits_bounds m0) as [Blo Bhi].
  pose proof Hc as Hf. rewrite fexp_eq in Hf.
  set (d0 := Zpos (digits2_pos m0)) in *.
  split; [exact Hc|]. split; [exact He|]. split; [lia|]. split.
  - assert (2 ^ d0 <= 2 ^ 53) by (apply Z.pow_le_mono_r; lia). lia.
  - intros Hn. replace 52 with (d0 - 1) by lia. exact Blo.
Qed.

(** The result of a rounding is a valid float of the sign asked for. *)
Lemma round_valid (s : bool) (M : positive) (ez : Z) :
  let r := binary_round B64.prec B64.emax s M ez in
  valid_binary B64.prec B64.emax r = true /\
  (r = S754_zero s \/ r = S754_infinity s \/
   exists m e, r = S754_finite s m e).
Proof.
  intros r. subst r.
  destruct (round_spec s M ez) as (m1 & m2 & R & Hv & HR & Hm1 & Hm2 & _ & ->).
  destruct (round_bounds M ez m1 R Hv HR Hm1) as (He1 & Hhi & Hlo).
  assert (Hc1 : 0 <= m2 <= 2 ^ 53) by lia.
  assert (Hc2 : -1074 < fexp64 (Zpos (digits2_pos M) + ez) -> 2 ^ 52 <= m2)
    by (intros Hn; specialize (Hlo Hn); lia).
  destruct (finish_cases s m2 (fexp64 (Zpos (digits2_pos M) + ez))
              He1 Hc1 Hc2)
    as [(_ & ->) | [(p & _ & _ & Hc & ->) | (_ & Hc & ->)]].
  - auto.
  - destruct (_ <=? _) eqn:Ht; cbn [valid_binary].
    + unfold bounded. rewrite Hc, Ht. eauto 6.
    + auto.
  - destruct (_ <=? _) eqn:Ht; cbn [valid_binary].
    + unfold bounded. rewrite Hc, Ht. eauto 6.
    + auto.
Qed.

(** Rounding is monotone against a float of the format: below it ... *)
Lemma round_le (s : bool) (M : positive) (ez : Z) (m0 : positive) (e0 : Z) :
  bounded B64.prec B64.emax m0 e0 = true ->
  ez <= e0 -> Zpos M <= Zpos m0 * 2 ^ (e0 - ez) ->
  let r := binary_round B64.prec B64.emax s M ez in
  r = S754_zero s \/
  exists m3 e3, r = S754_finite s m3 e3 /\
                (e3 < e0 \/ (e3 = e0 /\ Zpos m3 <= Zpos m0)).
Proof.
  intros Hb Hez HM r. subst r.
  destruct (bounded_facts m0 e0 Hb) as (Hc0 & He0 & He0' & Hm0 & Hn0).
  destruct (round_spec s M ez) as (m1 & m2 & R & Hv & HR & Hm1 & Hm2 & Hex & ->).
  destruct (round_bounds M ez m1 R Hv HR Hm1) as (He1 & Hhi & Hlo).
  set (e1 := fexp64 (Zpos (digits2_pos M) + ez)) in *.
  set (b := Z.min ez e1) in *.
  assert (Hb1 : b <= ez) by (unfold b; lia).
  assert (Hb2 : b <= e1) by (unfold b; lia).
  (* the target exponent is at most [e0] *)
  assert (Hle : e1 <= e0).
  { pose proof (digits_bounds M) as [Mlo _].
    pose proof (digits_bounds m0) as [_ Bhi].
    set (dM := Zpos (digits2_pos M)) in *.
    set (d0 := Zpos (digits2_pos m0)) in *.
    assert (Hd : dM + ez <= d0 + e0).
    { destruct (Z_le_gt_dec (dM + ez) (d0 + e0)) as [|Hgt];
        [assumption|exfalso].
      assert (H1 : 2 ^ (d0 + (e0 - ez)) <= 2 ^ (dM - 1))
        by (apply Z.pow_le_mono_r; lia).
      rewrite pow2_split in H1 by (unfold d0; lia).
      pose proof (pow2_pos (e0 - ez) ltac:(lia)). nia. }
    unfold e1. rewrite fexp_eq. rewrite fexp_eq in Hc0. lia. }
  (* the rounded mantissa is at most [m0], scaled to the target exponent *)
  pose proof (pow2_pos (e1 - b) ltac:(lia)) as HP.
  pose proof (pow2_pos (e0 - e1) ltac:(lia)) as HX.
  assert (Hm2le : m2 <= Zpos m0 * 2 ^ (e0 - e1)).
  { assert (Hs1 : 2 ^ (e0 - ez) * 2 ^ (ez - b) =
                  2 ^ (e0 - e1) * 2 ^ (e1 - b)).
    { rewrite <- !pow2_split by lia. f_equal. lia. }
    pose proof (pow2_pos (ez - b) ltac:(lia)) as HQ.
    set (P := 2 ^ (e1 - b)) in *. set (Q := 2 ^ (ez - b)) in *.
    set (X := 2 ^ (e0 - e1)) in *. set (Y := 2 ^ (e0 - ez)) in *.
    assert (H1 : m1 * P + R <= Zpos m0 * X * P) by nia.
    assert (H2 : m1 <= Zpos m0 * X) by nia.
    destruct (Z.eq_dec m1 (Zpos m0 * X)) as [Heq|Hne].
    - rewrite Hex; [lia|]. nia.
    - lia. }
  assert (Hc1 : 0 <= m2 <= 2 ^ 53) by lia.
  assert (Hc2 : -1074 < e1 -> 2 ^ 52 <= m2)
    by (intros Hn; specialize (Hlo Hn); lia).
  destruct (finish_cases s m2 e1 He1 Hc1 Hc2)
    as [(_ & ->) | [(p & Hp & Hlt & Hc & ->) | (H53 & Hc & ->)]].
  - auto.
  - right. replace (e1 <=? B64.emax - B64.prec) with true
      by (symmetry; apply Z.leb_le; change (B64.emax - B64.prec) with 971; lia).
    exists p, e1. split; [reflexivity|].
    destruct (Z.eq_dec e1 e0) as [Heq|Hne]; [right|left; lia].
    split; [exact Heq|]. rewrite Heq, Z.sub_diag in Hm2le. lia.
  - right.
    assert (He : e1 + 1 <= e0).
    { destruct (Z.eq_dec e1 e0) as [Heq|Hne]; [|lia].
      exfalso. rewrite Heq, Z.sub_diag in Hm2le. lia. }
    replace (e1 + 1 <=? B64.emax - B64.prec) with true
      by (symmetry; apply Z.leb_le; change (B64.emax - B64.prec) with 971; lia).
    exists 4503599627370496%positive, (e1 + 1). split; [reflexivity|].
    destruct (Z.eq_dec (e1 + 1) e0) as [Heq|Hne]; [right|left; lia].
    split; [exact Heq|].
    replace (e0 - e1) with 1 in Hm2le by lia.
    change (2 ^ 1) with 2 in Hm2le. change (2 ^ 53) with 9007199254740992 in H53.
    lia.
Qed.

(** ... and above it. *)
Lemma round_ge (s : bool) (M : positive) (ez : Z) (m0 : positive) (e0 : Z) :
  bounded B64.prec B64.emax m0 e0 = true ->
  ez <= e0 -> Zpos m0 * 2 ^ (e0 - ez) <= Zpos M ->
  let r := binary_round B64.prec B64.emax s M ez in
  r = S754_infinity s \/
  exists m3 e3, r = S754_finite s m3 e3 /\
                (e0 < e3 \/ (e3 = e0 /\ Zpos m0 <= Zpos m3)).
Proof.
  intros Hb Hez HM r. subst r.
  destruct (bounded_facts m0 e0 Hb) as (Hc0 & He0 & He0' & Hm0 & Hn0).
  destruct (round_spec s M ez) as (m1 & m2 & R & Hv & HR & Hm1 & Hm2 & Hex & ->).
  destruct (round_bounds M ez m1 R Hv HR Hm1) as (He1 & Hhi & Hlo).
  set (e1 := fexp64 (Zpos (digits2_pos M) + ez)) in *.
  set (b := Z.min ez e1) in *.
  assert (Hb1 : b <= ez) by (unfold b; lia).
  assert (Hb2 : b <= e1) by (unfold b; lia).
  (* the target exponent is at least [e0] *)
  assert (Hle : e0 <= e1).
  { pose proof (digits_bounds M) as [_ Mhi].
    pose proof (digits_bounds m0) as [Blo _].
    set (dM := Zpos (digits2_pos M)) in *.
    set (d0 := Zpos (digits2_pos m0)) in *.
    assert (Hd : d0 + e0 <= dM + ez).
    { destruct (Z_le_gt_dec (d0 + e0) (dM + ez)) as [|Hgt];
        [assumption|exfalso].
      assert (H1 : 2 ^ dM <= 2 ^ ((d0 - 1) + (e0 - ez)))
        by (apply Z.pow_le_mono_r; lia).
      rewrite pow2_split in H1 by (unfold d0; lia).
      pose proof (pow2_pos (e0 - ez) ltac:(lia)). nia. }
    unfold e1. rewrite fexp_eq. rewrite fexp_eq in Hc0. lia. }
  replace b with ez in * by lia. rewrite Z.sub_diag, Z.mul_1_r in Hv.
  (* the quotient is at least [m0] when the exponents agree *)
  assert (Hm1ge : e1 = e0 -> Zpos m0 <= m1).
  { intros Heq. rewrite Heq in *.
    pose proof (pow2_pos (e0 - ez) ltac:(lia)) as HP.
    set (P := 2 ^ (e0 - ez)) in *. nia. }
  assert (Hpos : 0 < m2).
  { destruct (Z.eq_dec e1 e0) as [Heq|Hne].
    - specialize (Hm1ge Heq). lia.
    - assert (Hn : -1074 < e1) by lia. specialize (Hlo Hn). lia. }
  assert (Hc1 : 0 <= m2 <= 2 ^ 53) by lia.
  assert (Hc2 : -1074 < e1 -> 2 ^ 52 <= m2)
    by (intros Hn; specialize (Hlo Hn); lia).
  destruct (finish_cases s m2 e1 He1 Hc1 Hc2)
    as [(H0 & _) | [(p & Hp & Hlt & Hc & ->) | (H53 & Hc & ->)]].
  - lia.
  - destruct (e1 <=? B64.emax - B64.prec); [right|left; reflexivity].
    exists p, e1. split; [reflexivity|].
    destruct (Z.eq_dec e1 e0) as [Heq|Hne]; [right|left; lia].
    split; [exact Heq|]. specialize (Hm1ge Heq). lia.
  - destruct (e1 + 1 <=? B64.emax - B64.prec); [right|left; reflexivity].
    exists 4503599627370496%positive, (e1 + 1). split; [reflexivity|].
    left. lia.
Qed.

(** *** Addition of a negative number *)

Lemma shl_align_fst (mx : positive) (ex ez : Z) :
  ez <= ex ->
  Zpos (fst (shl_align mx ex ez)) = Zpos mx * 2 ^ (ex - ez).
Proof.
  intros Hle. unfold shl_align.
  destruct (ez - ex) as [|p|p] eqn:Hd; cbn [fst]; try lia.
  - replace (ex - ez) with 0 by lia. simpl. lia.
  - rewrite iter_xO. f_equal. f_equal. lia.
Qed.

Lemma compare_le_finite_pos (m3 m0 : positive) (e3 e0 : Z) :
  e3 < e0 \/ (e3 = e0 /\ Zpos m3 <= Zpos m0) ->
  SFleb (S754_finite false m3 e3) (S754_finite false m0 e0) = true.
Proof.
  intros Hlex. unfold SFleb, SFcompare.
  destruct Hlex as [Hlt | [-> Hm]].
  - apply Z.compare_lt_iff in Hlt. now rewrite Hlt.
  - rewrite Z.compare_refl.
    change (Pos.compare_cont Eq m3 m0) with (m3 ?= m0)%positive.
    destruct (Pos.compare_spec m3 m0) as [Heq|Hlt|Hgt]; try reflexivity. lia.
Qed.

Lemma compare_le_finite_neg (m3 m0 : positive) (e3 e0 : Z) :
  e0 < e3 \/ (e3 = e0 /\ Zpos m0 <= Zpos m3) ->
  SFleb (S754_finite true m3 e3) (S754_finite true m0 e0) = true.
Proof.
  intros Hlex. unfold SFleb, SFcompare.
  destruct Hlex as [Hlt | [-> Hm]].
  - apply Z.compare_gt_iff in Hlt. now rewrite Hlt.
  - rewrite Z.compare_refl.
    change (Pos.compare_cont Eq m3 m0) with (m3 ?= m0)%positive.
    destruct (Pos.compare_spec m3 m0) as [Heq|Hlt|Hgt]; try reflexivity. lia.
Qed.

(** Adding a finite negative number to a valid number that is not a NaN
    gives a valid number that is not above it. *)
Lemma add_negative (x : spec_float) (my : positive) (ey : Z) :
  valid_binary B64.prec B64.emax x = true ->
  valid_binary B64.prec B64.emax (S754_finite true my ey) = true ->
  x <> S754_nan ->
  let z := SFadd B64.prec B64.emax x (S754_finite true my ey) in
  valid_binary B64.prec B64.emax z = true /\ SFleb z x = true.
Proof.
  intros Hx Hy Hnan z. subst z.
  destruct x as [sx|sx| |sx mx ex]; [| |contradiction|].
  - cbn [SFadd]. split; [exact Hy|]. reflexivity.
  - cbn [SFadd]. split; [reflexivity|]. destruct sx; reflexivity.
  - cbn [valid_binary] in Hx, Hy.
    destruct (bounded_facts mx ex Hx) as (_ & _ & Hex & _).
    destruct (bounded_facts my ey Hy) as (_ & _ & Hey & _).
    cbn [SFadd]. set (ez := Z.min ex ey).
    assert (Hzx : ez <= ex) by (unfold ez; lia).
    assert (Hzy : ez <= ey) by (unfold ez; lia).
    pose proof (shl_align_fst mx ex ez Hzx) as HX.
    pose proof (shl_align_fst my ey ez Hzy) as HY.
    set (X := Zpos (fst (shl_align mx ex ez))) in *.
    set (Y := Zpos (fst (shl_align my ey ez))) in *.
    assert (HXpos : 0 < X) by (unfold X; lia).
    assert (HYpos : 0 < Y) by (unfold Y; lia).
    destruct sx; cbn [cond_Zopp].
    + (* x negative: the magnitudes add up *)
      destruct (- X + - Y) as [|M|M] eqn:Hsum; try lia.
      cbn [binary_normalize].
      destruct (round_valid true M ez) as [Hv _].
      split; [exact Hv|].
      destruct (round_ge true M ez mx ex Hx Hzx) as [-> | (m3 & e3 & -> & Hlex)].
      * lia.
      * reflexivity.
      * now apply compare_le_finite_neg.
    + (* x positive *)
      destruct (X + - Y) as [|M|M] eqn:Hsum; cbn [binary_normalize].
      * split; reflexivity.
      * destruct (round_valid false M ez) as [Hv _].
        split; [exact Hv|].
        destruct (round_le false M ez mx ex Hx Hzx) as [-> | (m3 & e3 & -> & Hlex)].
        -- lia.
        -- reflexivity.
        -- now apply compare_le_finite_pos.
      * destruct (round_valid true M ez) as [Hv Hc].
        split; [exact Hv|].
        destruct Hc as [-> | [-> | (m3 & e3 & ->)]]; reflexivity.
Qed.

(** *** The order of the comparison *)
Lemma SFleb_key (x y : spec_float) :
  x <> S754_nan -> y <> S754_nan ->
  (SFleb x y = true <-> lex_le (key x) (key y)).
Proof.
  intros Hx Hy.
  destruct x as [sx|sx| |sx mx ex]; [| |contradiction|];
    (destruct y as [sy|sy| |sy my ey]; [| |contradiction|]);
    unfold SFleb, SFcompare, lex_le, key;
    try (destruct sx); try (destruct sy);
    try (split; [intros _; lia | reflexivity]);
    try (split; [discriminate | lia]).
  - change (Pos.compare_cont Eq mx my) with (mx ?= my)%positive.
    destruct (Z.compare_spec ex ey) as [Heq|Hlt|Hgt];
      [destruct (Pos.compare_spec mx my) as [Hm|Hm|Hm]; cbn [CompOpp]| |];
      (split; [try discriminate; try (intros _); lia
              | try reflexivity; lia]).
  - change (Pos.compare_cont Eq mx my) with (mx ?= my)%positive.
    destruct (Z.compare_spec ex ey) as [Heq|Hlt|Hgt];
      [destruct (Pos.compare_spec mx my) as [Hm|Hm|Hm]| |];
      (split; [try discriminate; try (intros _); lia
              | try reflexivity; lia]).
Qed.

Lemma SFleb_not_nan (x y : spec_float) :
  SFleb x y = true -> x <> S754_nan /\ y <> S754_nan.
Proof.
  unfold SFleb, SFcompare.
  destruct x as [sx|sx| |sx mx ex], y as [sy|sy| |sy my ey];
    try discriminate; intros _; split; discriminate.
Qed.

Lemma SFleb_trans (x y z : spec_float) :
  SFleb x y = true -> SFleb y z = true -> SFleb x z = true.
Proof.
  intros Hxy Hyz.
  destruct (SFleb_not_nan x y Hxy) as [Hx Hy].
  destruct (SFleb_not_nan y z Hyz) as [_ Hz].
  apply (SFleb_key x y Hx Hy) in Hxy. apply (SFleb_key y z Hy Hz) in Hyz.
  apply (SFleb_key x z Hx Hz).
  unfold lex_le in *.
  destruct (key x) as [[a1 a2] a3], (key y) as [[b1 b2] b3],
    (key z) as [[c1 c2] c3].
  lia.
Qed.

End RoundingFacts.
Set Implicit Arguments.

(** With a finite negative step the binary64 clock never rises: from a
    clock that is [<= end_t], every running sum is [<= end_t]. *)
Lemma negative_step_clock (end_t step : spec_float) :
  B64.valid step = true -> B64.finite step = true ->
  f_ltb step f_zero = true ->
  forall (n : nat) (t : spec_float),
    B64.valid t = true -> f_leb t end_t = true ->
    forallb (fun x => f_leb x end_t) (clock_seq n t step) = true.
Proof.
  intros Hv Hf Hneg.
  destruct step as [sy|sy| |sy my ey]; try discriminate Hf;
    [destruct sy; discriminate Hneg|].
  destruct sy; [|discriminate Hneg].
  induction n as [|n IH]; intros t Ht Hle; cbn [clock_seq forallb];
    [reflexivity|].
  rewrite Hle. cbn [andb].
  destruct (RoundingFacts.SFleb_not_nan t end_t Hle) as [Hnan _].
  destruct (RoundingFacts.add_negative t my ey Ht Hv Hnan) as [Hv' Hle'].
  apply IH; [exact Hv'|].
  exact (RoundingFacts.SFleb_trans _ t _ Hle' Hle).
Qed.

(** The decimal literals of the two files, as binary64 holds them
    ([float.hex]: 6599.95 = 0x1.9c7f333333333p+12,
    6600.05 = 0x1.9c80ccccccccdp+12, 0.0001 = 0x1.a36e2eb1c432dp-14,
    0.001 = 0x1.0624dd2f1a9fcp-10,
    6600.0 = 0x1.9c80000000000p+12). *)
Example binary64_literals :
  f_decimal 659995 2 = S754_finite false 0x19c7f333333333 (-40) /\
  f_decimal 660005 2 = S754_finite false 0x19c80ccccccccd (-40) /\
  f_decimal 1 4 = S754_finite false 0x1a36e2eb1c432d (-66) /\
  f_decimal 1 3 = S754_finite false 0x10624dd2f1a9fc (-62) /\
  f_decimal 66000 1 = S754_finite false 0x19c80000000000 (-40) /\
  f_decimal 0 0 = S754_zero false.
Proof. vm_compute. repeat split; reflexivity. Qed.

(** ** The table-driven agent *)
Section TableAgentFacts.
Context {F : Type} `{ScalarOrder F}.

(** The three ways a call can go, read off the code. *)
Lemma get_action_empty (h : @Heap F) :
  self_table h = [] ->
  TableAgent_get_action h =
    (default_action (epoch (state_obj h)),
     print (Printed_epoch (epoch (state_obj h))) h).
Proof.
  intros Ht. unfold TableAgent_get_action. simpl. now rewrite Ht.
Qed.

Lemma get_action_pending (h : @Heap F) row rest :
  self_table h = row :: rest ->
  f_geb (epoch (state_obj h)) (row_epoch row) = false ->
  TableAgent_get_action h =
    (default_action (epoch (state_obj h)),
     print (Printed_epoch (epoch (state_obj h))) h).
Proof.
  intros Ht Hd. unfold TableAgent_get_action. simpl. now rewrite Ht, Hd.
Qed.

Lemma get_action_due (h : @Heap F) row rest :
  self_table h = row :: rest ->
  f_geb (epoch (state_obj h)) (row_epoch row) = true ->
  TableAgent_get_action h =
    (row_action row (epoch (state_obj h)),
     set_table rest
       (print (Printed_maneuver (row_action row (epoch (state_obj h))))
          (print (Printed_epoch (epoch (state_obj h))) h))).
Proof.
  intros Ht Hd. unfold TableAgent_get_action. simpl. now rewrite Ht, Hd.
Qed.

(** A call either leaves the table alone and prints one line, or pops the
    first row and prints two. *)
Lemma get_action_cases (h : @Heap F) :
  let e := epoch (state_obj h) in
  let '(a, h') := TableAgent_get_action h in
  state_obj h' = state_obj h /\
  ((a = default_action e /\ self_table h' = self_table h /\
    stdout h' = Printed_epoch e :: stdout h) \/
   (exists row, self_table h = row :: self_table h' /\
      f_geb e (row_epoch row) = true /\ a = row_action row e /\
      stdout h' = Printed_maneuver a :: Printed_epoch e :: stdout h)).
Proof.
  destruct (self_table h) as [|row rest] eqn:Ht.
  - rewrite (get_action_empty h Ht). simpl. rewrite Ht. auto.
  - destruct (f_geb (epoch (state_obj h)) (row_epoch row)) eqn:Hd.
    + rewrite (get_action_due h Ht Hd). simpl. split; [reflexivity|].
      right. exists row. auto.
    + rewrite (get_action_pending h Ht Hd). simpl. rewrite Ht. auto.
Qed.

End TableAgentFacts.

Lemma in_skipn_in {X : Type} (n : nat) (l : list X) (x : X) :
  In x (skipn n l) -> In x l.
Proof.
  intros Hx. rewrite <- (firstn_skipn n l). apply in_or_app. now right.
Qed.

Section ReplayFacts.
Context {F : Type} `{ScalarOrder F}.

(** One call of a session, seen from the session's heap. *)
Lemma call_cases (s : @State F) (h : @Heap F) :
  let '(a, h1) := TableAgent_get_action (mkHeap (self_table h) s (stdout h)) in
  (a = default_action (epoch s) /\ self_table h1 = self_table h /\
   fires h1 = fires h /\
   (self_table h = [] \/
    exists row rest, self_table h = row :: rest /\
                     f_geb (epoch s) (row_epoch row) = false)) \/
  (exists row, self_table h = row :: self_table h1 /\
     f_geb (epoch s) (row_epoch row) = true /\
     a = row_action row (epoch s) /\ fires h1 = S (fires h)).
Proof.
  pose (h0 := mkHeap (self_table h) s (stdout h)).
  assert (Ht0 : self_table h0 = self_table h) by reflexivity.
  change (mkHeap (self_table h) s (stdout h)) with h0.
  destruct (self_table h) as [|row rest] eqn:Ht.
  - rewrite (get_action_empty h0 Ht0). left. simpl. auto.
  - destruct (f_geb (epoch s) (row_epoch row)) eqn:Hd.
    + rewrite (@get_action_due _ _ h0 row rest Ht0 Hd).
      right. exists row. simpl. auto.
    + rewrite (@get_action_pending _ _ h0 row rest Ht0 Hd).
      left. simpl. repeat split; auto.
      right. exists row, rest. auto.
Qed.

Lemma replay_app (pre suf : list (@State F)) (h : @Heap F) :
  replay (pre ++ suf) h =
    let '(l1, h1) := replay pre h in
    let '(l2, h2) := replay suf h1 in
    (l1 ++ l2, h2).
Proof.
  revert h. induction pre as [|s pre IH]; intros h; simpl.
  - now destruct (replay suf h).
  - destruct (TableAgent_get_action _) as [a h1].
    rewrite IH. destruct (replay pre h1) as [l1 h2].
    now destruct (replay suf h2).
Qed.

Lemma fire_count_app (l1 l2 : list (@Action F * bool)) :
  fire_count (l1 ++ l2) = (fire_count l1 + fire_count l2)%nat.
Proof. unfold fire_count. now rewrite filter_app, length_app. Qed.

(** Rows are conserved: what a session fires is what it removed, from the
    front of the table, and the standard output shows as many maneuver
    lines. *)
Lemma replay_conserves (states : list (@State F)) (h : @Heap F) :
  let '(log, h') := replay states h in
  self_table h' = skipn (fire_count log) (self_table h) /\
  (fire_count log <= List.length (self_table h))%nat /\
  fires h' = (fires h + fire_count log)%nat /\
  List.length log = List.length states.
Proof.
  revert h. induction states as [|s states IH]; intros h; simpl.
  - repeat split; auto with arith.
  - pose proof (call_cases s h) as Hc.
    destruct (TableAgent_get_action _) as [a h1].
    specialize (IH h1). destruct (replay states h1) as [log h2].
    destruct IH as (Ht & Hle & Hf & Hlen).
    destruct Hc as [(_ & Hsame & Hfi & _) | (row & Hrow & _ & _ & Hfi)].
    + rewrite Hfi, Nat.ltb_irrefl. unfold fire_count in *. simpl.
      rewrite Ht, Hsame. rewrite Hsame in Hle. repeat split; auto; lia.
    + rewrite Hfi. replace (fires h <? S (fires h))%nat with true
        by (symmetry; apply Nat.ltb_lt; lia).
      unfold fire_count in *. simpl. rewrite Hrow. simpl.
      repeat split; auto; lia.
Qed.

(** Calls made once every pending row is overdue fire one row each, until
    the table is empty. *)
Lemma replay_overdue (states : list (@State F)) (h : @Heap F) :
  (forall s row, In s states -> In row (self_table h) ->
     f_ltb (row_epoch row) (epoch s) = true) ->
  fire_count (fst (replay states h)) =
    Nat.min (List.length states) (List.length (self_table h)).
Proof.
  revert h. induction states as [|s states IH]; intros h Hex; simpl.
  - reflexivity.
  - pose proof (call_cases s h) as Hc.
    destruct (TableAgent_get_action _) as [a h1].
    assert (Hsub : forall row, In row (self_table h1) -> In row (self_table h)).
    { destruct Hc as [(_ & Hsame & _) | (row & Hrow & _)].
      - now rewrite Hsame.
      - rewrite Hrow. intros r Hr. now right. }
    specialize (IH h1).
    destruct (replay states h1) as [log h2]. simpl in *.
    assert (IH' : fire_count log =
                  Nat.min (List.length states) (List.length (self_table h1))).
    { apply IH. intros s' row Hs Hr. apply Hex; auto. }
    destruct Hc as [(_ & Hsame & Hfi & Hwhy) | (row & Hrow & _ & _ & Hfi)].
    + destruct Hwhy as [Hnil | (row & rest & Hrow & Hd)].
      * rewrite Hfi, Nat.ltb_irrefl. unfold fire_count in *. simpl.
        rewrite IH', Hsame, Hnil. simpl. lia.
      * exfalso. assert (Hlt : f_ltb (row_epoch row) (epoch s) = true).
        { apply Hex; auto. rewrite Hrow. now left. }
        apply f_ltb_leb in Hlt. unfold f_geb in Hd. congruence.
    + rewrite Hfi. replace (fires h <? S (fires h))%nat with true
        by (symmetry; apply Nat.ltb_lt; lia).
      unfold fire_count in *. simpl. rewrite IH', Hrow. simpl. reflexivity.
Qed.

(** Every call of a session returns either the default action for its
    epoch, or the action built from a row of the table. *)
Lemma replay_answers (states : list (@State F)) (h : @Heap F) :
  Forall2 (fun s '(a, fired) =>
             if fired : bool
             then exists row, In row (self_table h) /\
                              a = row_action row (epoch s)
             else a = default_action (epoch s))
          states (fst (replay states h)).
Proof.
  revert h. induction states as [|s states IH]; intros h; simpl.
  - constructor.
  - pose proof (call_cases s h) as Hc.
    destruct (TableAgent_get_action _) as [a h1].
    specialize (IH h1). destruct (replay states h1) as [log h2]. simpl in *.
    constructor.
    + destruct Hc as [(Ha & _ & Hfi & _) | (row & Hrow & _ & Ha & Hfi)].
      * now rewrite Hfi, Nat.ltb_irrefl.
      * rewrite Hfi. replace (fires h <? S (fires h))%nat with true
          by (symmetry; apply Nat.ltb_lt; lia).
        exists row. rewrite Hrow. split; [now left | assumption].
    + eapply Forall2_impl; [|exact IH].
      intros s' [a' fired] Hf. destruct fired; [|assumption].
      destruct Hf as (row & Hin & Ha'). exists row. split; [|assumption].
      destruct Hc as [(_ & Hsame & _) | (row0 & Hrow & _)].
      * now rewrite <- Hsame.
      * rewrite Hrow. now right.
Qed.

(** Polled at one epoch, a session fires the rows of the longest due run
    at the top of the table, one per call. *)
Lemma replay_one_epoch (e : F) :
  forall (states : list (@State F)) (h : @Heap F),
    (forall s, In s states -> epoch s = e) ->
    fire_count (fst (replay states h)) =
      Nat.min (List.length states) (due_prefix e (self_table h)) /\
    self_table (snd (replay states h)) =
      skipn (Nat.min (List.length states) (due_prefix e (self_table h)))
            (self_table h).
Proof.
  induction states as [|s states IH]; intros h He; simpl.
  - split; reflexivity.
  - pose proof (call_cases s h) as Hc.
    assert (Hs : epoch s = e) by (apply He; now left).
    destruct (TableAgent_get_action _) as [a h1].
    destruct (IH h1) as [IHc IHt]; [intros s' Hs'; apply He; now right|].
    destruct (replay states h1) as [log h2]. simpl in *.
    rewrite Hs in Hc.
    destruct Hc as [(_ & Hsame & Hfi & Hwhy) | (row & Hrow & Hd & _ & Hfi)].
    + rewrite Hfi, Nat.ltb_irrefl. unfold fire_count in *. simpl.
      rewrite IHc, IHt, Hsame.
      destruct Hwhy as [Hnil | (row & rest & Hrow & Hd)].
      * rewrite Hnil. simpl. rewrite !Nat.min_0_r. split; reflexivity.
      * rewrite Hrow. simpl. rewrite Hd. rewrite !Nat.min_0_r.
        split; reflexivity.
    + rewrite Hfi. replace (fires h <? S (fires h))%nat with true
        by (symmetry; apply Nat.ltb_lt; lia).
      unfold fire_count in *. simpl. rewrite IHc, IHt, Hrow. simpl.
      rewrite Hd. simpl. split; reflexivity.
Qed.

(** Behind the due run, no row is due at the top of the table. *)
Lemma due_prefix_skipn (e : F) (t : @Table F) :
  due_prefix e (skipn (due_prefix e t) t) = 0%nat.
Proof.
  induction t as [|row rest IH]; simpl; [reflexivity|].
  destruct (f_geb e (row_epoch row)) eqn:Hd; simpl; [exact IH|].
  now rewrite Hd.
Qed.

(** With no row due at the top of the table, two calls in a row at that
    epoch both return the default action and leave the table alone. *)
Lemma repoll_same_epoch (h : @Heap F) (s s' : @State F) :
  epoch s' = epoch s ->
  due_prefix (epoch s) (self_table h) = 0%nat ->
  let first := TableAgent_get_action (mkHeap (self_table h) s (stdout h)) in
  let second :=
    TableAgent_get_action
      (mkHeap (self_table (snd first)) s' (stdout (snd first))) in
  fst first = default_action (epoch s) /\
  fst second = default_action (epoch s) /\
  self_table (snd second) = self_table h /\
  fires (snd second) = fires h.
Proof.
  intros He Hdue. simpl.
  pose proof (call_cases s h) as Hc.
  destruct (TableAgent_get_action (mkHeap (self_table h) s (stdout h)))
    as [a h1]. simpl.
  destruct Hc as [(Ha & Hsame & Hfi1 & _) | (row & Hrow & Hd & _)].
  - split; [assumption|].
    pose proof (call_cases s' h1) as Hc'.
    destruct (TableAgent_get_action (mkHeap (self_table h1) s' (stdout h1)))
      as [a' h2]. simpl.
    destruct Hc' as [(Ha' & Hsame' & Hfi2 & _) | (row & Hrow & Hd & _)].
    + repeat split; congruence.
    + exfalso. rewrite Hsame in Hrow. rewrite Hrow, <- He in Hdue.
      simpl in Hdue. rewrite Hd in Hdue. discriminate.
  - exfalso. rewrite Hrow in Hdue. simpl in Hdue. rewrite Hd in Hdue.
    discriminate.
Qed.

End ReplayFacts.

(** C1: a call whose table has a first row with epoch <= state.epoch
    returns (row.dVx, row.dVy, row.dVz, state.epoch, 0) and removes that row;
    a call on an empty table, or with state.epoch < the first row's epoch,
    returns (0, 0, 0, state.epoch, 0).  The table [(6600.0, 1.0, 0.0, 0.0)]
    polled at 5999.9, 6600.0, 6600.0001 answers no-op, fire with dVx = 1.0,
    no-op. *)
Theorem TableAgent_get_action_spec :
  (forall (F : Type) (S : Scalar F) (O : ScalarOrder F) (h : @Heap F),
     let e := epoch (state_obj h) in
     (forall row rest,
        self_table h = row :: rest -> f_leb (row_epoch row) e = true ->
        fst (TableAgent_get_action h) =
          mkAction (row_dVx row) (row_dVy row) (row_dVz row) e f_zero /\
        self_table (snd (TableAgent_get_action h)) = rest) /\
     (self_table h = [] ->
        fst (TableAgent_get_action h) = mkAction f_zero f_zero f_zero e f_zero) /\
     (forall row rest,
        self_table h = row :: rest -> f_ltb e (row_epoch row) = true ->
        fst (TableAgent_get_action h) = mkAction f_zero f_zero f_zero e f_zero)) /\
  fst (replay polls_6600 (mkHeap table_6600 (state_at f_zero) [])) =
    [(mkAction f_zero f_zero f_zero (f_decimal 59999 1) f_zero, false);
     (mkAction (f_decimal 10 1) f_zero f_zero (f_decimal 66000 1) f_zero, true);
     (mkAction f_zero f_zero f_zero (f_decimal 66000001 4) f_zero, false)].
Proof.
  split; [|vm_compute; reflexivity].
  intros F S O h e. split; [|split].
  - intros row rest Ht Hdue.
    rewrite (get_action_due h Ht Hdue). split; reflexivity.
  - intros Ht. rewrite (get_action_empty h Ht). reflexivity.
  - intros row rest Ht Hlt. apply f_ltb_not_geb in Hlt.
    rewrite (get_action_pending h Ht Hlt). reflexivity.
Qed.

Lemma TableAgent_get_action_spec_witness :
  (let h := mkHeap table_6600 (state_at (f_decimal 66000 1)) [] in
   fst (TableAgent_get_action h) =
     mkAction (f_decimal 10 1) f_zero f_zero (f_decimal 66000 1) f_zero /\
   self_table (snd (TableAgent_get_action h)) = []) /\
  (let h := mkHeap [] (state_at (f_decimal 66000001 4 : spec_float)) [] in
   fst (TableAgent_get_action h) =
     mkAction f_zero f_zero f_zero (f_decimal 66000001 4) f_zero) /\
  (let h := mkHeap table_6600 (state_at (f_decimal 59999 1)) [] in
   fst (TableAgent_get_action h) =
     mkAction f_zero f_zero f_zero (f_decimal 59999 1) f_zero).
Proof.
  split; [|split].
  - exact (proj1 (proj1 TableAgent_get_action_spec spec_float _ _
                   (mkHeap table_6600 (state_at (f_decimal 66000 1)) []))
             _ [] eq_refl eq_refl).
  - exact (proj1 (proj2 (proj1 TableAgent_get_action_spec spec_float _ _
                   (mkHeap [] (state_at (f_decimal 66000001 4)) [])))
             eq_refl).
  - exact (proj2 (proj2 (proj1 TableAgent_get_action_spec spec_float _ _
                   (mkHeap table_6600 (state_at (f_decimal 59999 1)) [])))
             _ [] eq_refl eq_refl).
Defined.

(** C2, as the code has it: one call fires at most one row, so a session
    fires all N rows when at least N of its calls come after the state
    epochs exceed every row's epoch; then it fires exactly N times, empties
    the table, and every other call returns the no-op action.  Whatever the
    session, the rows fired are removed from the front of the table, so no
    row fires twice; and once the rows due at an epoch have fired (polling
    at that epoch as many times as there are due rows at the top of the
    table fires exactly these), two consecutive calls at that epoch both
    return the no-op action and leave the table as it is. *)
Theorem replay_fires_every_row :
  forall (F : Type) (S : Scalar F) (O : ScalarOrder F)
         (t : @Table F) (pre suf : list (@State F)) (out : list (@Output F))
         (s0 : @State F),
    (forall s row, In s suf -> In row t ->
       f_ltb (row_epoch row) (epoch s) = true) ->
    (List.length t <= List.length suf)%nat ->
    let session := replay (pre ++ suf) (mkHeap t s0 out) in
    fire_count (fst session) = List.length t /\
    self_table (snd session) = [] /\
    Forall2 (fun s '(a, fired) =>
               fired = false -> a = mkAction f_zero f_zero f_zero (epoch s) f_zero)
            (pre ++ suf) (fst session) /\
    (forall states : list (@State F),
       let any := replay states (mkHeap t s0 out) in
       (fire_count (fst any) <= List.length t)%nat /\
       self_table (snd any) = skipn (fire_count (fst any)) t) /\
    (forall (h : @Heap F) (e : F) (polls : list (@State F))
            (s s' : @State F),
       (forall p, In p polls -> epoch p = e) ->
       (due_prefix e (self_table h) <= List.length polls)%nat ->
       epoch s = e -> epoch s' = e ->
       let h1 := snd (replay polls h) in
       fire_count (fst (replay polls h)) = due_prefix e (self_table h) /\
       self_table h1 = skipn (due_prefix e (self_table h)) (self_table h) /\
       let first := TableAgent_get_action (mkHeap (self_table h1) s (stdout h1)) in
       let second :=
         TableAgent_get_action
           (mkHeap (self_table (snd first)) s' (stdout (snd first))) in
       fst first = default_action e /\
       fst second = default_action e /\
       self_table (snd second) = self_table h1 /\
       fires (snd second) = fires h1).
Proof.
  intros F S O t pre suf out s0 Hex Hlen session.
  assert (Hgen : forall states : list (@State F),
             let any := replay states (mkHeap t s0 out) in
             (fire_count (fst any) <= List.length t)%nat /\
             self_table (snd any) = skipn (fire_count (fst any)) t).
  { intros states any. subst any.
    pose proof (replay_conserves states (mkHeap t s0 out)) as Hc.
    destruct (replay states (mkHeap t s0 out)) as [log h']. simpl in *.
    tauto. }
  assert (Hcount : fire_count (fst session) = List.length t).
  { subst session. rewrite replay_app.
    pose proof (replay_conserves pre (mkHeap t s0 out)) as Hc.
    destruct (replay pre (mkHeap t s0 out)) as [l1 h1].
    destruct Hc as (Ht1 & Hle1 & _ & _). simpl in Ht1, Hle1.
    pose proof (@replay_overdue F S O suf h1) as Ho.
    destruct (replay suf h1) as [l2 h2]. simpl in *.
    rewrite fire_count_app, Ho.
    - rewrite Ht1, length_skipn. lia.
    - intros s row Hs Hr. apply Hex; auto.
      rewrite Ht1 in Hr. eapply in_skipn_in; eauto. }
  split; [exact Hcount|]. split; [|split; [|split; [apply Hgen|]]].
  - destruct (Hgen (pre ++ suf)) as [_ Ht]. fold session in Ht.
    rewrite Ht, Hcount. apply skipn_all.
  - subst session. eapply Forall2_impl; [|apply replay_answers].
    intros s [a fired] Hf Hfired. subst fired. exact Hf.
  - intros h e polls s s' Hpolls Hm Hs Hs' h1.
    destruct (@replay_one_epoch F S e polls h Hpolls) as [Hfc Htab].
    rewrite Nat.min_r in Hfc, Htab by exact Hm.
    split; [exact Hfc|]. split; [exact Htab|].
    assert (Hdue : due_prefix (epoch s) (self_table h1) = 0%nat).
    { subst h1. rewrite Htab, Hs. apply due_prefix_skipn. }
    pose proof (@repoll_same_epoch F S h1 s s' (eq_trans Hs' (eq_sym Hs)) Hdue)
      as Hre.
    rewrite Hs in Hre. exact Hre.
Qed.

Lemma replay_fires_every_row_witness :
  fire_count
    (fst (replay ([state_at (f_decimal 0 0)] ++
                  [state_at (f_decimal 5 0); state_at (f_decimal 5 0)])
            (mkHeap table_1_2 (state_at f_zero) []))) = 2%nat /\
  (let h := mkHeap table_1_2 (state_at f_zero) [] in
   let polls := [state_at (f_decimal 15 1); state_at (f_decimal 15 1)] in
   let h1 := snd (replay polls h) in
   fire_count (fst (replay polls h)) =
     due_prefix (f_decimal 15 1) (self_table h) /\
   self_table h1 =
     skipn (due_prefix (f_decimal 15 1) (self_table h)) (self_table h) /\
   let first :=
     TableAgent_get_action
       (mkHeap (self_table h1) (state_at (f_decimal 15 1)) (stdout h1)) in
   let second :=
     TableAgent_get_action
       (mkHeap (self_table (snd first)) (state_at (f_decimal 15 1))
               (stdout (snd first))) in
   fst first = default_action (f_decimal 15 1) /\
   fst second = default_action (f_decimal 15 1) /\
   self_table (snd second) = self_table h1 /\
   fires (snd second) = fires h1).
Proof.
  split.
  - refine (proj1 (@replay_fires_every_row spec_float _ _ table_1_2
                     [state_at (f_decimal 0 0)]
                     [state_at (f_decimal 5 0); state_at (f_decimal 5 0)]
                     [] (state_at f_zero) _ _)).
    + intros s row [<-|[<-|[]]] [<-|[<-|[]]]; vm_compute; reflexivity.
    + simpl. lia.
  - refine (proj2 (proj2 (proj2 (proj2
              (@replay_fires_every_row spec_float _ _ table_1_2
                 [state_at (f_decimal 0 0)]
                 [state_at (f_decimal 5 0); state_at (f_decimal 5 0)]
                 [] (state_at f_zero) _ _))))
              (mkHeap table_1_2 (state_at f_zero) []) (f_decimal 15 1)
              [state_at (f_decimal 15 1); state_at (f_decimal 15 1)]
              (state_at (f_decimal 15 1)) (state_at (f_decimal 15 1))
              _ _ eq_refl eq_refl).
    + intros s row [<-|[<-|[]]] [<-|[<-|[]]]; vm_compute; reflexivity.
    + simpl. lia.
    + intros p [<-|[<-|[]]]; reflexivity.
    + vm_compute. lia.
Defined.

(** C2 as stated fails: the table with epochs 1.0 < 2.0 polled at 0.0 and
    then at 5.0, which exceeds both rows, fires once, not twice; the second
    row is still in the table when the session ends. *)
Lemma replay_two_rows_one_fire :
  strictly_increasing table_1_2 = true /\
  forallb (fun s => exceeds_all table_1_2 (epoch s)) (skipn 1 polls_0_5) = true /\
  List.length table_1_2 = 2%nat /\
  fire_count (fst (replay polls_0_5 (mkHeap table_1_2 (state_at f_zero) [])))
    = 1%nat /\
  List.length
    (self_table (snd (replay polls_0_5 (mkHeap table_1_2 (state_at f_zero) []))))
    = 1%nat.
Proof. vm_compute. repeat split; reflexivity. Qed.

(** C6, as the code has it: an action [TableAgent.get_action] returns
    without firing has zero deltas and time_to_next_request 0; the action
    [Agent.get_action] returns has zero deltas and time_to_next_request
    0.001, which is above zero. *)
Theorem noop_action_fields :
  (forall (F : Type) (S : Scalar F) (h : @Heap F),
     fires (snd (TableAgent_get_action h)) = fires h ->
     let a := fst (TableAgent_get_action h) in
     dVx a = f_zero /\ dVy a = f_zero /\ dVz a = f_zero /\
     time_to_req a = f_zero /\ maneuver_epoch a = epoch (state_obj h)) /\
  (forall (F : Type) (S : Scalar F) (state : @State F),
     let a := Agent_get_action state in
     dVx a = f_zero /\ dVy a = f_zero /\ dVz a = f_zero /\
     time_to_req a = f_decimal 1 3 /\ maneuver_epoch a = epoch state) /\
  f_ltb (@f_zero spec_float _) (f_decimal 1 3) = true.
Proof.
  split; [|split; [|vm_compute; reflexivity]].
  - intros F S h Hfi a. subst a.
    pose proof (get_action_cases h) as Hc.
    destruct (TableAgent_get_action h) as [a h']. simpl in *.
    destruct Hc as [_ [(-> & _) | (row & _ & _ & _ & Hout)]].
    + repeat split.
    + exfalso. unfold fires in Hfi. rewrite Hout in Hfi. simpl in Hfi. lia.
  - intros F S state. simpl. repeat split.
Qed.

Lemma noop_action_fields_witness :
  let a := fst (TableAgent_get_action
                  (mkHeap table_6600 (state_at (f_decimal 59999 1)) [])) in
  dVx a = f_zero /\ dVy a = f_zero /\ dVz a = f_zero /\
  time_to_req a = f_zero /\ maneuver_epoch a = f_decimal 59999 1.
Proof.
  exact (proj1 noop_action_fields spec_float _
           (mkHeap table_6600 (state_at (f_decimal 59999 1)) []) eq_refl).
Defined.

(** C6 as stated fails for [Agent.get_action]: its action has zero deltas
    and time_to_next_request 0.001 (binary64 4611686018427388 * 2^-62),
    which is not 0. *)
Lemma Agent_time_to_req_not_zero :
  let a := Agent_get_action (state_at (f_decimal 66000 1 : spec_float)) in
  dVx a = S754_zero false /\ dVy a = S754_zero false /\
  dVz a = S754_zero false /\
  time_to_req a = S754_finite false 4611686018427388 (-62) /\
  @f_zero spec_float _ = S754_zero false /\
  SFeqb (time_to_req a) f_zero = false.
Proof. vm_compute. repeat split; reflexivity. Qed.

(** C10, as the code has it: a call leaves the state dictionary as it
    found it.  It fires (prints the maneuver line) exactly when the table
    has a first row whose epoch is <= the state's epoch.  When it does not
    fire the table is unchanged and the action is the no-op; when it fires,
    the table before the call is the fired row followed by the table after
    it, and the action carries that row's deltas. *)
Theorem TableAgent_get_action_frame :
  forall (F : Type) (S : Scalar F) (h : @Heap F),
    let e := epoch (state_obj h) in
    let a := fst (TableAgent_get_action h) in
    let h' := snd (TableAgent_get_action h) in
    state_obj h' = state_obj h /\
    ((fires h' = fires h /\ a = default_action e /\
      self_table h' = self_table h /\
      (self_table h = [] \/
       exists row rest, self_table h = row :: rest /\
                        f_geb e (row_epoch row) = false)) \/
     (fires h' = Datatypes.S (fires h) /\
      exists row, self_table h = row :: self_table h' /\
                  f_geb e (row_epoch row) = true /\
                  a = row_action row e)).
Proof.
  intros F S h e a h'. subst e a h'.
  destruct (self_table h) as [|row rest] eqn:Ht.
  - rewrite (get_action_empty h Ht) in *. simpl in *.
    split; [reflexivity|]. left. rewrite Ht. auto.
  - destruct (f_geb (epoch (state_obj h)) (row_epoch row)) eqn:Hd.
    + rewrite (get_action_due h Ht Hd) in *. simpl in *.
      split; [reflexivity|]. right. split; [reflexivity|].
      exists row. auto.
    + rewrite (get_action_pending h Ht Hd) in *. simpl in *.
      split; [reflexivity|]. left. rewrite Ht.
      repeat split; auto. right. exists row, rest. auto.
Qed.

(** C10 as stated fails: the returned action does not tell a fire from a
    no-op.  On the table whose first row is (6600.0, 0, 0, 0), a call at
    epoch 6600.0 returns exactly the no-op action (0, 0, 0, 6600.0, 0), and
    yet it has fired: the maneuver line is printed and the table has gone
    from two rows to one. *)
Lemma zero_deltas_fire_as_noop :
  fst (TableAgent_get_action
         (mkHeap table_zero_deltas (state_at (f_decimal 66000 1)) [])) =
    default_action (f_decimal 66000 1) /\
  List.length table_zero_deltas = 2%nat /\
  List.length
    (self_table
       (snd (TableAgent_get_action
               (mkHeap table_zero_deltas (state_at (f_decimal 66000 1)) []))))
    = 1%nat /\
  fires (snd (TableAgent_get_action
                (mkHeap table_zero_deltas (state_at (f_decimal 66000 1)) [])))
    = 1%nat.
Proof. vm_compute. repeat split; reflexivity. Qed.

(** ** The simulation loop *)

(** *** The loops over the debris objects *)
Section ForEach.
Context {F : Type} `{Scalar F} {A E : Type} `{@Environment F E} `{@Policy F A}.

(** A [for] whose body adds one journal entry per object adds them all, in
    list order, and changes nothing else. *)
Lemma for_each_journal (body : SpaceObject -> @M F A E unit)
    (entry : SpaceObject -> @Event F) (s : @Simulator F A E) :
  (forall obj j,
     body obj (set_journal j s) = Ok tt (set_journal (entry obj :: j) s)) ->
  forall objs j,
    for_each objs body (set_journal j s) =
      Ok tt (set_journal (per_object entry objs ++ j) s).
Proof.
  intros Hbody. unfold per_object.
  induction objs as [|obj objs IH]; intros j.
  - reflexivity.
  - cbn [for_each map rev]. unfold bind at 1. rewrite Hbody, IH.
    rewrite <- app_assoc. reflexivity.
Qed.

Lemma log_debris_positions_eq (s : @Simulator F A E) :
  log_debris_positions s =
    Ok tt (set_journal
             (debris_records (debris (env s)) (curr_time s) ++ journal s) s).
Proof.
  destruct s as [ag en t0 t1 t po ups v ta pa fa ra j].
  unfold log_debris_positions, debris_records, read_env, gets.
  unfold bind at 1. cbn [env curr_time journal].
  change (mkSimulator ag en t0 t1 t po ups v ta pa fa ra j)
    with (set_journal j (mkSimulator ag en t0 t1 t po ups v ta pa fa ra j)) at 1.
  apply for_each_journal. reflexivity.
Qed.

Lemma plot_debris_eq (s : @Simulator F A E) :
  plot_debris s =
    Ok tt (set_journal
             (debris_plots (debris (env s)) (curr_time s) ++ journal s) s).
Proof.
  destruct s as [ag en t0 t1 t po ups v ta pa fa ra j].
  unfold plot_debris, debris_plots, read_env, gets.
  unfold bind at 1. cbn [env curr_time journal].
  change (mkSimulator ag en t0 t1 t po ups v ta pa fa ra j)
    with (set_journal j (mkSimulator ag en t0 t1 t po ups v ta pa fa ra j)) at 1.
  apply for_each_journal. reflexivity.
Qed.

Lemma print_debris_eq (s : @Simulator F A E) :
  print_debris s =
    Ok tt (set_journal (debris_prints (debris (env s)) ++ journal s) s).
Proof.
  destruct s as [ag en t0 t1 t po ups v ta pa fa ra j].
  unfold print_debris, debris_prints, read_env, gets.
  unfold bind at 1. cbn [env curr_time journal].
  change (mkSimulator ag en t0 t1 t po ups v ta pa fa ra j)
    with (set_journal j (mkSimulator ag en t0 t1 t po ups v ta pa fa ra j)) at 1.
  apply for_each_journal. reflexivity.
Qed.

(** Reading a journal across the entries of such a [for]. *)
Lemma per_object_skip {X : Type} (P : list (@Event F) -> X)
    (entry : SpaceObject -> @Event F) :
  (forall obj j, P (entry obj :: j) = P j) ->
  forall objs j, P (per_object entry objs ++ j) = P j.
Proof.
  intros Hskip. unfold per_object.
  induction objs as [|obj objs IH]; intros j.
  - reflexivity.
  - cbn [map rev]. rewrite <- app_assoc, IH. apply Hskip.
Qed.

Lemma length_per_object (entry : SpaceObject -> @Event F) objs :
  List.length (per_object entry objs) = List.length objs.
Proof. unfold per_object. now rewrite length_rev, length_map. Qed.

Lemma count_per_object_skip (p : @Event F -> bool)
    (entry : SpaceObject -> @Event F) objs j :
  (forall obj, p (entry obj) = false) ->
  List.length (filter p (per_object entry objs ++ j)) =
    List.length (filter p j).
Proof.
  intros Hp. rewrite filter_app, length_app.
  assert (Hnone : filter p (per_object entry objs) = []).
  { unfold per_object. induction objs as [|obj objs IH]; [reflexivity|].
    cbn [map rev]. rewrite filter_app, IH. simpl. now rewrite Hp. }
  now rewrite Hnone.
Qed.

Lemma count_per_object_hit (p : @Event F -> bool)
    (entry : SpaceObject -> @Event F) objs j :
  (forall obj, p (entry obj) = true) ->
  List.length (filter p (per_object entry objs ++ j)) =
    (List.length objs + List.length (filter p j))%nat.
Proof.
  intros Hp. rewrite filter_app, length_app. f_equal.
  assert (Hall : filter p (per_object entry objs) = per_object entry objs).
  { unfold per_object. induction objs as [|obj objs IH]; [reflexivity|].
    cbn [map rev]. rewrite filter_app, IH. simpl. now rewrite Hp. }
  rewrite Hall. apply length_per_object.
Qed.

End ForEach.

Arguments log_debris_positions : simpl never.
Arguments plot_debris : simpl never.
Arguments print_debris : simpl never.
Arguments per_object : simpl never.
Arguments debris_records : simpl never.
Arguments debris_plots : simpl never.
Arguments debris_prints : simpl never.

(** Symbolic execution of the monadic code: unfold the combinators, name
    the result of every collaborator call, and replace a loop over the
    debris objects by the entries it adds. *)
Ltac unfold_m :=
  unfold loop_body, poll_and_act, draw_frame, prologue, epilogue,
    log_iteration, log_protected_position,
    log_reward_action, log_bad_action, plot_protected,
    plot_prob_fuel_reward, py_mod, call_env, call_agent, read_env, emit,
    modify, gets, raise, bind, ret.
Ltac step_m :=
  match goal with
  | |- context [log_debris_positions ?s] =>
      rewrite (log_debris_positions_eq s)
  | |- context [plot_debris ?s] => rewrite (plot_debris_eq s)
  | |- context [print_debris ?s] => rewrite (print_debris_eq s)
  | |- context [let '(_, _) := ?x in _] => destruct x eqn:?
  end.
(** Counting, and reading, across the entries of the loops. *)
Ltac count_objects :=
  unfold count, debris_records, debris_plots, debris_prints in *;
  repeat (simpl;
          first
            [ rewrite count_per_object_skip by (intros; reflexivity)
            | rewrite count_per_object_hit by (intros; reflexivity) ]);
  simpl.
Ltac skip_objects P :=
  unfold debris_records, debris_plots, debris_prints in *;
  repeat (simpl; rewrite (per_object_skip P) by (intros; reflexivity));
  simpl.
Ltac crunch :=
  unfold_m;
  repeat (simpl;
          match goal with
          | |- _ => step_m
          | |- context [match truthy ?x with _ => _ end] =>
              destruct (truthy x) eqn:?
          | |- context [if ?c then _ else _] =>
              match type of c with bool => destruct c eqn:? end
          end);
  simpl.

(** Splitting a journal into what a step added and what was there. *)
Lemma journal_same {X : Type} (l : list X) : l = [] ++ l.
Proof. reflexivity. Qed.
Lemma journal_more {X : Type} (x : X) (l added old : list X) :
  l = added ++ old -> x :: l = (x :: added) ++ old.
Proof. intros ->. reflexivity. Qed.
Lemma journal_app {X : Type} (pre l added old : list X) :
  l = added ++ old -> pre ++ l = (pre ++ added) ++ old.
Proof. intros ->. apply app_assoc. Qed.
Ltac peel :=
  repeat first [apply journal_same | apply journal_more | apply journal_app].

Section LoopFacts.
Context {F : Type} `{Scalar F} {A E : Type} `{@Environment F E} `{@Policy F A}.

(** What one pass through the loop body leaves behind: the clock fields,
    the settings, and one more [propagate_forward] call and one more
    iteration record in the journal.  The body raises exactly when the
    visualisation frame does, and then after the telemetry was written and
    before the clock advanced. *)
Lemma loop_body_frame (step : F) (visualize : bool) (iteration : Z) (s : @Simulator F A E) :
  exists s' : @Simulator F A E,
    loop_body step visualize iteration s =
      match frame_exn visualize (update_r_p_step s) with
      | None => Ok tt s'
      | Some e => Raise e s'
      end /\
    curr_time s' =
      match frame_exn visualize (update_r_p_step s) with
      | None => f_add (curr_time s) step
      | Some _ => curr_time s
      end /\
    end_time s' = end_time s /\
    start_time s' = start_time s /\
    update_r_p_step s' = update_r_p_step s /\
    print_out s' = print_out s /\
    count is_propagate (journal s') = S (count is_propagate (journal s)) /\
    count is_log_iteration (journal s') =
      S (count is_log_iteration (journal s)).
Proof.
  destruct s as [ag en t0 t1 t po ups v ta pa fa ra j].
  unfold frame_exn.
  destruct visualize; [destruct ups as [[|p|p]|]|];
    crunch; eexists; repeat split; try reflexivity;
    count_objects; reflexivity.
Qed.

(** The loop follows its clock: when no frame raises, it leaves after
    [ticks] passes, or is still inside after [fuel] of them. *)
Lemma while_loop_clock (fuel : nat) (step : F) (visualize : bool) :
  forall (iteration : Z) (s : @Simulator F A E),
    frame_exn visualize (update_r_p_step s) = None ->
    exists s' : @Simulator F A E,
      while_loop fuel step visualize iteration s =
        match ticks fuel (curr_time s) (end_time s) step with
        | Some n => Done tt (iteration + Z.of_nat n) s'
        | None => OutOfFuel (iteration + Z.of_nat fuel) s'
        end /\
      end_time s' = end_time s /\
      start_time s' = start_time s /\
      update_r_p_step s' = update_r_p_step s /\
      print_out s' = print_out s /\
      count is_propagate (journal s') =
        (count is_propagate (journal s) +
         passes fuel (curr_time s) (end_time s) step)%nat /\
      count is_log_iteration (journal s') =
        (count is_log_iteration (journal s) +
         passes fuel (curr_time s) (end_time s) step)%nat /\
      (ticks fuel (curr_time s) (end_time s) step <> None ->
       f_leb (curr_time s') (end_time s') = false).
Proof.
  unfold passes.
  induction fuel as [|fuel IH]; intros iteration s Hexn.
  - exists s. simpl. rewrite Z.add_0_r, !Nat.add_0_r.
    repeat split; auto. congruence.
  - simpl. destruct (f_leb (curr_time s) (end_time s)) eqn:Htest.
    + destruct (loop_body_frame step visualize iteration s)
        as (s1 & Hbody & Hcurr & Hend & Hstart & Hups & Hpo & Hprop & Hlog).
      rewrite Hexn in Hbody, Hcurr. rewrite Hbody.
      destruct (IH (iteration + 1) s1) as
        (s' & Hloop & Hend' & Hstart' & Hups' & Hpo' & Hprop' & Hlog' & Hexit).
      { now rewrite Hups. }
      rewrite Hcurr, Hend in Hloop, Hprop', Hlog', Hexit.
      exists s'. rewrite Hloop.
      destruct (ticks fuel (f_add (curr_time s) step) (end_time s) step)
        as [n|]; simpl.
      * rewrite Hprop', Hlog', Hprop, Hlog.
        repeat split; try congruence; try lia.
        -- f_equal. lia.
        -- intros _. apply Hexit. congruence.
      * rewrite Hprop', Hlog', Hprop, Hlog.
        repeat split; try congruence; try lia.
        f_equal. lia.
    + exists s. rewrite Z.add_0_r, !Nat.add_0_r. repeat split; auto.
Qed.

(** When the frame raises, the first pass through the body is the last. *)
Lemma while_loop_raises (fuel : nat) (step : F) (visualize : bool)
    (iteration : Z) (s : @Simulator F A E) (e : Exn) :
  frame_exn visualize (update_r_p_step s) = Some e ->
  exists s' : @Simulator F A E,
    while_loop (S fuel) step visualize iteration s =
      (if f_leb (curr_time s) (end_time s)
       then Raised e iteration s' else Done tt iteration s) /\
    count is_propagate (journal s') = S (count is_propagate (journal s)) /\
    count is_log_iteration (journal s') =
      S (count is_log_iteration (journal s)).
Proof.
  intros Hexn. simpl.
  destruct (loop_body_frame step visualize iteration s)
    as (s1 & Hbody & _ & _ & _ & _ & _ & Hprop & Hlog).
  rewrite Hexn in Hbody. rewrite Hbody. exists s1.
  destruct (f_leb (curr_time s) (end_time s)); auto.
Qed.

(** The part before the loop never raises and leaves the clock, the
    settings and the counted journal entries as they were. *)
Lemma prologue_frame (step : F) (visualize : bool) (s : @Simulator F A E) :
  exists s0 : @Simulator F A E,
    prologue step visualize s = Ok tt s0 /\
    curr_time s0 = curr_time s /\
    end_time s0 = end_time s /\
    start_time s0 = start_time s /\
    update_r_p_step s0 = update_r_p_step s /\
    print_out s0 = print_out s /\
    count is_propagate (journal s0) = count is_propagate (journal s) /\
    count is_log_iteration (journal s0) = count is_log_iteration (journal s) /\
    count is_policy_call (journal s0) = count is_policy_call (journal s).
Proof.
  destruct s as [ag en t0 t1 t po ups v ta pa fa ra j].
  destruct visualize, po; crunch; eexists; repeat split; try reflexivity;
    count_objects; reflexivity.
Qed.

(** The part after the loop never raises: it logs the protected object's
    position once, prints the report if asked to, and ends with the
    [get_reward] call whose value it returns. *)
Lemma epilogue_frame (s1 : @Simulator F A E) :
  exists (r : F) (s2 : @Simulator F A E) (report : list (@Event F)) (e_last : E),
    epilogue s1 = Ok r s2 /\
    journal s2 =
      Call_get_reward r ::
        report ++ Log_protected_position (curr_time s1) :: journal s1 /\
    get_reward e_last = (r, env s2) /\
    (print_out s1 = false -> report = [] /\ e_last = env s1) /\
    Forall (fun ev => match ev with
                      | Log_protected_position _ | Call_propagate_forward _ _
                      | Log_iteration _ _ _ => False
                      | _ => True
                      end) report /\
    count is_propagate (journal s2) = count is_propagate (journal s1) /\
    count is_log_iteration (journal s2) = count is_log_iteration (journal s1) /\
    curr_time s2 = curr_time s1 /\ end_time s2 = end_time s1.
Proof.
  destruct s1 as [ag en t0 t1 t po ups v ta pa fa ra j].
  destruct po; crunch.
  - do 2 eexists.
    exists [Print_ended f f0 f1 f2; Call_get_trajectory_deviation f2;
            Call_get_fuel_consumption f1; Call_get_reward f0;
            Call_get_collision_probability f].
    exists e2. simpl. repeat split; try reflexivity; try congruence.
    + eassumption.
    + repeat constructor.
  - do 2 eexists. exists [], en. simpl.
    repeat split; try reflexivity; try eassumption. constructor.
Qed.

(** The entries of a loop over the debris objects are no policy calls. *)
Lemma audit_per_object (entry : SpaceObject -> @Event F) objs j :
  (forall obj g, gate_step g (entry obj) = Some g) ->
  audit (per_object entry objs ++ j) = audit j.
Proof.
  intros Hn. apply (per_object_skip audit). intros obj j'. simpl.
  destruct (audit j'); [apply Hn | reflexivity].
Qed.

Ltac audit_objects :=
  unfold debris_records, debris_plots, debris_prints;
  repeat (simpl; rewrite audit_per_object by (intros; reflexivity));
  simpl.

(** A pass through the body keeps the journal in order: the policy is
    only called behind the decision check. *)
Lemma loop_body_in_order (step : F) (visualize : bool) (iteration : Z)
    (s : @Simulator F A E) (g : Gate) :
  audit (journal s) = Some g ->
  exists g' : Gate,
    audit (journal (match loop_body step visualize iteration s with
                    | Ok _ s' => s'
                    | Raise _ s' => s'
                    end)) = Some g'.
Proof.
  destruct s as [ag en t0 t1 t po ups v ta pa fa ra j]. simpl. intros Hg.
  destruct visualize; [destruct ups as [[|p|p]|]|];
    crunch; unfold debris_records, debris_plots, debris_prints;
    repeat first
      [ rewrite Hg
      | rewrite audit_per_object by (intros; reflexivity)
      | match goal with Hd : f_geb _ _ = true |- _ => rewrite Hd end
      | progress simpl
      | progress unfold gate_open ];
    eauto.
Qed.

Lemma while_loop_in_order (fuel : nat) (step : F) (visualize : bool) :
  forall (iteration : Z) (s : @Simulator F A E) (g : Gate),
    audit (journal s) = Some g ->
    exists g' : Gate,
      audit (journal (final (while_loop fuel step visualize iteration s)))
        = Some g'.
Proof.
  induction fuel as [|fuel IH]; intros iteration s g Hg; simpl.
  - eauto.
  - destruct (f_leb (curr_time s) (end_time s)); [|simpl; eauto].
    destruct (loop_body_in_order step visualize iteration s Hg) as [g1 Hg1].
    destruct (loop_body step visualize iteration s) as [[] s1|e s1].
    + eapply IH; eauto.
    + simpl. eauto.
Qed.

Lemma prologue_in_order (step : F) (visualize : bool)
    (s : @Simulator F A E) (g : Gate) :
  audit (journal s) = Some g ->
  exists s0, prologue step visualize s = Ok tt s0 /\
             audit (journal s0) = Some g.
Proof.
  destruct s as [ag en t0 t1 t po ups v ta pa fa ra j]. simpl. intros Hg.
  destruct visualize, po; crunch; eexists; split; try reflexivity;
    audit_objects; rewrite Hg; reflexivity.
Qed.

Lemma epilogue_in_order (s : @Simulator F A E) (g : Gate) :
  audit (journal s) = Some g ->
  exists r s2, epilogue s = Ok r s2 /\ audit (journal s2) = Some g.
Proof.
  destruct s as [ag en t0 t1 t po ups v ta pa fa ra j]. simpl. intros Hg.
  destruct po; crunch; do 2 eexists; split; try reflexivity;
    simpl; rewrite Hg; reflexivity.
Qed.

Lemma run_in_order (fuel : nat) (step : F) (visualize : bool)
    (s : @Simulator F A E) (g : Gate) :
  audit (journal s) = Some g ->
  exists g' : Gate,
    audit (journal (final (run fuel step visualize s))) = Some g'.
Proof.
  intros Hg. unfold run.
  destruct (prologue_in_order step visualize s Hg) as (s0 & -> & Hg0).
  destruct (while_loop_in_order fuel step visualize 0 s0 Hg0) as [g1 Hg1].
  destruct (while_loop fuel step visualize 0 s0) as [[] n s1|e n s1|n s1];
    simpl in *; eauto.
  destruct (epilogue_in_order s1 Hg1) as (r & s2 & -> & Hg2). simpl. eauto.
Qed.

(** A pass through the body whose decision check fails: the journal gains
    the two calls that precede the check, then the telemetry (the iteration
    record, the protected object's position, one position record per debris
    object), then what the visualisation frame adds, without any policy
    call. *)
Lemma loop_body_not_due (step : F) (visualize : bool) (iteration : Z)
    (s : @Simulator F A E) :
  let t := curr_time s in
  let ups := update_r_p_step s in
  let asked := get_next_action (propagate_forward t ups (env s)) in
  f_geb t (fst asked) = false ->
  exists (s' : @Simulator F A E) (frame : list (@Event F)),
    loop_body step visualize iteration s =
      match frame_exn visualize ups with
      | None => Ok tt s'
      | Some e => Raise e s'
      end /\
    journal s' =
      frame ++
      debris_records (debris (snd asked)) t ++
      [Log_protected_position t;
       Log_iteration iteration t (total_collision_probability (snd asked));
       Call_get_next_action (fst asked); Call_propagate_forward t ups] ++
      journal s /\
    count is_policy_call frame = 0%nat /\
    (visualize = false -> frame = []) /\
    (frame_exn visualize ups = None -> curr_time s' = f_add t step).
Proof.
  destruct s as [ag en t0 t1 t po ups v ta pa fa ra j]. simpl.
  destruct (get_next_action (propagate_forward t ups en)) as [next e1] eqn:Hn.
  simpl. intros Hd. unfold frame_exn.
  destruct visualize; [destruct ups as [[|p|p]|]|];
    unfold_m; simpl; rewrite Hn; simpl; rewrite Hd; crunch;
    do 2 eexists; (split; [reflexivity|]); (split; [simpl; peel|]);
    simpl; repeat split; try reflexivity;
    try (count_objects; reflexivity); congruence.
Qed.

(** The whole of [run] follows the clock. *)
Lemma run_clock (fuel : nat) (step : F) (visualize : bool)
    (s : @Simulator F A E) :
  frame_exn visualize (update_r_p_step s) = None ->
  exists (r : F) (s' : @Simulator F A E),
    run fuel step visualize s =
      match ticks fuel (curr_time s) (end_time s) step with
      | Some n => Done r (Z.of_nat n) s'
      | None => OutOfFuel (Z.of_nat fuel) s'
      end /\
    count is_propagate (journal s') =
      (count is_propagate (journal s) +
       passes fuel (curr_time s) (end_time s) step)%nat /\
    count is_log_iteration (journal s') =
      (count is_log_iteration (journal s) +
       passes fuel (curr_time s) (end_time s) step)%nat /\
    (ticks fuel (curr_time s) (end_time s) step <> None ->
     f_leb (curr_time s') (end_time s') = false).
Proof.
  intros Hexn. unfold run.
  destruct (prologue_frame step visualize s)
    as (s0 & -> & Hc & He & _ & Hu & _ & Hp & Hl & _).
  destruct (while_loop_clock fuel step visualize 0 s0)
    as (s1 & Hloop & _ & _ & _ & _ & Hp1 & Hl1 & Hexit).
  { now rewrite Hu. }
  rewrite Hloop, Hc, He.
  rewrite Hc, He, Hp in Hp1. rewrite Hc, He, Hl in Hl1. rewrite Hc, He in Hexit.
  unfold passes in *.
  destruct (ticks fuel (curr_time s) (end_time s) step) as [n|].
  - destruct (epilogue_frame s1)
      as (r & s2 & report & e_last & -> & _ & _ & _ & _ & Hp2 & Hl2 & Hc2 & He2).
    exists r, s2. repeat split; try congruence.
    intros _. rewrite Hc2, He2. apply Hexit. congruence.
  - exists f_zero, s1. repeat split; congruence.
Qed.

Lemma run_raises (fuel : nat) (step : F) (visualize : bool)
    (s : @Simulator F A E) (e : Exn) :
  frame_exn visualize (update_r_p_step s) = Some e ->
  exists (r : F) (s' : @Simulator F A E),
    run (S fuel) step visualize s =
      (if f_leb (curr_time s) (end_time s)
       then Raised e 0 s' else Done r 0 s') /\
    count is_propagate (journal s') =
      (count is_propagate (journal s) +
       if f_leb (curr_time s) (end_time s) then 1 else 0)%nat /\
    count is_log_iteration (journal s') =
      (count is_log_iteration (journal s) +
       if f_leb (curr_time s) (end_time s) then 1 else 0)%nat.
Proof.
  intros Hexn. unfold run.
  destruct (prologue_frame step visualize s)
    as (s0 & -> & Hc & He & _ & Hu & _ & Hp & Hl & _).
  destruct (@while_loop_raises fuel step visualize 0 s0 e)
    as (s1 & Hloop & Hp1 & Hl1).
  { now rewrite Hu. }
  rewrite Hloop, Hc, He.
  destruct (f_leb (curr_time s) (end_time s)).
  - exists f_zero, s1. repeat split; try lia.
  - destruct (epilogue_frame s0)
      as (r & s2 & report & e_last & -> & _ & _ & _ & _ & Hp2 & Hl2 & Hc2 & He2).
    exists r, s2. repeat split; try lia.
Qed.

(** Hence the course of an execution depends on the clock and on the
    visualisation settings, and on nothing the environment or the policy
    answers. *)
Lemma run_schedule (fuel : nat) (step : F) (visualize : bool)
    (s : @Simulator F A E) :
  summary (run fuel step visualize s) s =
    schedule fuel step visualize (update_r_p_step s)
             (curr_time s) (end_time s).
Proof.
  unfold summary, schedule.
  destruct (frame_exn visualize (update_r_p_step s)) as [e|] eqn:Hexn.
  - destruct fuel as [|fuel].
    + unfold run.
      destruct (prologue_frame step visualize s)
        as (s0 & -> & _ & _ & _ & _ & _ & Hp & Hl & _).
      simpl. rewrite Hp, Hl, !Nat.sub_diag. reflexivity.
    + destruct (@run_raises fuel step visualize s e Hexn)
        as (r & s' & -> & Hp & Hl).
      destruct (f_leb (curr_time s) (end_time s)); simpl;
        rewrite Hp, Hl; repeat f_equal; lia.
  - destruct (run_clock fuel step visualize s Hexn)
      as (r & s' & -> & Hp & Hl & _).
    unfold passes in *.
    destruct (ticks fuel (curr_time s) (end_time s) step) as [n|]; simpl;
      rewrite Hp, Hl; repeat f_equal; lia.
Qed.

(** A pass through the body in which the policy is polled and [act]
    answers with a failure description: the warning with the action's three
    deltas and that description is written right after the call, the
    reward record and the telemetry follow, and the clock advances. *)
Lemma loop_body_rejected (step : F) (visualize : bool) (iteration : Z)
    (s : @Simulator F A E) (message : string) :
  let t := curr_time s in
  let ups := update_r_p_step s in
  let asked := get_next_action (propagate_forward t ups (env s)) in
  let seen := get_state (snd asked) in
  let chosen := get_action (fst seen) (agent s) in
  let scored := get_reward (snd seen) in
  let verdict := act (fst chosen) (snd scored) in
  f_geb t (fst asked) = true ->
  fst verdict = Some message ->
  message <> EmptyString ->
  exists (s' : @Simulator F A E) (frame : list (@Event F)),
    loop_body step visualize iteration s =
      match frame_exn visualize ups with
      | None => Ok tt s'
      | Some e => Raise e s'
      end /\
    journal s' =
      frame ++
      debris_records (debris (snd verdict)) t ++
      [Log_protected_position t;
       Log_iteration iteration t (total_collision_probability (snd verdict));
       Log_reward_action iteration (fst scored) (fst chosen);
       Log_bad_action (dVx (fst chosen)) (dVy (fst chosen))
                      (dVz (fst chosen)) message;
       Call_act (fst chosen) (Some message);
       Call_get_reward (fst scored);
       Call_get_action (fst seen) (fst chosen);
       Call_get_state (fst seen);
       Call_get_next_action (fst asked); Call_propagate_forward t ups] ++
      journal s /\
    (visualize = false -> frame = []) /\
    (frame_exn visualize ups = None -> curr_time s' = f_add t step).
Proof.
  destruct s as [ag en t0 t1 t po ups v ta pa fa ra j]. simpl.
  destruct (get_next_action (propagate_forward t ups en)) as [next e1] eqn:Hn.
  simpl.
  destruct (get_state e1) as [st1 e2] eqn:Hs. simpl.
  destruct (get_action st1 ag) as [a ag'] eqn:Ha. simpl.
  destruct (get_reward e2) as [r e3] eqn:Hr. simpl.
  destruct (act a e3) as [err e4] eqn:Hv. simpl.
  intros Hd Herr Hne. subst err.
  destruct message as [|c message]; [contradiction|]. unfold frame_exn.
  destruct visualize; [destruct ups as [[|p|p]|]|];
    unfold_m; simpl; rewrite Hn; simpl; rewrite Hd; simpl;
    rewrite Hs; simpl; rewrite Ha; simpl; rewrite Hr; simpl;
    rewrite Hv; crunch;
    do 2 eexists; (split; [reflexivity|]); (split; [simpl; peel|]);
    simpl; repeat split; try reflexivity;
    try (count_objects; reflexivity); congruence.
Qed.

(** Induction over the passes of the loop: [Q] is kept by a pass that
    returns, [R] is what a pass that raises establishes. *)
Lemma while_loop_invariant (step : F) (visualize : bool)
    (Q R : Z -> @Simulator F A E -> Prop) :
  (forall i s, Q i s -> f_leb (curr_time s) (end_time s) = true ->
     match loop_body step visualize i s with
     | Ok _ s' => Q (i + 1) s'
     | Raise _ s' => R i s'
     end) ->
  forall (fuel : nat) (i : Z) (s : @Simulator F A E),
    Q i s ->
    match while_loop fuel step visualize i s with
    | Done _ n s' => Q n s' /\ f_leb (curr_time s') (end_time s') = false
    | Raised _ n s' => R n s'
    | OutOfFuel n s' => Q n s'
    end.
Proof.
  intros Hbody n. induction n as [|n IH]; intros i s HQ; simpl.
  - exact HQ.
  - destruct (f_leb (curr_time s) (end_time s)) eqn:Htest; [|auto].
    specialize (Hbody i s HQ Htest).
    destruct (loop_body step visualize i s) as [[] s1|e s1].
    + apply IH. exact Hbody.
    + exact Hbody.
Qed.

(** The same for the whole of [run]: [P] before, [Q] from the end of the
    prologue on, [T] at the return. *)
Lemma run_invariant (step : F) (visualize : bool)
    (P : @Simulator F A E -> Prop) (Q R : Z -> @Simulator F A E -> Prop)
    (T : F -> Z -> @Simulator F A E -> Prop) :
  (forall s, P s -> Q 0 (after (prologue step visualize s))) ->
  (forall i s, Q i s -> f_leb (curr_time s) (end_time s) = true ->
     match loop_body step visualize i s with
     | Ok _ s' => Q (i + 1) s'
     | Raise _ s' => R i s'
     end) ->
  (forall n s, Q n s -> f_leb (curr_time s) (end_time s) = false ->
     match epilogue s with
     | Ok r s2 => T r n s2
     | Raise _ _ => True
     end) ->
  forall (fuel : nat) (s : @Simulator F A E),
    P s ->
    match run fuel step visualize s with
    | Done r n s' => T r n s'
    | Raised _ n s' => R n s'
    | OutOfFuel n s' => Q n s'
    end.
Proof.
  intros Hpro Hbody Hepi fuel s HP. unfold run.
  specialize (Hpro s HP).
  destruct (prologue_frame step visualize s) as (s0 & Hp0 & _).
  rewrite Hp0 in Hpro |- *. simpl in Hpro.
  pose proof (@while_loop_invariant step visualize Q R Hbody fuel 0 s0 Hpro)
    as Hloop.
  destruct (while_loop fuel step visualize 0 s0) as [[] n s1|e n s1|n s1];
    try exact Hloop.
  destruct Hloop as [HQ Hexit]. specialize (Hepi n s1 HQ Hexit).
  destruct (epilogue_frame s1) as (r & s2 & _ & _ & Hep & _).
  rewrite Hep in Hepi |- *. exact Hepi.
Qed.

(** At its return [run] leaves the clock past the end epoch. *)
Lemma run_done_exit (fuel : nat) (step : F) (visualize : bool)
    (s : @Simulator F A E) (r : F) (n : Z) (s' : @Simulator F A E) :
  run fuel step visualize s = Done r n s' ->
  f_leb (curr_time s') (end_time s') = false.
Proof.
  intros Hrun.
  pose proof (@run_invariant step visualize (fun _ => True)
                (fun _ _ => True) (fun _ _ => True)
                (fun _ _ s2 => f_leb (curr_time s2) (end_time s2) = false))
    as Hinv.
  specialize (Hinv (fun _ _ => I)).
  assert (Hb : forall i (s1 : @Simulator F A E),
             True -> f_leb (curr_time s1) (end_time s1) = true ->
             match loop_body step visualize i s1 with
             | Ok _ _ => True
             | Raise _ _ => True
             end).
  { intros i s1 _ _. destruct (loop_body step visualize i s1); exact I. }
  specialize (Hinv Hb). clear Hb.
  assert (He : forall (m : Z) (s1 : @Simulator F A E),
             True -> f_leb (curr_time s1) (end_time s1) = false ->
             match epilogue s1 with
             | Ok _ s2 => f_leb (curr_time s2) (end_time s2) = false
             | Raise _ _ => True
             end).
  { intros m s1 _ Hexit.
    destruct (epilogue_frame s1)
      as (r1 & s2 & _ & _ & -> & _ & _ & _ & _ & _ & _ & Hc & Hen).
    now rewrite Hc, Hen. }
  specialize (Hinv He fuel s I). rewrite Hrun in Hinv. exact Hinv.
Qed.

End LoopFacts.

(** C3: read in time order, the journal of any execution of [run] has its
    [get_state], [get_action] and [act] calls only after a
    [propagate_forward(t, _)] and a [get_next_action] whose answer is [<= t];
    and a pass through the body with [t < next_action_epoch] makes the two
    calls of the check, then writes the telemetry and advances the clock,
    with no policy call. *)
Theorem act_only_behind_decision_check :
  forall (F : Type) (S : Scalar F) (O : ScalarOrder F) (A E : Type)
         (En : @Environment F E) (Po : @Policy F A),
    (forall (fuel : nat) (step : F) (visualize : bool)
            (s : @Simulator F A E) (g : Gate),
       audit (journal s) = Some g ->
       exists g' : Gate,
         audit (journal (final (run fuel step visualize s))) = Some g') /\
    (forall (step : F) (visualize : bool) (iteration : Z)
            (s : @Simulator F A E),
       let t := curr_time s in
       let ups := update_r_p_step s in
       let asked := get_next_action (propagate_forward t ups (env s)) in
       f_ltb t (fst asked) = true ->
       exists (s' : @Simulator F A E) (frame : list (@Event F)),
         loop_body step visualize iteration s =
           match frame_exn visualize ups with
           | None => Ok tt s'
           | Some e => Raise e s'
           end /\
         journal s' =
           frame ++
           debris_records (debris (snd asked)) t ++
           [Log_protected_position t;
            Log_iteration iteration t
              (total_collision_probability (snd asked));
            Call_get_next_action (fst asked); Call_propagate_forward t ups] ++
           journal s /\
         count is_policy_call frame = 0%nat /\
         (visualize = false -> frame = []) /\
         (frame_exn visualize ups = None -> curr_time s' = f_add t step)).
Proof.
  intros F S O A E En Po. split.
  - intros fuel step visualize s g. apply run_in_order.
  - intros step visualize iteration s t ups asked Hlt.
    apply loop_body_not_due. apply f_ltb_not_geb. exact Hlt.
Qed.

Lemma act_only_behind_decision_check_witness :
  (exists g' : Gate,
     audit (journal (final (run 5 (f_decimal 1 4) false
                              (session (f_decimal 659995 2) None None))))
       = Some g') /\
  (exists s' frame,
     loop_body (f_decimal 1 4) false 0 (session (f_decimal 7000 0) None None) =
       Ok tt s' /\
     journal s' =
       frame ++
       [Log_debris_positions "DEBRIS2"%string (f_decimal 659995 2);
        Log_debris_positions "DEBRIS1"%string (f_decimal 659995 2);
        Log_protected_position (f_decimal 659995 2);
        Log_iteration 0 (f_decimal 659995 2) f_zero;
        Call_get_next_action (f_decimal 7000 0);
        Call_propagate_forward (f_decimal 659995 2) None] /\
     count is_policy_call frame = 0%nat /\
     (false = false -> frame = []) /\
     (@None Exn = None ->
      curr_time s' = f_add (f_decimal 659995 2) (f_decimal 1 4))).
Proof.
  split.
  - exact (proj1 (@act_only_behind_decision_check spec_float _ _ _ _ _ _)
             5%nat (f_decimal 1 4) false
             (session (f_decimal 659995 2) None None)
             (mkGate None None) eq_refl).
  - exact (proj2 (@act_only_behind_decision_check spec_float _ _ _ _ _ _)
             (f_decimal 1 4) false 0
             (session (f_decimal 7000 0) None None) eq_refl).
Defined.

(** The audit is not vacuous: it passes a journal where the policy was
    called, and rejects one where [act] comes before the check is passed. *)
Example audit_sanity :
  count is_policy_call
    (journal (final (run 5 (f_decimal 1 4) false
                       (session (f_decimal 659995 2) None None)))) = 15%nat /\
  audit [Call_act (default_action (f_decimal 66 0)) None;
         Call_get_next_action (f_decimal 70 0);
         Call_propagate_forward (f_decimal 66 0 : spec_float) None] = None.
Proof. vm_compute. split; reflexivity. Qed.



(** C8: an execution of [run] that returns has left the loop, then written
    one protected-position record, then (only when [print_out] is set) asked
    the environment for the figures of the printed report, and last called
    [get_reward]; what that call answered is the value returned.  Whenever
    the loop is left, [run] returns. *)
Theorem run_returns_the_environment_reward :
  forall (F : Type) (S : Scalar F) (A E : Type)
         (En : @Environment F E) (Po : @Policy F A)
         (fuel : nat) (step : F) (visualize : bool) (s : @Simulator F A E),
    (forall (r : F) (n : Z) (s2 : @Simulator F A E),
       run fuel step visualize s = Done r n s2 ->
       exists (s0 s1 : @Simulator F A E) (report : list (@Event F))
              (e_last : E),
         prologue step visualize s = Ok tt s0 /\
         while_loop fuel step visualize 0 s0 = Done tt n s1 /\
         journal s2 =
           Call_get_reward r ::
             report ++ Log_protected_position (curr_time s1) :: journal s1 /\
         get_reward e_last = (r, env s2) /\
         (print_out s1 = false -> report = [] /\ e_last = env s1) /\
         Forall (fun ev => match ev with
                           | Log_protected_position _
                           | Call_propagate_forward _ _
                           | Log_iteration _ _ _ => False
                           | _ => True
                           end) report) /\
    (forall (s0 s1 : @Simulator F A E) (n : Z),
       prologue step visualize s = Ok tt s0 ->
       while_loop fuel step visualize 0 s0 = Done tt n s1 ->
       exists (r : F) (s2 : @Simulator F A E),
         run fuel step visualize s = Done r n s2).
Proof.
  intros F S A E En Po fuel step visualize s. split.
  - intros r n s2. unfold run.
    destruct (prologue_frame step visualize s) as (s0 & Hpro & _).
    rewrite Hpro.
    destruct (while_loop fuel step visualize 0 s0)
      as [[] m s1|e m s1|m s1] eqn:Hloop; try discriminate.
    destruct (epilogue_frame s1)
      as (r' & s2' & report & e_last & Hep & Hj & Hr & Hpo & Hrep & _).
    rewrite Hep. intros Heq. injection Heq as -> -> ->.
    exists s0, s1, report, e_last.
    split; [reflexivity|]. split; [exact Hloop|]. tauto.
  - intros s0 s1 n Hpro Hloop. unfold run. rewrite Hpro, Hloop.
    destruct (epilogue_frame s1) as (r & s2 & _ & _ & -> & _).
    eauto.
Qed.

Lemma run_returns_the_environment_reward_witness :
  (exists s0 s1 report e_last,
     prologue (f_decimal 5 1) false short_session = Ok tt s0 /\
     while_loop 5 (f_decimal 5 1) false 0 s0 = Done tt 2 s1 /\
     journal (final (run 5 (f_decimal 5 1) false short_session)) =
       Call_get_reward f_zero ::
         report ++ Log_protected_position (curr_time s1) :: journal s1 /\
     get_reward e_last =
       (f_zero, env (final (run 5 (f_decimal 5 1) false short_session))) /\
     (print_out s1 = false -> report = [] /\ e_last = env s1) /\
     Forall (fun ev => match ev with
                       | Log_protected_position _
                       | Call_propagate_forward _ _
                       | Log_iteration _ _ _ => False
                       | _ => True
                       end) report) /\
  (exists r' s2, run 5 (f_decimal 5 1) false short_session = Done r' 2 s2).
Proof.
  split.
  - refine (proj1 (@run_returns_the_environment_reward spec_float _ _ _ _ _
                     5%nat (f_decimal 5 1) false short_session)
              f_zero 2
              (final (run 5 (f_decimal 5 1) false short_session)) _).
    vm_compute. reflexivity.
  - refine (proj2 (@run_returns_the_environment_reward spec_float _ _ _ _ _
                     5%nat (f_decimal 5 1) false short_session)
              short_session
              (final (while_loop 5 (f_decimal 5 1) false 0 short_session))
              2 _ _); vm_compute; reflexivity.
Defined.

(** C9: with [update_r_p_step = None] a visualised run whose loop is
    entered raises [TypeError] in its first pass, at
    [iteration % self.update_r_p_step], after that pass's telemetry; with
    [update_r_p_step = 0] it raises [ZeroDivisionError] there; with a
    non-zero integer it never raises.  A run that is not visualised never
    raises, whatever [update_r_p_step], [None] included: it follows the
    clock. *)
Theorem visualized_run_needs_update_r_p_step :
  forall (F : Type) (S : Scalar F) (A E : Type)
         (En : @Environment F E) (Po : @Policy F A)
         (fuel : nat) (step : F) (s : @Simulator F A E),
    (update_r_p_step s = None ->
     f_leb (curr_time s) (end_time s) = true ->
     exists s' : @Simulator F A E,
       run (Datatypes.S fuel) step true s = Raised TypeError 0 s' /\
       count is_log_iteration (journal s') =
         Datatypes.S (count is_log_iteration (journal s))) /\
    (update_r_p_step s = Some 0 ->
     f_leb (curr_time s) (end_time s) = true ->
     exists s' : @Simulator F A E,
       run (Datatypes.S fuel) step true s = Raised ZeroDivisionError 0 s') /\
    (forall k : Z,
       update_r_p_step s = Some k -> k <> 0 ->
       forall e : Exn, kind_of (run fuel step true s) <> Failed e) /\
    (forall e : Exn, kind_of (run fuel step false s) <> Failed e) /\
    (exists (r : F) (s' : @Simulator F A E),
       run fuel step false s =
         match ticks fuel (curr_time s) (end_time s) step with
         | Some n => Done r (Z.of_nat n) s'
         | None => OutOfFuel (Z.of_nat fuel) s'
         end).
Proof.
  intros F S A E En Po fuel step s.
  assert (Hkind : forall visualize,
            frame_exn visualize (update_r_p_step s) = None ->
            forall e, kind_of (run fuel step visualize s) <> Failed e).
  { intros visualize Hexn e.
    destruct (run_clock fuel step visualize s Hexn) as (r & s' & -> & _).
    destruct (ticks fuel (curr_time s) (end_time s) step); discriminate. }
  split; [|split; [|split; [|split]]].
  - intros Hups Htest.
    destruct (@run_raises _ _ _ _ _ _ fuel step true s TypeError)
      as (r & s' & Hrun & _ & Hl).
    { simpl. now rewrite Hups. }
    rewrite Htest in Hrun, Hl. exists s'. split; [exact Hrun | lia].
  - intros Hups Htest.
    destruct (@run_raises _ _ _ _ _ _ fuel step true s ZeroDivisionError)
      as (r & s' & Hrun & _).
    { simpl. now rewrite Hups. }
    rewrite Htest in Hrun. eauto.
  - intros k Hups Hk. apply Hkind. simpl. rewrite Hups.
    destruct k; [contradiction| |]; reflexivity.
  - apply Hkind. reflexivity.
  - destruct (run_clock fuel step false s eq_refl) as (r & s' & Hrun & _).
    eauto.
Qed.

Lemma visualized_run_needs_update_r_p_step_witness :
  (exists s',
     run 1 (f_decimal 1 4) true (session (f_decimal 659995 2) None None) =
       Raised TypeError 0 s' /\
     count is_log_iteration (journal s') = 1%nat) /\
  (exists s',
     run 1 (f_decimal 1 4) true (session (f_decimal 659995 2) None (Some 0)) =
       Raised ZeroDivisionError 0 s') /\
  (forall e : Exn,
     kind_of (run 1 (f_decimal 1 4) true
                (session (f_decimal 659995 2) None (Some 10))) <> Failed e).
Proof.
  pose proof (@visualized_run_needs_update_r_p_step spec_float _
                (@Table spec_float) (@Scripted spec_float) _ _
                0%nat (f_decimal 1 4)) as T.
  split; [|split].
  - exact (proj1 (T (session (f_decimal 659995 2) None None))
             eq_refl eq_refl).
  - exact (proj1 (proj2 (T (session (f_decimal 659995 2) None (Some 0))))
             eq_refl eq_refl).
  - refine (proj1 (proj2 (proj2
              (@visualized_run_needs_update_r_p_step spec_float _
                (@Table spec_float) (@Scripted spec_float) _ _
                 1%nat (f_decimal 1 4)
                 (session (f_decimal 659995 2) None (Some 10)))))
              10 eq_refl _).
    discriminate.
Defined.

(** ** The clock of the loop *)
Section ClockFacts.
Context {F : Type} `{Scalar F} {A E : Type} `{@Environment F E} `{@Policy F A}.

(** The clock leaves the loop at the first running sum that is not
    [<= end_t], and not before. *)
Lemma ticks_exit (end_t step : F) (n : nat) :
  forall (fuel : nat) (t : F),
    forallb (fun x => f_leb x end_t) (clock_seq n t step) = true ->
    f_leb (clock_after n t step) end_t = false ->
    (n < fuel)%nat ->
    ticks fuel t end_t step = Some n.
Proof.
  induction n as [|n IH]; intros k t Hin Hout Hfuel;
    (destruct k as [|k]; [lia|]); simpl in *.
  - now rewrite Hout.
  - apply andb_true_iff in Hin. destruct Hin as [Ht Hin]. rewrite Ht.
    rewrite (IH k (f_add t step)); auto. lia.
Qed.

Lemma ticks_stay (end_t step : F) :
  forall (fuel : nat) (t : F),
    forallb (fun x => f_leb x end_t) (clock_seq fuel t step) = true ->
    ticks fuel t end_t step = None.
Proof.
  intros k. induction k as [|k IH]; intros t Hin; simpl in *; [reflexivity|].
  apply andb_true_iff in Hin. destruct Hin as [Ht Hin].
  now rewrite Ht, IH.
Qed.

Lemma ticks_some (end_t step : F) :
  forall (fuel : nat) (t : F) (n : nat),
    ticks fuel t end_t step = Some n ->
    forallb (fun x => f_leb x end_t) (clock_seq n t step) = true /\
    f_leb (clock_after n t step) end_t = false /\
    (n < fuel)%nat.
Proof.
  intros k. induction k as [|k IH]; intros t n Hn; simpl in Hn;
    [discriminate|].
  destruct (f_leb t end_t) eqn:Ht.
  - destruct (ticks k (f_add t step) end_t step) as [m|] eqn:Hm;
      [|discriminate].
    injection Hn as <-.
    destruct (IH (f_add t step) m Hm) as (Hin & Hout & Hlt).
    simpl. rewrite Ht, Hin. repeat split; auto. lia.
  - injection Hn as <-. simpl. repeat split; auto. lia.
Qed.

(** A step the addition absorbs leaves the clock where it was. *)
Lemma clock_seq_stuck (t end_t step : F) :
  f_add t step = t -> f_leb t end_t = true ->
  forall n : nat,
    forallb (fun x => f_leb x end_t) (clock_seq n t step) = true.
Proof.
  intros Hadd Ht n. induction n as [|n IH]; simpl; [reflexivity|].
  now rewrite Ht, Hadd, IH.
Qed.

(** [run] returns after [n] passes when the [n]-th running sum is the
    first that is not [<= end_time]. *)
Lemma run_exits (fuel : nat) (step : F) (visualize : bool)
    (s : @Simulator F A E) (n : nat) :
  frame_exn visualize (update_r_p_step s) = None ->
  forallb (fun t => f_leb t (end_time s)) (clock_seq n (curr_time s) step)
    = true ->
  f_leb (clock_after n (curr_time s) step) (end_time s) = false ->
  (n < fuel)%nat ->
  exists (r : F) (s' : @Simulator F A E),
    run fuel step visualize s = Done r (Z.of_nat n) s' /\
    count is_propagate (journal s') =
      (count is_propagate (journal s) + n)%nat /\
    f_leb (curr_time s') (end_time s') = false.
Proof.
  intros Hexn Hin Hout Hfuel.
  destruct (run_clock fuel step visualize s Hexn)
    as (r & s' & Hrun & Hp & _ & Hexit).
  unfold passes in Hp.
  rewrite (@ticks_exit (end_time s) step n fuel (curr_time s) Hin Hout Hfuel)
    in Hrun, Hp, Hexit.
  exists r, s'. repeat split; auto. apply Hexit. discriminate.
Qed.

(** [run] is still in the loop after [fuel] passes when none of the first
    [fuel] running sums exceeds [end_time]. *)
Lemma run_stays (fuel : nat) (step : F) (visualize : bool)
    (s : @Simulator F A E) :
  frame_exn visualize (update_r_p_step s) = None ->
  forallb (fun t => f_leb t (end_time s)) (clock_seq fuel (curr_time s) step)
    = true ->
  exists s' : @Simulator F A E,
    run fuel step visualize s = OutOfFuel (Z.of_nat fuel) s' /\
    count is_propagate (journal s') =
      (count is_propagate (journal s) + fuel)%nat.
Proof.
  intros Hexn Hin.
  destruct (run_clock fuel step visualize s Hexn)
    as (r & s' & Hrun & Hp & _).
  unfold passes in Hp.
  rewrite (@ticks_stay (end_time s) step fuel (curr_time s) Hin) in Hrun, Hp.
  exists s'. split; assumption.
Qed.

(** A run that returns made as many passes as there are running sums
    before the first that is not [<= end_time]. *)
Lemma run_done_clock (fuel : nat) (step : F) (visualize : bool)
    (s : @Simulator F A E) (r : F) (n : Z) (s' : @Simulator F A E) :
  run fuel step visualize s = Done r n s' ->
  exists k : nat,
    n = Z.of_nat k /\ (k < fuel)%nat /\
    forallb (fun t => f_leb t (end_time s)) (clock_seq k (curr_time s) step)
      = true /\
    f_leb (clock_after k (curr_time s) step) (end_time s) = false.
Proof.
  intros Hrun.
  destruct (frame_exn visualize (update_r_p_step s)) as [e|] eqn:Hexn.
  - destruct fuel as [|fuel].
    + unfold run in Hrun.
      destruct (prologue_frame step visualize s) as (s0 & Hp & _).
      rewrite Hp in Hrun. simpl in Hrun. discriminate.
    + destruct (@run_raises _ _ _ _ _ _ fuel step visualize s e Hexn)
        as (r' & s'' & Hrun' & _).
      rewrite Hrun' in Hrun.
      destruct (f_leb (curr_time s) (end_time s)) eqn:Ht; [discriminate|].
      injection Hrun as <- <- <-. exists 0%nat. simpl.
      repeat split; auto. lia.
  - destruct (run_clock fuel step visualize s Hexn)
      as (r' & s'' & Hrun' & _).
    rewrite Hrun' in Hrun.
    destruct (ticks fuel (curr_time s) (end_time s) step) as [k|] eqn:Hk;
      [|discriminate].
    injection Hrun as <- <- <-. exists k.
    destruct (@ticks_some (end_time s) step fuel (curr_time s) k Hk)
      as (Hin & Hout & Hlt). auto.
Qed.

(** Whatever the step, a run whose clock starts at or before [end_time]
    makes a first pass. *)
Lemma run_enters (fuel : nat) (step : F) (visualize : bool)
    (s : @Simulator F A E) :
  f_leb (curr_time s) (end_time s) = true ->
  (count is_propagate (journal s) <
   count is_propagate (journal (final (run (S fuel) step visualize s))))%nat.
Proof.
  intros Ht.
  destruct (frame_exn visualize (update_r_p_step s)) as [e|] eqn:Hexn.
  - destruct (@run_raises _ _ _ _ _ _ fuel step visualize s e Hexn)
      as (r' & s'' & Hrun' & Hp & _).
    rewrite Ht in Hrun', Hp. rewrite Hrun'. simpl. lia.
  - destruct (run_clock (S fuel) step visualize s Hexn)
      as (r' & s'' & Hrun' & Hp & _).
    unfold passes in Hp. simpl in Hrun', Hp. rewrite Ht in Hrun', Hp.
    destruct (ticks fuel (f_add (curr_time s) step) (end_time s) step);
      simpl in Hrun', Hp; rewrite Hrun'; simpl; lia.
Qed.

(** A run that is not visualised leaves the environment to the loop. *)
Lemma prologue_env (step : F) (s : @Simulator F A E) :
  env (after (prologue step false s)) = env s /\
  agent (after (prologue step false s)) = agent s.
Proof.
  destruct s as [ag en t0 t1 t po ups v ta pa fa ra j].
  destruct po; crunch; split; reflexivity.
Qed.

End ClockFacts.

(** C5, as the code has it.  The clock is the running sum start,
    start + step, (start + step) + step, ... of the arithmetic at hand,
    binary64 for the interpreter.  When no visualisation frame raises,
    [run] makes one pass, with one [propagate_forward] call, for each running
    sum up to the first that is not <= end: if that is the n-th it returns
    after exactly n passes (n >= 1 when start <= end); if none of the first
    [fuel] is, it is still in the loop after [fuel] passes, and it never
    returns when the addition absorbs the step.  Conversely a run that
    returns made that number of passes, and at its return the loop test
    fails, so the loop is not entered again.  In binary64 the inputs
    6599.95, 6600.05 and 0.0001 give exactly 1000 passes. *)
Theorem run_iteration_count :
  (forall (F : Type) (S : Scalar F) (A E : Type)
          (En : @Environment F E) (Po : @Policy F A)
          (fuel : nat) (step : F) (visualize : bool) (s : @Simulator F A E),
     frame_exn visualize (update_r_p_step s) = None ->
     (forall n : nat,
        forallb (fun t => f_leb t (end_time s))
                (clock_seq n (curr_time s) step) = true ->
        f_leb (clock_after n (curr_time s) step) (end_time s) = false ->
        (n < fuel)%nat ->
        exists (r : F) (s' : @Simulator F A E),
          run fuel step visualize s = Done r (Z.of_nat n) s' /\
          count is_propagate (journal s') =
            (count is_propagate (journal s) + n)%nat /\
          f_leb (curr_time s') (end_time s') = false /\
          (f_leb (curr_time s) (end_time s) = true -> (1 <= n)%nat)) /\
     (forallb (fun t => f_leb t (end_time s))
              (clock_seq fuel (curr_time s) step) = true ->
      exists s' : @Simulator F A E,
        run fuel step visualize s = OutOfFuel (Z.of_nat fuel) s' /\
        count is_propagate (journal s') =
          (count is_propagate (journal s) + fuel)%nat) /\
     (f_leb (curr_time s) (end_time s) = true ->
      f_add (curr_time s) step = curr_time s ->
      kind_of (run fuel step visualize s) = Unfinished)) /\
  (forall (F : Type) (S : Scalar F) (A E : Type)
          (En : @Environment F E) (Po : @Policy F A)
          (fuel : nat) (step : F) (visualize : bool) (s : @Simulator F A E)
          (r : F) (n : Z) (s' : @Simulator F A E),
     run fuel step visualize s = Done r n s' ->
     f_leb (curr_time s') (end_time s') = false /\
     exists k : nat,
       n = Z.of_nat k /\
       forallb (fun t => f_leb t (end_time s))
               (clock_seq k (curr_time s) step) = true /\
       f_leb (clock_after k (curr_time s) step) (end_time s) = false) /\
  (forall (A E : Type) (En : @Environment spec_float E)
          (Po : @Policy spec_float A)
          (visualize : bool) (s : @Simulator spec_float A E),
     curr_time s = f_decimal 659995 2 ->
     end_time s = f_decimal 660005 2 ->
     frame_exn visualize (update_r_p_step s) = None ->
     exists (r : spec_float) (s' : @Simulator spec_float A E),
       run 1001 (f_decimal 1 4) visualize s = Done r 1000 s' /\
       count is_propagate (journal s') =
         (count is_propagate (journal s) + 1000)%nat /\
       f_leb (curr_time s') (end_time s') = false).
Proof.
  split; [|split].
  - intros F S A E En Po fuel step visualize s Hexn. split; [|split].
    + intros n Hin Hout Hfuel.
      destruct (@run_exits F S A E En Po fuel step visualize s n
                  Hexn Hin Hout Hfuel)
        as (r & s' & Hrun & Hp & Hexit).
      exists r, s'. repeat split; auto.
      intros Ht. destruct n as [|n]; [|lia].
      simpl in Hout. congruence.
    + intros Hin.
      exact (@run_stays F S A E En Po fuel step visualize s Hexn Hin).
    + intros Ht Hadd.
      destruct (@run_stays F S A E En Po fuel step visualize s Hexn
                  (@clock_seq_stuck F S (curr_time s) (end_time s) step
                     Hadd Ht fuel)) as (s' & -> & _).
      reflexivity.
  - intros F S A E En Po fuel step visualize s r n s' Hrun. split.
    + exact (@run_done_exit F S A E En Po fuel step visualize s r n s' Hrun).
    + destruct (@run_done_clock F S A E En Po fuel step visualize s r n s'
                  Hrun) as (k & Hn & _ & Hin & Hout).
      exists k. auto.
  - intros A E En Po visualize s Hc He Hexn.
    destruct (run_clock 1001 (f_decimal 1 4) visualize s Hexn)
      as (r & s' & Hrun & Hp & _ & Hexit).
    unfold passes in Hp. rewrite Hc, He in Hrun, Hp, Hexit.
    replace (ticks 1001 (f_decimal 659995 2) (f_decimal 660005 2)
                   (f_decimal 1 4 : spec_float)) with (Some 1000%nat)
      in Hrun, Hp, Hexit by (vm_compute; reflexivity).
    exists r, s'. repeat split; auto. apply Hexit. discriminate.
Qed.

Lemma run_iteration_count_witness :
  (exists r s',
     run 5 (f_decimal 5 1) false short_session = Done r (Z.of_nat 2) s' /\
     count is_propagate (journal s') =
       (count is_propagate (journal short_session) + 2)%nat /\
     f_leb (curr_time s') (end_time s') = false /\
     (f_leb (curr_time short_session) (end_time short_session) = true ->
      (1 <= 2)%nat)) /\
  (exists s',
     run 1000 (f_decimal 1 13) false (session (f_decimal 659995 2) None None) =
       OutOfFuel (Z.of_nat 1000) s' /\
     count is_propagate (journal s') =
       (count is_propagate (journal (session (f_decimal 659995 2) None None))
        + 1000)%nat) /\
  kind_of (run 1000 (f_decimal 1 13) false
             (session (f_decimal 659995 2) None None)) = Unfinished.
Proof.
  split; [|split].
  - refine (proj1 (proj1 run_iteration_count spec_float _ unit
                     (@Scripted spec_float) _ _ 5%nat (f_decimal 5 1) false
                     short_session eq_refl) 2%nat _ _ _).
    + vm_compute. reflexivity.
    + vm_compute. reflexivity.
    + lia.
  - refine (proj1 (proj2 (proj1 run_iteration_count spec_float _
                     (@Table spec_float) (@Scripted spec_float) _ _
                     1000%nat (f_decimal 1 13) false
                     (session (f_decimal 659995 2) None None) eq_refl)) _).
    vm_compute. reflexivity.
  - refine (proj2 (proj2 (proj1 run_iteration_count spec_float _
                     (@Table spec_float) (@Scripted spec_float) _ _
                     1000%nat (f_decimal 1 13) false
                     (session (f_decimal 659995 2) None None) eq_refl)) _ _);
      vm_compute; reflexivity.
Defined.

(** C5 as stated fails.  From 0.0 to 0.75 in steps of 0.5 (all three held
    exactly by binary64) the loop makes 2 passes, at 0.0 and 0.5, where
    ceil(0.75 / 0.5) + 1 is 3 (and floor(0.75 / 0.5) + 1 is 2).  From
    6599.95 to 6600.05 in steps of 0.0001 binary64 arithmetic makes 1000
    passes, where the closed form gives 1001 on the decimal values and 1002
    on the values binary64 holds.  And with the positive step 1e-13 the run
    from 6599.95 to 6600.05 does not terminate: binary64 rounds
    6599.95 + 1e-13 to 6599.95, so the clock never moves. *)
Lemma run_iteration_count_is_not_ceiling :
  (summary (run 10 (f_decimal 5 1) false short_session) short_session =
     (Completed, 2, 2%nat, 2%nat) /\
   spec_iterations (B64.to_Q (f_decimal 0 0)) (B64.to_Q (f_decimal 75 2))
                   (B64.to_Q (f_decimal 5 1)) = 3 /\
   floor_iterations (B64.to_Q (f_decimal 0 0)) (B64.to_Q (f_decimal 75 2))
                    (B64.to_Q (f_decimal 5 1)) = 2 /\
   (B64.to_Q (f_decimal 75 2) == 3 # 4)%Q /\
   (B64.to_Q (f_decimal 5 1) == 1 # 2)%Q /\
   summary (run 1100 (f_decimal 1 4) false
              (session (f_decimal 659995 2) None None))
           (session (f_decimal 659995 2) None None) =
     (Completed, 1000, 1000%nat, 1000%nat) /\
   spec_iterations (659995 # 100) (660005 # 100) (1 # 10000) = 1001 /\
   spec_iterations (B64.to_Q (f_decimal 659995 2))
                   (B64.to_Q (f_decimal 660005 2))
                   (B64.to_Q (f_decimal 1 4)) = 1002 /\
   f_leb (f_decimal 659995 2 : spec_float) (f_decimal 660005 2) = true /\
   f_ltb f_zero (f_decimal 1 13 : spec_float) = true /\
   f_add (f_decimal 659995 2) (f_decimal 1 13 : spec_float) =
     f_decimal 659995 2) /\
  (forall fuel : nat,
     kind_of (run fuel (f_decimal 1 13) false
                (session (f_decimal 659995 2) None None)) = Unfinished).
Proof.
  split; [vm_compute; repeat split; reflexivity|].
  intros fuel.
  destruct (@run_stays spec_float _ _ _ _ _ fuel (f_decimal 1 13) false
              (session (f_decimal 659995 2) None None) eq_refl)
    as (s' & -> & _); [|reflexivity].
  apply (@clock_seq_stuck spec_float _); vm_compute; reflexivity.
Qed.

(** C7, as the code has it: [Simulator.__init__] checks nothing, it stores
    its arguments and the two epochs of the environment, and [step] is not
    one of its arguments but an argument of [run], which does not check it
    either.  A session built on an environment whose end epoch is below its
    start epoch is an ordinary session: its [run] returns, without a single
    pass through the loop body (no [propagate_forward] call, no iteration
    record), what the environment's [get_reward] answers.  With
    start <= end the loop is entered whatever the step, a negative one
    included; and when no visualisation frame raises, the run is still in
    the loop after as many passes as there are running sums
    start + step + ... + step that remain <= end.  In binary64 a finite
    negative step never lets a running sum rise, so such a run never leaves
    the loop: after any number of passes it is still inside. *)
Theorem construction_checks_nothing :
  (forall (F : Type) (S : Scalar F) (O : ScalarOrder F) (A E : Type)
          (En : @Environment F E) (Po : @Policy F A)
          (ag : A) (environment : E) (ups : option Z) (po : bool),
     let s := Simulator_init ag environment ups po in
     (agent s = ag /\ env s = environment /\
      start_time s = init_start_time environment /\
      end_time s = init_end_time environment /\
      curr_time s = init_start_time environment /\
      update_r_p_step s = ups /\ print_out s = po /\ journal s = []) /\
     (forall (fuel : nat) (step : F) (visualize : bool),
        f_ltb (init_end_time environment) (init_start_time environment)
          = true ->
        exists (r : F) (s' : @Simulator F A E) (e_last : E),
          run (Datatypes.S fuel) step visualize s = Done r 0 s' /\
          count is_propagate (journal s') = 0%nat /\
          count is_log_iteration (journal s') = 0%nat /\
          get_reward e_last = (r, env s') /\
          (visualize = false -> po = false -> e_last = environment)) /\
     (forall (fuel : nat) (step : F) (visualize : bool),
        f_leb (init_start_time environment) (init_end_time environment)
          = true ->
        (1 <= count is_propagate
                (journal (final (run (Datatypes.S fuel) step visualize s))))%nat /\
        (frame_exn visualize ups = None ->
         forallb (fun t => f_leb t (init_end_time environment))
                 (clock_seq (Datatypes.S fuel) (init_start_time environment) step)
           = true ->
         kind_of (run (Datatypes.S fuel) step visualize s) = Unfinished /\
         count is_propagate
           (journal (final (run (Datatypes.S fuel) step visualize s))) =
           Datatypes.S fuel))) /\
  (forall (A E : Type) (En : @Environment spec_float E)
          (Po : @Policy spec_float A)
          (ag : A) (environment : E) (ups : option Z) (po : bool)
          (fuel : nat) (step : spec_float) (visualize : bool),
     B64.valid (init_start_time environment) = true ->
     B64.valid step = true ->
     B64.finite step = true ->
     f_ltb step f_zero = true ->
     f_leb (init_start_time environment) (init_end_time environment) = true ->
     frame_exn visualize ups = None ->
     kind_of (run fuel step visualize
                (Simulator_init ag environment ups po)) = Unfinished /\
     count is_propagate
       (journal (final (run fuel step visualize
                          (Simulator_init ag environment ups po)))) = fuel).
Proof.
  split.
  - intros F S O A E En Po ag environment ups po s.
    split; [repeat split|]. split.
    + intros fuel step visualize Hlt.
      apply f_ltb_not_geb in Hlt. unfold f_geb in Hlt.
      unfold run.
      destruct (prologue_frame step visualize s)
        as (s0 & Hpro & Hc & He & _ & _ & Hpo & Hp & Hl & _).
      rewrite Hpro.
      assert (Htest : f_leb (curr_time s0) (end_time s0) = false)
        by (rewrite Hc, He; exact Hlt).
      simpl. rewrite Htest.
      destruct (epilogue_frame s0)
        as (r & s2 & report & e_last & Hep & _ & Hr & Hrep & _ & Hp2 & Hl2 & _).
      rewrite Hep. exists r, s2, e_last.
      split; [reflexivity|]. split; [rewrite Hp2, Hp; reflexivity|].
      split; [rewrite Hl2, Hl; reflexivity|]. split; [exact Hr|].
      intros -> ->. destruct (Hrep Hpo) as [_ ->].
      pose proof (prologue_env step s) as [Henv _].
      rewrite Hpro in Henv. exact Henv.
    + intros fuel step visualize Hle. split.
      * pose proof (@run_enters F S A E En Po fuel step visualize s Hle)
          as Hin.
        simpl in Hin. lia.
      * intros Hexn Hin.
        destruct (@run_stays F S A E En Po (Datatypes.S fuel) step
                    visualize s Hexn Hin)
          as (s' & -> & Hp).
        split; [reflexivity|]. exact Hp.
  - intros A E En Po ag environment ups po fuel step visualize
           Hvt Hvs Hfs Hneg Hle Hexn.
    destruct (@run_stays spec_float _ A E En Po fuel step visualize
                (Simulator_init ag environment ups po) Hexn)
      as (s' & -> & Hp).
    + apply negative_step_clock; assumption.
    + split; [reflexivity|]. exact Hp.
Qed.

Lemma construction_checks_nothing_witness :
  (exists r s' e_last,
     run 1 (f_decimal 1 4) true backwards_session = Done r 0 s' /\
     count is_propagate (journal s') = 0%nat /\
     count is_log_iteration (journal s') = 0%nat /\
     get_reward e_last = (r, env s') /\
     (true = false -> false = false -> e_last = env backwards_session)) /\
  (kind_of (run 1000 (f_decimal (-1) 3) false
              (session (f_decimal 659995 2) None None)) = Unfinished /\
   count is_propagate
     (journal (final (run 1000 (f_decimal (-1) 3) false
                        (session (f_decimal 659995 2) None None)))) =
     1000%nat).
Proof.
  split.
  - exact (proj1 (proj2 (proj1 construction_checks_nothing spec_float _ _
             (@Table spec_float) (@Scripted spec_float) _ _
             table_6600
             (mkScripted (f_decimal 660005 2) (f_decimal 659995 2)
                         (f_decimal 660005 2) (f_decimal 660005 2) None f_zero
                         two_debris)
             None false))
             0%nat (f_decimal 1 4) true eq_refl).
  - refine (proj2 construction_checks_nothing
             (@Table spec_float) (@Scripted spec_float) _ _
             table_6600
             (mkScripted (f_decimal 659995 2) (f_decimal 660005 2)
                         (f_decimal 659995 2) (f_decimal 659995 2) None f_zero
                         two_debris)
             None false 1000%nat (f_decimal (-1) 3) false
             _ _ _ _ _ eq_refl); vm_compute; reflexivity.
Defined.

(** C7 as stated fails: the session with end epoch 6599.95 below start
    epoch 6600.05 is built, and its [run] completes with no pass; the
    session from 6599.95 to 6600.05 is run with step -0.001 and makes every
    one of the 10 passes it is allowed. *)
Lemma invalid_sessions_are_built_and_run :
  f_ltb (end_time backwards_session) (start_time backwards_session) = true /\
  summary (run 10 (f_decimal 1 4) false backwards_session) backwards_session =
    (Completed, 0, 0%nat, 0%nat) /\
  f_ltb (f_decimal (-1) 3 : spec_float) f_zero = true /\
  summary (run 10 (f_decimal (-1) 3) false
             (session (f_decimal 659995 2) None None))
          (session (f_decimal 659995 2) None None) =
    (Unfinished, 10, 10%nat, 10%nat).
Proof. vm_compute. repeat split; reflexivity. Qed.

(** * Further properties *)

(** ** Replay *)
Section ReplayCoverage.
Context {F : Type} `{Scalar F}.

(** Polled [m] times at one epoch, the agent fires the rows of the longest
    due run at the top of the table, one per call and in table order, and
    stops at the first row that is not due, whatever lies behind it: it
    fires min(m, length of that run) times and leaves the rest of the
    table. *)
Theorem replay_at_one_epoch (e : F) :
  forall (states : list (@State F)) (h : @Heap F),
    (forall s, In s states -> epoch s = e) ->
    fire_count (fst (replay states h)) =
      Nat.min (List.length states) (due_prefix e (self_table h)) /\
    self_table (snd (replay states h)) =
      skipn (Nat.min (List.length states) (due_prefix e (self_table h)))
            (self_table h).
Proof. exact (@replay_one_epoch F _ e). Qed.

(** A first row whose epoch no poll reaches blocks the table: nothing
    fires, every call returns the no-op action, and the table is left as it
    was, even if rows behind the first are due. *)
Theorem replay_blocked_by_first_row :
  forall (states : list (@State F)) (h : @Heap F) (row : @Row F)
         (rest : @Table F),
    self_table h = row :: rest ->
    (forall s, In s states -> f_geb (epoch s) (row_epoch row) = false) ->
    fire_count (fst (replay states h)) = 0%nat /\
    self_table (snd (replay states h)) = row :: rest /\
    map fst (fst (replay states h)) =
      map (fun s => default_action (epoch s)) states.
Proof.
  induction states as [|s states IH]; intros h row rest Ht Hb; simpl.
  - auto.
  - pose proof (call_cases s h) as Hc.
    assert (Hs : f_geb (epoch s) (row_epoch row) = false)
      by (apply Hb; now left).
    destruct (TableAgent_get_action _) as [a h1].
    destruct Hc as [(Ha & Hsame & Hfi & _) | (row' & Hrow & Hd & _)].
    + destruct (IH h1 row rest) as (IHc & IHt & IHa);
        [congruence | intros s' Hs'; apply Hb; now right |].
      destruct (replay states h1) as [log h2]. simpl in *.
      rewrite Hfi, Nat.ltb_irrefl. unfold fire_count in *. simpl.
      rewrite IHa, Ha. auto.
    + rewrite Ht in Hrow. injection Hrow as <- _. congruence.
Qed.

End ReplayCoverage.

Lemma replay_at_one_epoch_witness :
  fire_count (fst (replay polls_15 (mkHeap table_1_2 (state_at f_zero) []))) =
    Nat.min (List.length polls_15) (due_prefix (f_decimal 15 1) table_1_2) /\
  self_table (snd (replay polls_15 (mkHeap table_1_2 (state_at f_zero) []))) =
    skipn (Nat.min (List.length polls_15)
             (due_prefix (f_decimal 15 1) table_1_2)) table_1_2.
Proof.
  refine (@replay_at_one_epoch spec_float _ (f_decimal 15 1) polls_15
            (mkHeap table_1_2 (state_at f_zero) []) _).
  intros s [<-|[<-|[<-|[]]]]; reflexivity.
Defined.

Lemma replay_blocked_by_first_row_witness :
  fire_count (fst (replay polls_15 (mkHeap table_2_1 (state_at f_zero) []))) =
    0%nat /\
  self_table (snd (replay polls_15 (mkHeap table_2_1 (state_at f_zero) []))) =
    table_2_1 /\
  map fst (fst (replay polls_15 (mkHeap table_2_1 (state_at f_zero) []))) =
    map (fun s => default_action (epoch s)) polls_15.
Proof.
  refine (@replay_blocked_by_first_row spec_float _ polls_15
            (mkHeap table_2_1 (state_at f_zero) []) _ _ eq_refl _).
  intros s [<-|[<-|[<-|[]]]]; vm_compute; reflexivity.
Defined.

(** In binary64 a NaN never compares [>=]: a row whose epoch is NaN at the
    top of the table blocks it for every poll, and a poll whose epoch is NaN
    fires nothing. *)
Theorem nan_epoch_never_fires :
  (forall (states : list (@State spec_float)) (h : @Heap spec_float)
          (row : @Row spec_float) (rest : @Table spec_float),
     self_table h = row :: rest ->
     row_epoch row = S754_nan ->
     fire_count (fst (replay states h)) = 0%nat /\
     self_table (snd (replay states h)) = row :: rest) /\
  (forall h : @Heap spec_float,
     epoch (state_obj h) = S754_nan ->
     fst (TableAgent_get_action h) = default_action S754_nan /\
     self_table (snd (TableAgent_get_action h)) = self_table h).
Proof.
  split.
  - intros states h row rest Ht Hnan.
    destruct (@replay_blocked_by_first_row spec_float _ states h row rest Ht)
      as (Hc & Htab & _); [|auto].
    intros s _. rewrite Hnan. unfold f_geb. simpl.
    unfold SFleb. reflexivity.
  - intros h Hnan.
    pose proof (get_action_cases h) as Hc.
    destruct (TableAgent_get_action h) as [a h']. simpl in *.
    rewrite Hnan in Hc.
    destruct Hc as [_ [(Ha & Ht & _) | (row & _ & Hd & _)]]; [auto|].
    unfold f_geb in Hd. simpl in Hd. unfold SFleb in Hd.
    destruct (row_epoch row); discriminate.
Qed.

Lemma nan_epoch_never_fires_witness :
  (fire_count
     (fst (replay polls_15
             (mkHeap (mkRow S754_nan f_zero f_zero f_zero :: table_1_2)
                     (state_at f_zero) []))) = 0%nat /\
   self_table
     (snd (replay polls_15
             (mkHeap (mkRow S754_nan f_zero f_zero f_zero :: table_1_2)
                     (state_at f_zero) []))) =
     mkRow S754_nan f_zero f_zero f_zero :: table_1_2) /\
  (fst (TableAgent_get_action (mkHeap table_1_2 (state_at S754_nan) [])) =
     default_action S754_nan /\
   self_table
     (snd (TableAgent_get_action (mkHeap table_1_2 (state_at S754_nan) []))) =
     table_1_2).
Proof.
  split.
  - exact (proj1 nan_epoch_never_fires polls_15
             (mkHeap (mkRow S754_nan f_zero f_zero f_zero :: table_1_2)
                     (state_at f_zero) [])
             _ _ eq_refl eq_refl).
  - exact (proj2 nan_epoch_never_fires
             (mkHeap table_1_2 (state_at S754_nan) []) eq_refl).
Defined.

(** ** The loop, pass by pass *)

(** As [crunch], and the answer of [act] is split into [None], the empty
    string and a non-empty string. *)
Ltac crunch_verdict :=
  unfold_m;
  repeat (simpl;
          match goal with
          | |- _ => step_m
          | |- context [match truthy ?x with _ => _ end] =>
              destruct x as [[|? ?]|]
          | |- context [if ?c then _ else _] =>
              match type of c with bool => destruct c eqn:? end
          end);
  simpl.

Ltac learn H :=
  let T := type of H in
  lazymatch goal with
  | _ : T |- _ => fail
  | _ => pose proof H
  end.

Section LoopCoverage.
Context {F : Type} `{Scalar F} {A E : Type} `{@Environment F E} `{@Policy F A}.

(** The calls of one poll come together.  In the journal of any execution
    started on a journal where this holds (an empty one, for instance),
    there are as many [get_state] calls as [get_action] calls, as [act]
    calls, and as reward records; and there are as many bad-action warnings
    as [act] calls answered with a non-empty string. *)
Theorem run_keeps_polls_balanced (fuel : nat) (step : F) (visualize : bool)
    (s : @Simulator F A E) :
  polls_balanced (journal s) ->
  polls_balanced (journal (final (run fuel step visualize s))).
Proof.
  intros HP.
  pose proof (@run_invariant _ _ _ _ _ _ step visualize
                (fun s => polls_balanced (journal s))
                (fun _ s => polls_balanced (journal s))
                (fun _ s => polls_balanced (journal s))
                (fun _ _ s => polls_balanced (journal s))) as Hinv.
  assert (Hrun : match run fuel step visualize s with
                 | Done _ _ s' | Raised _ _ s' | OutOfFuel _ s' =>
                     polls_balanced (journal s')
                 end).
  { apply Hinv; [| | |exact HP]; unfold polls_balanced, count.
    - intros [ag en t0 t1 t po ups v ta pa fa ra j]; simpl.
      intros (Ha & Hb & Hc & Hd).
      destruct visualize, po; crunch; count_objects;
        repeat split; assumption.
    - intros i [ag en t0 t1 t po ups v ta pa fa ra j]; simpl.
      intros (Ha & Hb & Hc & Hd) _.
      destruct visualize; [destruct ups as [[|p|p]|]|];
        crunch_verdict; count_objects; repeat split; lia.
    - intros n [ag en t0 t1 t po ups v ta pa fa ra j]; simpl.
      intros (Ha & Hb & Hc & Hd) _.
      destruct po; crunch; repeat split; assumption. }
  destruct (run fuel step visualize s); exact Hrun.
Qed.

(** When no method of the environment changes the number of its debris
    objects, that number is the same after every call the loop makes. *)
Lemma steady_propagate_forward (e : E) t ups :
  debris_steady E ->
  List.length (debris (propagate_forward t ups e)) = List.length (debris e).
Proof. intros Hst. apply (Hst e). Qed.
Lemma steady_get_next_action (e e' : E) x :
  debris_steady E -> get_next_action e = (x, e') ->
  List.length (debris e') = List.length (debris e).
Proof.
  intros Hst Heq. pose proof (Hst e) as Hs. cbv zeta in Hs.
  rewrite Heq in Hs. simpl in Hs. tauto.
Qed.
Lemma steady_get_state (e e' : E) x :
  debris_steady E -> get_state e = (x, e') ->
  List.length (debris e') = List.length (debris e).
Proof.
  intros Hst Heq. pose proof (Hst e) as Hs. cbv zeta in Hs.
  rewrite Heq in Hs. simpl in Hs. tauto.
Qed.
Lemma steady_get_reward (e e' : E) x :
  debris_steady E -> get_reward e = (x, e') ->
  List.length (debris e') = List.length (debris e).
Proof.
  intros Hst Heq. pose proof (Hst e) as Hs. cbv zeta in Hs.
  rewrite Heq in Hs. simpl in Hs. tauto.
Qed.
Lemma steady_act (e e' : E) a x :
  debris_steady E -> act a e = (x, e') ->
  List.length (debris e') = List.length (debris e).
Proof.
  intros Hst Heq. destruct (Hst e) as (_ & _ & _ & _ & Hs & _).
  specialize (Hs a). rewrite Heq in Hs. exact Hs.
Qed.
Lemma steady_get_fuel_consumption (e e' : E) x :
  debris_steady E -> get_fuel_consumption e = (x, e') ->
  List.length (debris e') = List.length (debris e).
Proof.
  intros Hst Heq. pose proof (Hst e) as Hs. cbv zeta in Hs.
  rewrite Heq in Hs. simpl in Hs. tauto.
Qed.
Lemma steady_get_trajectory_deviation (e e' : E) x :
  debris_steady E -> get_trajectory_deviation e = (x, e') ->
  List.length (debris e') = List.length (debris e).
Proof.
  intros Hst Heq. pose proof (Hst e) as Hs. cbv zeta in Hs.
  rewrite Heq in Hs. simpl in Hs. tauto.
Qed.
Lemma steady_get_collision_probability (e e' : E) x :
  debris_steady E -> get_collision_probability e = (x, e') ->
  List.length (debris e') = List.length (debris e).
Proof.
  intros Hst Heq. pose proof (Hst e) as Hs. cbv zeta in Hs.
  rewrite Heq in Hs. simpl in Hs. tauto.
Qed.

Ltac steady_env Hst :=
  repeat match goal with
  | Heq : get_next_action _ = (_, _) |- _ =>
      learn (@steady_get_next_action _ _ _ Hst Heq)
  | Heq : get_state _ = (_, _) |- _ =>
      learn (@steady_get_state _ _ _ Hst Heq)
  | Heq : get_reward _ = (_, _) |- _ =>
      learn (@steady_get_reward _ _ _ Hst Heq)
  | Heq : act _ _ = (_, _) |- _ =>
      learn (@steady_act _ _ _ _ Hst Heq)
  | Heq : get_fuel_consumption _ = (_, _) |- _ =>
      learn (@steady_get_fuel_consumption _ _ _ Hst Heq)
  | Heq : get_trajectory_deviation _ = (_, _) |- _ =>
      learn (@steady_get_trajectory_deviation _ _ _ Hst Heq)
  | Heq : get_collision_probability _ = (_, _) |- _ =>
      learn (@steady_get_collision_probability _ _ _ Hst Heq)
  end;
  repeat match goal with
  | Hl : context [List.length (debris (propagate_forward ?t ?u ?e))] |- _ =>
      rewrite (@steady_propagate_forward e t u Hst) in Hl
  end.


(** No execution of [run] changes the settings; one that is not visualised
    builds no visualiser, draws nothing and leaves the telemetry series as
    they were; and if moreover [print_out] is off, it calls none of
    [get_fuel_consumption], [get_trajectory_deviation] and
    [get_collision_probability]. *)
Theorem run_frame (fuel : nat) (step : F) (visualize : bool)
    (s : @Simulator F A E) :
  let s' := final (run fuel step visualize s) in
  same_settings s s' /\
  (visualize = false ->
   undrawn s s' /\
   (print_out s = false ->
    count is_report_getter (journal s') =
      count is_report_getter (journal s))).
Proof.
  set (Inv := fun s' : @Simulator F A E =>
         same_settings s s' /\
         (visualize = false ->
          undrawn s s' /\
          (print_out s = false ->
           count is_report_getter (journal s') =
             count is_report_getter (journal s)))).
  assert (Hrun : match run fuel step visualize s with
                 | Done _ _ s' | Raised _ _ s' | OutOfFuel _ s' => Inv s'
                 end).
  { apply (@run_invariant _ _ _ _ _ _ step visualize
             Inv (fun _ => Inv) (fun _ => Inv) (fun _ _ => Inv)).
    - intros [ag en t0 t1 t po ups v ta pa fa ra j].
      unfold Inv, same_settings, undrawn, count. simpl.
      intros ((Ha & Hb & Hc & Hd) & Hv).
      destruct visualize.
      + destruct po; crunch; (split; [auto|discriminate]).
      + destruct (Hv eq_refl) as ((Hv1 & Hv2 & Hv3 & Hv4 & Hv5 & Hv6) & Hg).
        destruct po; crunch; count_objects; repeat split; auto.
    - intros i [ag en t0 t1 t po ups v ta pa fa ra j].
      unfold Inv, same_settings, undrawn, count. simpl.
      intros ((Ha & Hb & Hc & Hd) & Hv) _.
      destruct visualize.
      + destruct ups as [[|p|p]|]; crunch; (split; [auto|discriminate]).
      + destruct (Hv eq_refl) as ((Hv1 & Hv2 & Hv3 & Hv4 & Hv5 & Hv6) & Hg).
        crunch; count_objects; repeat split; auto.
    - intros n [ag en t0 t1 t po ups v ta pa fa ra j].
      unfold Inv, same_settings, undrawn, count. simpl.
      intros ((Ha & Hb & Hc & Hd) & Hv) _.
      destruct po; crunch.
      + split; [auto|]. intros Hvis.
        destruct (Hv Hvis) as ((Hv1 & Hv2 & Hv3 & Hv4 & Hv5 & Hv6) & Hg).
        repeat split; auto. intros Hpo. rewrite Hpo in Hc. discriminate.
      + split; [auto|]. intros Hvis.
        destruct (Hv Hvis) as ((Hv1 & Hv2 & Hv3 & Hv4 & Hv5 & Hv6) & Hg).
        repeat split; auto.
    - unfold Inv, same_settings, undrawn. repeat split; reflexivity. }
  simpl. destruct (run fuel step visualize s); exact Hrun.
Qed.

(** A pass in which the policy is polled and [act] answers [None] or the
    empty string: no warning is written, the empty string being false for
    [if err:]; the reward record carries the reward read before [act] was
    called and the action the policy returned for the state just read. *)
Theorem loop_body_accepted (step : F) (visualize : bool) (iteration : Z)
    (s : @Simulator F A E) :
  let t := curr_time s in
  let ups := update_r_p_step s in
  let asked := get_next_action (propagate_forward t ups (env s)) in
  let seen := get_state (snd asked) in
  let chosen := get_action (fst seen) (agent s) in
  let scored := get_reward (snd seen) in
  let verdict := act (fst chosen) (snd scored) in
  f_geb t (fst asked) = true ->
  fst verdict = None \/ fst verdict = Some EmptyString ->
  exists (s' : @Simulator F A E) (frame : list (@Event F)),
    loop_body step visualize iteration s =
      match frame_exn visualize ups with
      | None => Ok tt s'
      | Some e => Raise e s'
      end /\
    journal s' =
      frame ++
      debris_records (debris (snd verdict)) t ++
      [Log_protected_position t;
       Log_iteration iteration t (total_collision_probability (snd verdict));
       Log_reward_action iteration (fst scored) (fst chosen);
       Call_act (fst chosen) (fst verdict);
       Call_get_reward (fst scored);
       Call_get_action (fst seen) (fst chosen);
       Call_get_state (fst seen);
       Call_get_next_action (fst asked); Call_propagate_forward t ups] ++
      journal s /\
    count is_bad_action frame = 0%nat /\
    (visualize = false -> frame = []) /\
    (frame_exn visualize ups = None -> curr_time s' = f_add t step).
Proof.
  destruct s as [ag en t0 t1 t po ups v ta pa fa ra j]. simpl.
  destruct (get_next_action (propagate_forward t ups en)) as [next e1] eqn:Hn.
  simpl.
  destruct (get_state e1) as [st1 e2] eqn:Hs. simpl.
  destruct (get_action st1 ag) as [a ag'] eqn:Ha. simpl.
  destruct (get_reward e2) as [r e3] eqn:Hr. simpl.
  destruct (act a e3) as [err e4] eqn:Hv. simpl.
  intros Hd Herr. unfold frame_exn.
  destruct Herr as [-> | ->];
    (destruct visualize; [destruct ups as [[|p|p]|]|]);
    unfold_m; simpl; rewrite Hn; simpl; rewrite Hd; simpl;
    rewrite Hs; simpl; rewrite Ha; simpl; rewrite Hr; simpl;
    rewrite Hv; crunch;
    do 2 eexists; (split; [reflexivity|]); (split; [simpl; peel|]);
    simpl; repeat split; try reflexivity;
    try (count_objects; reflexivity); congruence.
Qed.

(** A [Simulator] object serves one run: [run] never puts [curr_time] back
    to [start_time], so a second call on the object a first call returned
    from makes no pass through the loop (no [propagate_forward] call, no
    iteration record) and returns, whatever its step and whether or not it
    is visualised. *)
Theorem second_run_makes_no_pass (fuel : nat) (step : F) (visualize : bool)
    (s : @Simulator F A E) (r : F) (n : Z) (s' : @Simulator F A E) :
  run fuel step visualize s = Done r n s' ->
  forall (fuel' : nat) (step' : F) (visualize' : bool),
  exists (r' : F) (s'' : @Simulator F A E),
    run (S fuel') step' visualize' s' = Done r' 0 s'' /\
    count is_propagate (journal s'') = count is_propagate (journal s') /\
    count is_log_iteration (journal s'') =
      count is_log_iteration (journal s').
Proof.
  intros Hrun fuel' step' visualize'.
  pose proof (run_done_exit _ _ _ _ Hrun) as Hexit.
  destruct (frame_exn visualize' (update_r_p_step s')) as [e|] eqn:Hexn.
  - destruct (@run_raises _ _ _ _ _ _ fuel' step' visualize' s' e Hexn)
      as (r' & s'' & Hrun' & Hp & Hl).
    rewrite Hexit in Hrun', Hp, Hl. exists r', s''.
    repeat split; [exact Hrun' | lia | lia].
  - destruct (run_clock (S fuel') step' visualize' s' Hexn)
      as (r' & s'' & Hrun' & Hp & Hl & _).
    unfold passes in Hp, Hl. simpl in Hrun', Hp, Hl.
    rewrite Hexit in Hrun', Hp, Hl. exists r', s''.
    repeat split; [exact Hrun' | lia | lia].
Qed.

Lemma clock_after_succ (n : nat) (t step : F) :
  clock_after (S n) t step = f_add (clock_after n t step) step.
Proof.
  revert t. induction n as [|n IH]; intros t; [reflexivity|].
  change (clock_after (S (S n)) t step)
    with (clock_after (S n) (f_add t step) step).
  rewrite IH. reflexivity.
Qed.

Lemma clock_seq_snoc (n : nat) (t step : F) :
  clock_seq (S n) t step = clock_seq n t step ++ [clock_after n t step].
Proof.
  revert t. induction n as [|n IH]; intros t; [reflexivity|].
  change (clock_seq (S (S n)) t step)
    with (t :: clock_seq (S n) (f_add t step) step).
  rewrite IH. reflexivity.
Qed.

Lemma running_sum_step (base : list F) (t0 step : F) (i : Z)
    (pj : list F) (t : F) :
  0 <= i ->
  pj = base ++ clock_seq (Z.to_nat i) t0 step ->
  t = clock_after (Z.to_nat i) t0 step ->
  0 <= i + 1 /\
  pj ++ [t] = base ++ clock_seq (Z.to_nat (i + 1)) t0 step /\
  f_add t step = clock_after (Z.to_nat (i + 1)) t0 step /\
  pj ++ [t] = base ++ clock_seq (S (Z.to_nat i)) t0 step.
Proof.
  intros Hi -> ->.
  replace (Z.to_nat (i + 1)) with (S (Z.to_nat i)) by lia.
  rewrite clock_seq_snoc, clock_after_succ, app_assoc. auto with zarith.
Qed.

(** The epochs [run] hands to [propagate_forward] are the running sums of
    the clock, [t0], [t0 + step], [(t0 + step) + step], ..., one per pass
    and in this order, where [t0] is the object's [curr_time] at the call;
    at the return or when still in the loop after [n] passes, [curr_time]
    is the [n]-th running sum. *)
Theorem run_propagates_running_sums (fuel : nat) (step : F)
    (visualize : bool) (s : @Simulator F A E) :
  match run fuel step visualize s with
  | Done _ n s' | OutOfFuel n s' =>
      0 <= n /\
      propagated (journal s') =
        propagated (journal s) ++ clock_seq (Z.to_nat n) (curr_time s) step /\
      curr_time s' = clock_after (Z.to_nat n) (curr_time s) step
  | Raised _ n s' =>
      propagated (journal s') =
        propagated (journal s) ++
        clock_seq (S (Z.to_nat n)) (curr_time s) step
  end.
Proof.
  set (base := propagated (journal s)). set (t0 := curr_time s).
  set (Q := fun (i : Z) (s1 : @Simulator F A E) =>
         0 <= i /\
         propagated (journal s1) = base ++ clock_seq (Z.to_nat i) t0 step /\
         curr_time s1 = clock_after (Z.to_nat i) t0 step).
  set (R := fun (i : Z) (s1 : @Simulator F A E) =>
         propagated (journal s1) =
           base ++ clock_seq (S (Z.to_nat i)) t0 step).
  assert (Hrun : match run fuel step visualize s with
                 | Done _ n s' => Q n s'
                 | Raised _ n s' => R n s'
                 | OutOfFuel n s' => Q n s'
                 end).
  { apply (@run_invariant _ _ _ _ _ _ step visualize
             (fun s1 => propagated (journal s1) = base /\ curr_time s1 = t0)
             Q R (fun _ => Q)).
    - intros [ag en t1 t2 t po ups v ta pa fa ra j]. unfold Q. simpl.
      intros [Hp Hc]. rewrite app_nil_r.
      destruct visualize, po; crunch; skip_objects (@propagated F);
        auto with zarith.
    - intros i [ag en t1 t2 t po ups v ta pa fa ra j]. unfold Q, R. simpl.
      intros (Hi & Hp & Hc) _.
      destruct (running_sum_step base t0 step Hi Hp Hc)
        as (Hi' & Hp' & Hc' & Hr').
      destruct visualize; [destruct ups as [[|p|p]|]|]; crunch;
        skip_objects (@propagated F); auto.
    - intros n [ag en t1 t2 t po ups v ta pa fa ra j]. unfold Q. simpl.
      intros (Hi & Hp & Hc) _.
      destruct po; crunch; auto.
    - split; reflexivity. }
  destruct (run fuel step visualize s); exact Hrun.
Qed.

End LoopCoverage.

(** ** The telemetry series of a visualised run *)

Lemma mod_abs_zero (i k : Z) :
  k <> 0 -> (i mod k =? 0) = (i mod Z.abs k =? 0).
Proof.
  intros Hk. destruct (Z.abs_eq_or_opp k) as [-> | Ha]; [reflexivity|].
  rewrite Ha.
  destruct (i mod k =? 0) eqn:Hm; symmetry.
  - apply Z.eqb_eq in Hm. apply Z.eqb_eq. now apply Z.mod_opp_r_z.
  - apply Z.eqb_neq in Hm. apply Z.eqb_neq. intros H0. apply Hm.
    apply Z.mod_opp_r_z in H0; [|lia]. now rewrite Z.opp_involutive in H0.
Qed.

Lemma samples_0 (k : Z) : k <> 0 -> samples k 0 = 0.
Proof. intros Hk. unfold samples. apply Z.div_small. lia. Qed.

Lemma samples_nonneg (k i : Z) : k <> 0 -> 0 <= i -> 0 <= samples k i.
Proof. intros Hk Hi. unfold samples. apply Z.div_pos; lia. Qed.

Lemma samples_step (k i : Z) :
  k <> 0 -> 0 <= i ->
  samples k (i + 1) = samples k i + (if i mod k =? 0 then 1 else 0).
Proof.
  intros Hk Hi. rewrite (@mod_abs_zero i k Hk). unfold samples.
  set (a := Z.abs k). assert (Ha : 0 < a) by (unfold a; lia).
  pose proof (Z.div_mod i a ltac:(lia)) as Hdm.
  pose proof (Z.mod_pos_bound i a Ha) as Hb.
  set (q := i / a) in *. set (r := i mod a) in *.
  destruct (r =? 0) eqn:Hr.
  - apply Z.eqb_eq in Hr.
    replace (i + 1 + a - 1) with ((q + 1) * a + 0) by nia.
    replace (i + a - 1) with (q * a + (a - 1)) by nia.
    rewrite !Z.div_add_l by lia. rewrite Z.div_0_l by lia.
    rewrite (Z.div_small (a - 1) a) by lia. lia.
  - apply Z.eqb_neq in Hr.
    replace (i + 1 + a - 1) with ((q + 1) * a + r) by nia.
    replace (i + a - 1) with ((q + 1) * a + (r - 1)) by nia.
    rewrite !Z.div_add_l by lia.
    rewrite (Z.div_small r a), (Z.div_small (r - 1) a) by lia. lia.
Qed.

Section SeriesCoverage.
Context {F : Type} `{Scalar F} {A E : Type} `{@Environment F E} `{@Policy F A}.

Lemma series_pass (k : Z) (t0 : F) (i : Z) (ta pa fa ra : list F)
    (t p f r : F) (hit : bool) :
  k <> 0 -> 0 <= i ->
  (i mod k =? 0) = hit ->
  List.length ta = S (Z.to_nat (samples k i)) ->
  List.length pa = List.length ta ->
  List.length fa = List.length ta ->
  List.length ra = List.length ta ->
  (i = 0 -> ta = [t0] /\ t = t0) ->
  (0 < i -> exists rest, ta = t0 :: t0 :: rest) ->
  let grow (x : F) (l : list F) := if hit then l ++ [x] else l in
  List.length (grow t ta) = S (Z.to_nat (samples k (i + 1))) /\
  List.length (grow p pa) = List.length (grow t ta) /\
  List.length (grow f fa) = List.length (grow t ta) /\
  List.length (grow r ra) = List.length (grow t ta) /\
  exists rest, grow t ta = t0 :: t0 :: rest.
Proof.
  intros Hk Hi Hhit Hta Hpa Hfa Hra Hzero Hpos grow.
  pose proof (samples_step Hk Hi) as Hstep.
  pose proof (samples_nonneg Hk Hi) as Hnn.
  rewrite Hhit in Hstep. unfold grow.
  destruct hit; cbv iota in Hstep.
  - rewrite !length_app. cbn [Datatypes.length].
    split; [lia|]. split; [lia|]. split; [lia|]. split; [lia|].
    destruct (Z.eq_dec i 0) as [Hz|Hz].
    + destruct (Hzero Hz) as [-> ->]. exists (@nil F). reflexivity.
    + destruct Hpos as [rest ->]; [lia|]. exists (rest ++ [t]). reflexivity.
  - split; [lia|]. split; [lia|]. split; [lia|]. split; [lia|].
    destruct (Z.eq_dec i 0) as [Hz|Hz].
    + subst i. rewrite Z.mod_0_l in Hhit by exact Hk. discriminate.
    + destruct Hpos as [rest ->]; [lia|]. exists rest. reflexivity.
Qed.

Lemma series_hit (k : Z) (t0 : F) (i : Z) (ta pa fa ra : list F)
    (t p f r x : F) :
  k <> 0 -> 0 <= i -> (i mod k =? 0) = true ->
  List.length ta = S (Z.to_nat (samples k i)) ->
  List.length pa = List.length ta ->
  List.length fa = List.length ta ->
  List.length ra = List.length ta ->
  (i = 0 -> ta = [t0] /\ t = t0) ->
  (0 < i -> exists rest, ta = t0 :: t0 :: rest) ->
  List.length (ta ++ [t]) = S (Z.to_nat (samples k (i + 1))) /\
  List.length (pa ++ [p]) = List.length (ta ++ [t]) /\
  List.length (fa ++ [f]) = List.length (ta ++ [t]) /\
  List.length (ra ++ [r]) = List.length (ta ++ [t]) /\
  (i + 1 = 0 -> ta ++ [t] = [t0] /\ x = t0) /\
  (0 < i + 1 -> exists rest, ta ++ [t] = t0 :: t0 :: rest).
Proof.
  intros Hk Hi Hhit Hta Hpa Hfa Hra Hzero Hpos.
  destruct (@series_pass k t0 i ta pa fa ra t p f r true
              Hk Hi Hhit Hta Hpa Hfa Hra Hzero Hpos)
    as (Ha & Hb & Hc & Hd & He).
  do 4 (split; [assumption|]).
  split; [intros Hz; exfalso; lia | intros _; exact He].
Qed.

Lemma series_miss (k : Z) (t0 : F) (i : Z) (ta pa fa ra : list F)
    (t x : F) :
  k <> 0 -> 0 <= i -> (i mod k =? 0) = false ->
  List.length ta = S (Z.to_nat (samples k i)) ->
  List.length pa = List.length ta ->
  List.length fa = List.length ta ->
  List.length ra = List.length ta ->
  (i = 0 -> ta = [t0] /\ t = t0) ->
  (0 < i -> exists rest, ta = t0 :: t0 :: rest) ->
  List.length ta = S (Z.to_nat (samples k (i + 1))) /\
  List.length pa = List.length ta /\
  List.length fa = List.length ta /\
  List.length ra = List.length ta /\
  (i + 1 = 0 -> ta = [t0] /\ x = t0) /\
  (0 < i + 1 -> exists rest, ta = t0 :: t0 :: rest).
Proof.
  intros Hk Hi Hhit Hta Hpa Hfa Hra Hzero Hpos.
  destruct (@series_pass k t0 i ta pa fa ra t t t t false
              Hk Hi Hhit Hta Hpa Hfa Hra Hzero Hpos)
    as (Ha & Hb & Hc & Hd & He).
  do 4 (split; [assumption|]).
  split; [intros Hz; exfalso; lia | intros _; exact He].
Qed.

(** The series of a visualised run.  With [update_r_p_step = k], [k <> 0],
    a visualised run does not raise, and after [n] passes its four series
    have the same length 1 + ceil(n / |k|): the entry of the prologue and one
    entry for each pass whose number is a multiple of [k].  Pass 0 is always
    such a pass, so as soon as one pass is made the time series starts with
    the start epoch twice. *)
Theorem visualised_series (fuel : nat) (step : F) (s : @Simulator F A E)
    (k : Z) :
  update_r_p_step s = Some k -> k <> 0 ->
  let r := run fuel step true s in
  (forall e : Exn, kind_of r <> Failed e) /\
  0 <= iterations_of r /\
  series_length (time_arr (final r)) =
    Some (S (Z.to_nat (samples k (iterations_of r)))) /\
  series_length (prob_arr (final r)) = series_length (time_arr (final r)) /\
  series_length (fuel_cons_arr (final r)) =
    series_length (time_arr (final r)) /\
  series_length (reward_arr (final r)) =
    series_length (time_arr (final r)) /\
  (0 < iterations_of r ->
   exists rest,
     time_arr (final r) = Some (curr_time s :: curr_time s :: rest)).
Proof.
  intros Hups Hk. set (t0 := curr_time s).
  assert (Hrun : match run fuel step true s with
                 | Done _ n s' | OutOfFuel n s' => series_at k t0 n s'
                 | Raised _ _ _ => False
                 end).
  { apply (@run_invariant _ _ _ _ _ _ step true
             (fun s1 => update_r_p_step s1 = Some k /\ curr_time s1 = t0)
             (series_at k t0) (fun _ _ => False)
             (fun _ => series_at k t0)).
    - intros [ag en t1 t2 t po ups v ta pa fa ra j]. unfold series_at. simpl.
      intros [Hu Hc]. rewrite (samples_0 Hk).
      destruct po; crunch;
        (split; [lia|]; split; [assumption|]; do 4 eexists;
         repeat (split; [reflexivity|]);
         split; [intros _; subst t; auto | intros Hlt; exfalso; lia]).
    - intros i [ag en t1 t2 t po ups v ta pa fa ra j]. unfold series_at.
      simpl.
      intros (Hi & Hu & ta' & pa' & fa' & ra' & -> & -> & -> & -> &
              Hta & Hpa & Hfa & Hra & Hzero & Hpos) _.
      subst ups. destruct k as [|p|p]; [contradiction| |];
        crunch;
        (split; [lia|]; split; [reflexivity|]; do 4 eexists;
         repeat (split; [reflexivity|]);
         first [ eapply series_hit; eassumption
               | eapply series_miss; eassumption ]).
    - intros n [ag en t1 t2 t po ups v ta pa fa ra j]. unfold series_at.
      simpl.
      intros (Hi & Hu & ta' & pa' & fa' & ra' & -> & -> & -> & -> &
              Hta & Hpa & Hfa & Hra & Hzero & Hpos) _.
      destruct po; crunch;
        (split; [lia|]; split; [assumption|]; do 4 eexists;
         repeat (split; [reflexivity|]); auto 10).
    - split; [exact Hups | reflexivity]. }
  simpl. destruct (run fuel step true s) as [r n s'|e n s'|n s'];
    [| contradiction |]; simpl;
    destruct Hrun as (Hn & _ & ta & pa & fa & ra & Ht & Hp & Hf & Hr &
                      Hta & Hpa & Hfa & Hra & _ & Hpos);
    rewrite Ht, Hp, Hf, Hr; unfold series_length; simpl;
    (split; [discriminate|]);
    (repeat split; try congruence; try lia);
    intros Hlt; destruct (Hpos Hlt) as [rest ->]; eauto.
Qed.

End SeriesCoverage.

(** ** The table-driven agent inside the loop *)

(** A row the environment rejects is lost.  In a pass where the policy is
    a [TableAgent] whose first row is due at the epoch of the state read,
    and [act] answers with a failure description, the warning shows that
    row's deltas and the agent leaves the pass without the row: the next
    poll meets the rest of the table. *)
Theorem rejected_row_is_lost :
  forall (F : Type) (S : Scalar F) (E : Type) (En : @Environment F E)
         (step : F) (iteration : Z) (s : @Simulator F (@Table F) E)
         (row : @Row F) (rest : @Table F) (message : string),
    let t := curr_time s in
    let ups := update_r_p_step s in
    let asked := get_next_action (propagate_forward t ups (env s)) in
    let seen := get_state (snd asked) in
    let e := epoch (fst seen) in
    let scored := get_reward (snd seen) in
    let verdict := act (row_action row e) (snd scored) in
    agent s = row :: rest ->
    f_geb t (fst asked) = true ->
    f_geb e (row_epoch row) = true ->
    fst verdict = Some message ->
    message <> EmptyString ->
    exists s' : @Simulator F (@Table F) E,
      loop_body step false iteration s = Ok tt s' /\
      agent s' = rest /\
      env s' = snd verdict /\
      journal s' =
        debris_records (debris (snd verdict)) t ++
        [Log_protected_position t;
         Log_iteration iteration t (total_collision_probability (snd verdict));
         Log_reward_action iteration (fst scored) (row_action row e);
         Log_bad_action (row_dVx row) (row_dVy row) (row_dVz row) message;
         Call_act (row_action row e) (Some message);
         Call_get_reward (fst scored);
         Call_get_action (fst seen) (row_action row e);
         Call_get_state (fst seen);
         Call_get_next_action (fst asked); Call_propagate_forward t ups] ++
        journal s.
Proof.
  intros F S E En step iteration [ag en t0 t1 t po ups v ta pa fa ra j]
         row rest message. simpl.
  destruct (get_next_action (propagate_forward t ups en)) as [next e1] eqn:Hn.
  simpl.
  destruct (get_state e1) as [st1 e2] eqn:Hs. simpl.
  destruct (get_reward e2) as [r e3] eqn:Hr. simpl.
  destruct (act (row_action row (epoch st1)) e3) as [err e4] eqn:Hv. simpl.
  intros -> Hd Hdue -> Hne.
  destruct message as [|c message]; [contradiction|].
  unfold_m; simpl. rewrite Hn; simpl. rewrite Hd; simpl. rewrite Hs; simpl.
  unfold TableAgent_get_action; simpl. rewrite Hdue; simpl.
  rewrite Hr; simpl.
  rewrite Hv. simpl. rewrite log_debris_positions_eq. simpl.
  eexists. repeat split; reflexivity.
Qed.

(** ** The text of the log records *)

(** The reward/action record has six fields and is given seven arguments:
    the field that follows the words [time_to_request] shows the fourth
    entry of the action, its maneuver epoch, and the fifth entry, the time
    to the next request, is not shown; so two actions that differ in it
    only give the same record.  The bad-action record shows the three
    deltas and the reason. *)
Theorem log_record_fields :
  forall (F : Type) (S : Scalar F) (iteration : Z) (reward : F)
         (action : @Action F) (message : string),
    reward_action_text iteration reward action =
      Some [("Iter", V_int iteration); ("Reward", V_float reward);
            ("dVx", V_float (dVx action)); ("dVy", V_float (dVy action));
            ("dVz", V_float (dVz action));
            ("time_to_request", V_float (maneuver_epoch action))]%string /\
    (forall ttr : F,
       reward_action_text iteration reward
         (mkAction (dVx action) (dVy action) (dVz action)
                   (maneuver_epoch action) ttr) =
       reward_action_text iteration reward action) /\
    bad_action_text message action =
      Some [("dVx", V_float (dVx action)); ("dVy", V_float (dVy action));
            ("dVz", V_float (dVz action)); ("reason", V_str message)]%string.
Proof.
  intros F S iteration reward action message. repeat split.
Qed.

(** ** The training scripts *)

Import Ascii.

Lemma lower_ascii_cases (c : Ascii.ascii) :
  (lower_ascii c = "t"%char -> c = "t"%char \/ c = "T"%char) /\
  (lower_ascii c = "r"%char -> c = "r"%char \/ c = "R"%char) /\
  (lower_ascii c = "u"%char -> c = "u"%char \/ c = "U"%char) /\
  (lower_ascii c = "e"%char -> c = "e"%char \/ c = "E"%char).
Proof.
  destruct c as [[] [] [] [] [] [] [] []]; vm_compute;
    repeat split; intros Hc; first [discriminate Hc | auto].
Qed.

(** [print_out] is on exactly for the sixteen spellings of [true] in upper
    and lower case; any other argument ([1], [yes], [on], the empty string,
    [true] followed by a space) leaves it off. *)
Theorem print_out_spellings :
  forall arg : string,
    parse_print_out arg = true <->
    In arg ["true"; "truE"; "trUe"; "trUE"; "tRue"; "tRuE"; "tRUe"; "tRUE"; "True"; "TruE"; "TrUe"; "TrUE"; "TRue"; "TRuE"; "TRUe"; "TRUE"]%string.
Proof.
  intros arg. unfold parse_print_out. rewrite String.eqb_eq. split.
  - destruct arg as [|c1 [|c2 [|c3 [|c4 [|c5 rest]]]]]; simpl;
      try discriminate.
    intros Heq. injection Heq as H1 H2 H3 H4.
    destruct (lower_ascii_cases c1) as (Ht & _).
    destruct (lower_ascii_cases c2) as (_ & Hr & _).
    destruct (lower_ascii_cases c3) as (_ & _ & Hu & _).
    destruct (lower_ascii_cases c4) as (_ & _ & _ & He).
    destruct (Ht H1) as [-> | ->], (Hr H2) as [-> | ->],
             (Hu H3) as [-> | ->], (He H4) as [-> | ->]; simpl; tauto.
  - simpl. intros Hin.
    repeat (destruct Hin as [<- | Hin]; [reflexivity|]). contradiction.
Qed.

(** ** What reaches [act] *)
Section ThreadCoverage.
Context {F : Type} `{Scalar F} {A E : Type} `{@Environment F E} `{@Policy F A}.

(** The loop hands to [act] exactly the action the policy has just returned
    for the state [get_state] has just returned, with one [get_reward] call
    in between and nothing else: this holds of every [act] call in the
    journal of any execution started on a journal where it holds (an empty
    one, for instance). *)
Theorem run_keeps_calls_threaded (fuel : nat) (step : F) (visualize : bool)
    (s : @Simulator F A E) :
  threaded (journal s) ->
  threaded (journal (final (run fuel step visualize s))).
Proof.
  intros HP.
  assert (Hrun : match run fuel step visualize s with
                 | Done _ _ s' | Raised _ _ s' | OutOfFuel _ s' =>
                     threaded (journal s')
                 end).
  { apply (@run_invariant _ _ _ _ _ _ step visualize
             (fun s => threaded (journal s))
             (fun _ s => threaded (journal s))
             (fun _ s => threaded (journal s))
             (fun _ _ s => threaded (journal s))); [| | |exact HP].
    - intros [ag en t0 t1 t po ups v ta pa fa ra j]; simpl. intros Hj.
      destruct visualize, po; crunch; skip_objects (@threaded F); exact Hj.
    - intros i [ag en t0 t1 t po ups v ta pa fa ra j]; simpl. intros Hj _.
      destruct visualize; [destruct ups as [[|p|p]|]|];
        crunch; skip_objects (@threaded F); auto.
    - intros n [ag en t0 t1 t po ups v ta pa fa ra j]; simpl. intros Hj _.
      destruct po; crunch; exact Hj. }
  destruct (run fuel step visualize s); exact Hrun.
Qed.

End ThreadCoverage.

(** ** Instances on the concrete sessions *)

Lemma run_keeps_calls_threaded_witness :
  threaded
    (journal (final (run 5 (f_decimal 1 4) false
                       (session (f_decimal 659995 2)
                                (Some "Not enough fuel."%string) None)))).
Proof.
  exact (@run_keeps_calls_threaded spec_float _ _ _ _ _ 5%nat
           (f_decimal 1 4) false
           (session (f_decimal 659995 2) (Some "Not enough fuel."%string) None)
           I).
Defined.


Lemma run_keeps_polls_balanced_witness :
  polls_balanced
    (journal (final (run 5 (f_decimal 1 4) false
                       (session (f_decimal 659995 2)
                                (Some "Not enough fuel."%string) None)))).
Proof.
  refine (@run_keeps_polls_balanced spec_float _ _ _ _ _ 5%nat
            (f_decimal 1 4) false
            (session (f_decimal 659995 2) (Some "Not enough fuel."%string) None)
            _).
  repeat split; reflexivity.
Defined.


Lemma loop_body_accepted_witness :
  exists s' frame,
    loop_body (f_decimal 1 4) false 0
      (session (f_decimal 659995 2) (Some ""%string) None) = Ok tt s' /\
    journal s' =
      frame ++
      [Log_debris_positions "DEBRIS2"%string (f_decimal 659995 2);
       Log_debris_positions "DEBRIS1"%string (f_decimal 659995 2);
       Log_protected_position (f_decimal 659995 2);
       Log_iteration 0 (f_decimal 659995 2) f_zero;
       Log_reward_action 0 f_zero (default_action (f_decimal 659995 2));
       Call_act (default_action (f_decimal 659995 2)) (Some ""%string);
       Call_get_reward f_zero;
       Call_get_action (state_at (f_decimal 659995 2))
                       (default_action (f_decimal 659995 2));
       Call_get_state (state_at (f_decimal 659995 2));
       Call_get_next_action (f_decimal 659995 2);
       Call_propagate_forward (f_decimal 659995 2) None] /\
    count is_bad_action frame = 0%nat /\
    (false = false -> frame = []) /\
    (@None Exn = None ->
     curr_time s' = f_add (f_decimal 659995 2) (f_decimal 1 4)).
Proof.
  refine (@loop_body_accepted spec_float _ _ _ _ _ (f_decimal 1 4) false 0
            (session (f_decimal 659995 2) (Some ""%string) None)
            eq_refl _).
  right. reflexivity.
Defined.

Lemma second_run_makes_no_pass_witness :
  exists r' s'',
    run 3 (f_decimal 1 4) true
        (final (run 5 (f_decimal 5 1) false short_session)) = Done r' 0 s'' /\
    count is_propagate (journal s'') =
      count is_propagate
        (journal (final (run 5 (f_decimal 5 1) false short_session))) /\
    count is_log_iteration (journal s'') =
      count is_log_iteration
        (journal (final (run 5 (f_decimal 5 1) false short_session))).
Proof.
  refine (@second_run_makes_no_pass spec_float _ _ _ _ _ 5%nat
            (f_decimal 5 1) false short_session f_zero 2
            (final (run 5 (f_decimal 5 1) false short_session))
            _ 2%nat (f_decimal 1 4) true).
  vm_compute. reflexivity.
Defined.

Lemma visualised_series_witness :
  let r := run 25 (f_decimal 1 4) true
               (session (f_decimal 659995 2) None (Some 10)) in
  (forall e : Exn, kind_of r <> Failed e) /\
  0 <= iterations_of r /\
  series_length (time_arr (final r)) =
    Some (S (Z.to_nat (samples 10 (iterations_of r)))) /\
  series_length (prob_arr (final r)) = series_length (time_arr (final r)) /\
  series_length (fuel_cons_arr (final r)) =
    series_length (time_arr (final r)) /\
  series_length (reward_arr (final r)) =
    series_length (time_arr (final r)) /\
  (0 < iterations_of r ->
   exists rest,
     time_arr (final r) =
       Some (curr_time (session (f_decimal 659995 2) None (Some 10)) ::
             curr_time (session (f_decimal 659995 2) None (Some 10)) ::
             rest)).
Proof.
  refine (@visualised_series spec_float _ _ _ _ _ 25%nat (f_decimal 1 4)
            (session (f_decimal 659995 2) None (Some 10)) 10 eq_refl _).
  discriminate.
Defined.

Lemma rejected_row_is_lost_witness :
  exists s',
    loop_body (f_decimal 1 4) false 0
      (late_session (Some "Not enough fuel."%string)) = Ok tt s' /\
    agent s' = [] /\
    env s' =
      mkScripted (f_decimal 66000 1) (f_decimal 660005 2)
                 (f_decimal 66000 1) (f_decimal 66000 1)
                 (Some "Not enough fuel."%string) f_zero two_debris /\
    journal s' =
      [Log_debris_positions "DEBRIS2"%string (f_decimal 66000 1);
       Log_debris_positions "DEBRIS1"%string (f_decimal 66000 1);
       Log_protected_position (f_decimal 66000 1);
       Log_iteration 0 (f_decimal 66000 1) f_zero;
       Log_reward_action 0 f_zero
         (mkAction (f_decimal 10 1) f_zero f_zero (f_decimal 66000 1) f_zero);
       Log_bad_action (f_decimal 10 1) f_zero f_zero
                      "Not enough fuel."%string;
       Call_act
         (mkAction (f_decimal 10 1) f_zero f_zero (f_decimal 66000 1) f_zero)
         (Some "Not enough fuel."%string);
       Call_get_reward f_zero;
       Call_get_action (state_at (f_decimal 66000 1))
         (mkAction (f_decimal 10 1) f_zero f_zero (f_decimal 66000 1) f_zero);
       Call_get_state (state_at (f_decimal 66000 1));
       Call_get_next_action (f_decimal 66000 1);
       Call_propagate_forward (f_decimal 66000 1) None].
Proof.
  refine (@rejected_row_is_lost spec_float _ (@Scripted spec_float) _
            (f_decimal 1 4) 0
            (late_session (Some "Not enough fuel."%string))
            (mkRow (f_decimal 66000 1) (f_decimal 10 1) f_zero f_zero) []
            "Not enough fuel."%string eq_refl eq_refl eq_refl eq_refl _).
  discriminate.
Defined.
